(** * osm2ultima: the generation engine of the OSM to Ultima map converter

    A shallow embedding of [tools/osm2ultima/osm2ultima.py] and
    [tools/osm2ultima/osm_shape_mapping.py], and the properties of the
    tile grid, the rasterizer, the building planner, the relationship
    pass, the terrain classifier and the IREG record encoder.

    Conventions.
    - Python [int] is [Z]; [//] and [%] are [Z.div] and [Z.modulo] (both
      floor, as in Python, for the positive divisors the code uses);
      [<<], [>>], [|], [&] are [Z.shiftl], [Z.shiftr], [Z.lor], [Z.land].
    - Python [float] is idealised as an exact rational ([Q]); [int(f)]
      truncates toward zero.
    - A raised exception is a [Raise] result; nothing catches exceptions
      in the modelled code.
    - [dict] is [gmap]; iteration order over a dict is not modelled. *)

From Stdlib Require Import ZArith List Lia QArith Qminmax Qround Lqa Bool Ascii.
From stdpp Require Import base gmap strings list fin_maps.

Local Open Scope string_scope.
Local Open Scope list_scope.
Local Open Scope Z_scope.

(** ** Python primitives *)

Module Py.

Inductive exn : Type :=
| AttributeError (name : string)
| ValueError
| IndexError.

Inductive result (A : Type) : Type :=
| Ok (a : A)
| Raise (e : exn).
Arguments Ok {A} a.
Arguments Raise {A} e.

Definition bind {A B} (r : result A) (k : A -> result B) : result B :=
  match r with
  | Ok a => k a
  | Raise e => Raise e
  end.

(** [range(lo, hi)] *)
Definition range (lo hi : Z) : list Z :=
  map (fun i => lo + Z.of_nat i) (seq 0 (Z.to_nat (hi - lo))).

(** [int(q)] for a float idealised as a rational: truncation toward zero. *)
Definition int_of (q : Q) : Z := Z.quot (Qnum q) (Z.pos (Qden q)).

(** [buf[i] = v] on a [bytearray]: the value must be in [range(0, 256)]. *)
Definition bytearray_set (buf : list Z) (i : nat) (v : Z) : result (list Z) :=
  if (0 <=? v) && (v <? 256) then Ok (<[i := v]> buf) else Raise ValueError.

End Py.

Import Py.

Notation "x <- c1 ;; c2" := (Py.bind c1 (fun x => c2))
  (at level 100, c1 at next level, right associativity, only parsing).

(** ** Data structures *)

(** [class UltimaObject] *)
Record UltimaObject : Type := mkUltimaObject {
  shape : Z;
  frame : Z;
  x : Z;
  y : Z;
  lift : Z;
  quality : Z;
  flags : Z
}.

(** [UltimaObject(shape=.., x=.., y=.., lift=..)] with the defaults of the
    dataclass for the other fields. *)
Definition new_object (sh tx ty lf : Z) : UltimaObject :=
  {| shape := sh; frame := 0; x := tx; y := ty; lift := lf;
     quality := 0; flags := 0 |}.

(** [class NPCProfile] *)
Record NPCProfile : Type := mkNPCProfile {
  npc_id : string;
  npc_name : string;
  profession : string;
  building_type : string;
  location : Z * Z;
  npc_shape : Z;
  openness : Q;
  conscientiousness : Q;
  extraversion : Q;
  agreeableness : Q;
  neuroticism : Q;
  dialogues : list string;
  schedule : string;
  knowledge_domains : list string;
  relationships : gmap string Q
}.

(** ** IREG record encoding *)

Module Ireg.

(** An instance of one of the two dataclasses, as the receiver of an
    attribute access or of a method call. *)
Inductive instance : Type :=
| OfUltimaObject (o : UltimaObject)
| OfNPCProfile (p : NPCProfile).

(** [self.<name>] for the integer attributes the encoder reads.  The
    fields of [NPCProfile] other than [shape] have other names
    ([id], [name], [location], ...), none of which the encoder reads. *)
Definition getattr (self : instance) (name : string) : result Z :=
  match self with
  | OfUltimaObject o =>
      if String.eqb name "shape" then Ok (shape o)
      else if String.eqb name "frame" then Ok (frame o)
      else if String.eqb name "x" then Ok (x o)
      else if String.eqb name "y" then Ok (y o)
      else if String.eqb name "lift" then Ok (lift o)
      else if String.eqb name "quality" then Ok (quality o)
      else if String.eqb name "flags" then Ok (flags o)
      else Raise (AttributeError name)
  | OfNPCProfile p =>
      if String.eqb name "shape" then Ok (npc_shape p)
      else Raise (AttributeError name)
  end.

(** The body of [to_ireg_bytes], run on a receiver whose attributes are
    read through [attr]. *)
Definition to_ireg_bytes_body (attr : string -> result Z) : result (list Z) :=
  self_x <- attr "x" ;;
  let chunk_x := self_x / 16 in
  self_y <- attr "y" ;;
  let chunk_y := self_y / 16 in
  let local_x := self_x mod 16 in
  let local_y := self_y mod 16 in
  let buf := replicate 10 0 in
  buf <- bytearray_set buf 0 10 ;;
  buf <- bytearray_set buf 1 (Z.lor (Z.shiftl (chunk_x mod 16) 4) local_x) ;;
  buf <- bytearray_set buf 2 (Z.lor (Z.shiftl (chunk_y mod 16) 4) local_y) ;;
  self_shape <- attr "shape" ;;
  buf <- bytearray_set buf 3 (Z.land self_shape 255) ;;
  self_frame <- attr "frame" ;;
  buf <- bytearray_set buf 4
           (Z.lor (Z.land (Z.shiftr self_shape 8) 3) (Z.shiftl self_frame 2)) ;;
  self_lift <- attr "lift" ;;
  buf <- bytearray_set buf 5 (Z.land self_lift 15) ;;
  self_quality <- attr "quality" ;;
  buf <- bytearray_set buf 6 (Z.land self_quality 255) ;;
  buf <- bytearray_set buf 7 0 ;;
  buf <- bytearray_set buf 8 0 ;;
  buf <- bytearray_set buf 9 0 ;;
  Ok buf.

(** [NPCProfile.to_ireg_bytes]: the method is defined in the body of
    [class NPCProfile]. *)
Definition NPCProfile_to_ireg_bytes (self : instance) : result (list Z) :=
  to_ireg_bytes_body (getattr self).

(** [obj.to_ireg_bytes()]: the method is looked up in the class of the
    receiver.  [UltimaObject] defines no method. *)
Definition call_to_ireg_bytes (obj : instance) : result (list Z) :=
  match obj with
  | OfNPCProfile _ => NPCProfile_to_ireg_bytes obj
  | OfUltimaObject _ => Raise (AttributeError "to_ireg_bytes")
  end.

(** The inner loop of [MapExporter.export_ireg]:
    [for obj in chunk.objects: f.write(obj.to_ireg_bytes())],
    with the file opened for appending as the stream [f]. *)
Fixpoint write_objects (objs : list UltimaObject) (f : list Z) : result (list Z) :=
  match objs with
  | [] => Ok f
  | obj :: rest =>
      rec <- call_to_ireg_bytes (OfUltimaObject obj) ;;
      write_objects rest (f ++ rec)
  end.

(** The record layout the body computes from six attribute values. *)
Definition record_layout (vx vy vshape vframe vlift vquality : Z) : list Z :=
  [ 10;
    Z.lor (Z.shiftl ((vx / 16) mod 16) 4) (vx mod 16);
    Z.lor (Z.shiftl ((vy / 16) mod 16) 4) (vy mod 16);
    Z.land vshape 255;
    Z.lor (Z.land (Z.shiftr vshape 8) 3) (Z.shiftl vframe 2);
    Z.land vlift 15;
    Z.land vquality 255;
    0; 0; 0 ].

End Ireg.

(** ** The tile grid *)

(** [class UltimaChunk]: a 16x16 terrain grid of rows ([terrain[ly][lx]])
    and the objects placed in the chunk. *)
Record UltimaChunk : Type := mkUltimaChunk {
  terrain : list (list Z);
  objects : list UltimaObject
}.

(** [UltimaChunk()]: sixteen separate rows of sixteen [4]s, no object. *)
Definition new_chunk : UltimaChunk :=
  {| terrain := replicate 16 (replicate 16 4); objects := [] |}.

(** A reference to a chunk object. *)
Definition loc : Type := nat.

(** [class UltimaMap].  The values of the dict [chunks] are references;
    [heap] holds the chunk objects they point to and [next_loc] is the
    next unused reference. *)
Record UltimaMap : Type := mkUltimaMap {
  width_chunks : Z;
  height_chunks : Z;
  chunks : gmap (Z * Z) loc;
  heap : gmap loc UltimaChunk;
  next_loc : loc
}.

(** [UltimaMap(width_chunks=w, height_chunks=h)] *)
Definition new_map (w h : Z) : UltimaMap :=
  {| width_chunks := w; height_chunks := h; chunks := ∅; heap := ∅; next_loc := 0%nat |}.

Module Grid.

(** The chunk object a reference points to. *)
Definition deref (m : UltimaMap) (l : loc) : UltimaChunk :=
  default new_chunk (heap m !! l).

(** An assignment through a reference. *)
Definition store (m : UltimaMap) (l : loc) (c : UltimaChunk) : UltimaMap :=
  {| width_chunks := width_chunks m; height_chunks := height_chunks m;
     chunks := chunks m; heap := <[l := c]> (heap m); next_loc := next_loc m |}.

(** [UltimaMap.get_chunk] *)
Definition get_chunk (m : UltimaMap) (cx cy : Z) : UltimaMap * loc :=
  match chunks m !! (cx, cy) with
  | Some l => (m, l)
  | None =>
      let l := next_loc m in
      ({| width_chunks := width_chunks m; height_chunks := height_chunks m;
          chunks := <[(cx, cy) := l]> (chunks m);
          heap := <[l := new_chunk]> (heap m);
          next_loc := S l |}, l)
  end.

(** [t[ly][lx] = v] for non-negative indices; out of range raises. *)
Definition terrain_assign (t : list (list Z)) (ly lx v : Z) : result (list (list Z)) :=
  match t !! Z.to_nat ly with
  | Some row =>
      if decide (Z.to_nat lx < length row)%nat
      then Ok (<[Z.to_nat ly := <[Z.to_nat lx := v]> row]> t)
      else Raise IndexError
  | None => Raise IndexError
  end.

(** [UltimaMap.set_terrain] *)
Definition set_terrain (m : UltimaMap) (tile_x tile_y sh : Z) : result UltimaMap :=
  let '(cx, cy) := (tile_x / 16, tile_y / 16) in
  let '(lx, ly) := (tile_x mod 16, tile_y mod 16) in
  let '(m1, chunk) := get_chunk m cx cy in
  let c := deref m1 chunk in
  t <- terrain_assign (terrain c) ly lx sh ;;
  Ok (store m1 chunk {| terrain := t; objects := objects c |}).

(** [UltimaMap.add_object] *)
Definition add_object (m : UltimaMap) (obj : UltimaObject) : UltimaMap :=
  let '(cx, cy) := (x obj / 16, y obj / 16) in
  let '(m1, chunk) := get_chunk m cx cy in
  let c := deref m1 chunk in
  store m1 chunk {| terrain := terrain c; objects := objects c ++ [obj] |}.

(** [chunk.terrain[ly][lx]] read through a reference. *)
Definition read_terrain (m : UltimaMap) (chunk : loc) (ly lx : Z) : option Z :=
  row ← terrain (deref m chunk) !! Z.to_nat ly; row !! Z.to_nat lx.

(** The terrain id of a tile, when its chunk exists. *)
Definition terrain_at (m : UltimaMap) (tile_x tile_y : Z) : option Z :=
  l ← chunks m !! (tile_x / 16, tile_y / 16);
  read_terrain m l (tile_y mod 16) (tile_x mod 16).

(** The objects of the chunk at a chunk coordinate ([[]] when absent). *)
Definition chunk_objects (m : UltimaMap) (cx cy : Z) : list UltimaObject :=
  match chunks m !! (cx, cy) with
  | Some l => objects (deref m l)
  | None => []
  end.

(** The objects placed on a tile, in placement order. *)
Definition objects_at (m : UltimaMap) (tile_x tile_y : Z) : list UltimaObject :=
  filter (fun o => x o = tile_x /\ y o = tile_y)
         (chunk_objects m (tile_x / 16) (tile_y / 16)).

(** Successive [add_object] calls. *)
Definition add_objects (objs : list UltimaObject) (m : UltimaMap) : UltimaMap :=
  fold_left add_object objs m.

(** The terrain grid of a chunk coordinate (the default grid when the
    chunk does not exist yet). *)
Definition chunk_terrain (m : UltimaMap) (cx cy : Z) : list (list Z) :=
  match chunks m !! (cx, cy) with
  | Some l => terrain (deref m l)
  | None => terrain new_chunk
  end.

(** The chunk stored at a chunk coordinate, read through its reference. *)
Definition chunk_view (m : UltimaMap) (k : Z * Z) : option UltimaChunk :=
  match chunks m !! k with
  | Some l => heap m !! l
  | None => None
  end.

(** A terrain grid of sixteen rows of sixteen cells. *)
Definition rows_ok (c : UltimaChunk) : Prop :=
  length (terrain c) = 16%nat /\ Forall (fun row => length row = 16%nat) (terrain c).

(** Every reference of the dict points into the heap, to a chunk with a
    16x16 terrain, and two coordinates never share a chunk object. *)
Record wf (m : UltimaMap) : Prop := {
  wf_alloc : forall k l, chunks m !! k = Some l -> (l < next_loc m)%nat;
  wf_heap : forall k l, chunks m !! k = Some l -> is_Some (heap m !! l);
  wf_inj : forall k1 k2 l, chunks m !! k1 = Some l -> chunks m !! k2 = Some l -> k1 = k2;
  wf_rows : forall k l c, chunks m !! k = Some l -> heap m !! l = Some c ->
            length (terrain c) = 16%nat /\ Forall (fun row => length row = 16%nat) (terrain c)
}.

(** [get_chunk(tile_x // 16, tile_y // 16).terrain[tile_y % 16][tile_x % 16]]:
    the terrain id of a tile as the exporters and [_fill_default_terrain]
    read it.  The read goes through [get_chunk], so a tile of a chunk
    that does not exist yet reads as the default of a new chunk. *)
Definition tile_terrain (m : UltimaMap) (tile_x tile_y : Z) : option Z :=
  let '(m1, chunk) := get_chunk m (tile_x / 16) (tile_y / 16) in
  read_terrain m1 chunk (tile_y mod 16) (tile_x mod 16).

(** Every object is stored in the chunk that owns its tile. *)
Definition objects_owned (m : UltimaMap) : Prop :=
  forall cx cy o, o ∈ chunk_objects m cx cy -> x o / 16 = cx /\ y o / 16 = cy.

(** [len(self.chunks)] *)
Definition chunk_count (m : UltimaMap) : nat := size (dom (chunks m)).

(** The maps a caller can build: [UltimaMap(...)] followed by calls of
    the three methods of the class. *)
Inductive built : UltimaMap -> Prop :=
  | built_new w h : built (new_map w h)
  | built_get_chunk m cx cy : built m -> built (fst (get_chunk m cx cy))
  | built_set_terrain m tx ty v m' :
      built m -> set_terrain m tx ty v = Ok m' -> built m'
  | built_add_object m o : built m -> built (add_object m o).

End Grid.

(** ** Shape tables and the classifier ([osm_shape_mapping.py]) *)

Module Mapping.

(** [d.get(k, dflt)] *)
Definition dict_get {V} (d : gmap string V) (k : string) (dflt : V) : V :=
  default dflt (d !! k).

(** Truth value of a string: the empty string is false. *)
Definition truthy (s : string) : bool := negb (String.eqb s "").

Definition TERRAIN_SHAPES : gmap string (list Z) :=
  list_to_map [
    ("grass", [4; 31; 32; 33; 34; 35; 36; 37; 38; 39; 40; 41; 42; 43; 44; 45; 146; 147; 148]);
    ("sand", [10; 111]); ("water", [8]);
    ("swamp", [22; 113; 114; 115; 116; 117]); ("dirt", [23]);
    ("mud", [149]); ("rocky_grass", [46]);
    ("sandy_grass", [28; 118; 119; 120; 121; 122; 123; 124; 125; 126; 127; 128; 129; 130; 131; 132; 133]);
    ("muddy_bank", [29; 85; 86; 87; 88; 89; 90; 91; 92; 93; 94; 95; 96; 97; 98; 99; 100; 101; 102; 103; 104; 105; 106; 107; 108; 109]);
    ("grassy_mud", [134; 135; 136; 137; 138; 139; 140; 141; 142; 143; 144; 145]);
    ("cave_floor", [5; 49; 50; 51; 52; 53; 54; 55; 56; 57; 58; 59; 60; 61; 62; 63]);
    ("sidewalk", [1]); ("cobblestone", [24]); ("planking", [17]);
    ("tile", [18]); ("stone_floor", [21]);
    ("carpet", [0; 27; 47; 186; 187; 190; 269; 294; 413]);
    ("floor", [189; 193; 367; 368; 369; 370; 441]);
    ("ford", [14; 15; 84; 112]); ("rut", [16; 25]) ].

Definition OSM_LANDUSE_TO_TERRAIN : gmap string string :=
  list_to_map [
    ("forest", "grass"); ("grass", "grass"); ("meadow", "grass");
    ("farmland", "grass"); ("orchard", "grass"); ("vineyard", "grass");
    ("allotments", "dirt"); ("beach", "sand"); ("sand", "sand");
    ("wetland", "swamp"); ("marsh", "swamp"); ("mud", "mud");
    ("rock", "rocky_grass"); ("bare_rock", "rocky_grass");
    ("residential", "grass"); ("commercial", "cobblestone");
    ("industrial", "cobblestone"); ("retail", "cobblestone");
    ("construction", "dirt"); ("brownfield", "dirt"); ("landfill", "dirt");
    ("cemetery", "grass"); ("military", "grass"); ("quarry", "rocky_grass") ].

Definition OSM_NATURAL_TO_TERRAIN : gmap string string :=
  list_to_map [
    ("water", "water"); ("wetland", "swamp"); ("beach", "sand");
    ("sand", "sand"); ("mud", "mud"); ("bare_rock", "rocky_grass");
    ("scree", "rocky_grass"); ("grassland", "grass"); ("heath", "grass");
    ("scrub", "grass"); ("wood", "grass") ].

Definition OSM_SURFACE_TO_TERRAIN : gmap string string :=
  list_to_map [
    ("asphalt", "cobblestone"); ("concrete", "stone_floor");
    ("paving_stones", "cobblestone"); ("cobblestone", "cobblestone");
    ("gravel", "dirt"); ("unpaved", "dirt"); ("ground", "dirt");
    ("grass", "grass"); ("sand", "sand"); ("wood", "planking");
    ("metal", "tile") ].

Definition OBJECT_SHAPES : gmap string (list Z) :=
  list_to_map [
    ("tree", [181; 310; 332; 453]); ("evergreen", [306]);
    ("dead_tree", [185; 325]); ("fallen_tree", [309; 315]);
    ("stump", [313]); ("tropical_plant", [326]); ("cypress_tree", [327]);
    ("baobab_tree", [328]); ("brambles", [320]); ("reeds", [321]);
    ("cattails", [323]); ("weeds", [314]); ("greer_plant", [160]);
    ("small_rock", [203]); ("rock", [331; 341]); ("boulder", [342; 343]);
    ("large_rock", [316]); ("rock_outcropping", [163]);
    ("mountain", [180; 182; 183; 195; 196; 197; 324; 395; 396]);
    ("well", [470]); ("spring", [7; 13]); ("bubbles", [334; 335]);
    ("waves", [384]);
    ("wall", [151; 152; 205; 206; 218; 219; 220; 221; 253; 266; 273; 308; 344; 345; 346; 348; 349; 350; 351; 355; 357; 358; 359; 362; 365; 366; 371; 374; 393; 425]);
    ("door", [270; 376; 432; 433]); ("window", [438]); ("chimney", [439]);
    ("fireplace", [442]); ("roof_slate", [164; 165; 166; 167; 169]);
    ("roof_wood", [170; 171; 172; 173; 174; 175; 176]);
    ("roof_tile", [156]); ("broken_wall", [216; 217; 255; 347; 356]);
    ("broken_door", [208; 211]); ("broken_roof", [223]);
    ("stairs", [385; 386; 387; 426; 427; 428; 429; 430]);
    ("fortress", [191; 192; 260; 263; 352]); ("fortress_gateway", [257]);
    ("fence", [378; 420; 421; 422]); ("iron_bars", [264]);
    ("portcullis", [271; 272]); ("glass_wall", [373]);
    ("sign", [360; 361; 379]); ("banner", [286]); ("flag_blue", [222]);
    ("flag_red", [232]); ("flag_green", [248]); ("table", [333]);
    ("desk", [283; 407]); ("drawers", [416]); ("nightstand", [406]);
    ("seat", [292]); ("bed", [312; 363]); ("rug", [188; 483]);
    ("tapestry", [293]); ("painting", [282]); ("mirror", [268]);
    ("trophy", [311; 409]); ("statue", [486]);
    ("grandfather_clock", [252]); ("sundial", [284]); ("sconce", [481]);
    ("lit_sconce", [435]); ("light_source", [336]);
    ("lit_light_source", [338]); ("beam_of_light", [168]);
    ("blacksmith", [304]); ("bellows", [431]); ("loom", [261]);
    ("alchemist_device", [177]); ("laboratory_burner", [307]);
    ("mining_machine", [410]); ("conveyer_belt", [411]); ("crops", [423]);
    ("chicken_coop", [210]); ("pumpkin", [302]); ("honeycomb", [404]);
    ("cart", [301]); ("wagon_floor", [436]); ("wagon_wheel", [437]);
    ("bridge", [212; 213; 214; 215]); ("gangplank", [150]);
    ("ferry", [402]); ("ship_hold", [405]); ("mast", [199]);
    ("sails", [251]); ("cask", [434]); ("keg", [258]); ("chest", [76]);
    ("garbage", [415]); ("debris", [201; 202]);
    ("scorch_mark", [204; 207]); ("dust", [209; 224]); ("trap", [200]);
    ("moongate", [157]); ("platform", [233; 364]); ("stand", [158]) ].

Definition OSM_AMENITY_TO_SHAPE : gmap string string :=
  list_to_map [
    ("fountain", "well"); ("bench", "seat"); ("waste_basket", "garbage");
    ("post_box", "chest"); ("clock", "grandfather_clock");
    ("drinking_water", "well"); ("shelter", "roof_wood");
    ("marketplace", "stand"); ("place_of_worship", "statue") ].

Definition OSM_BUILDING_TO_SHAPES : gmap string (gmap string string) :=
  list_to_map [
    ("house", list_to_map [("walls", "wall"); ("roof", "roof_slate"); ("door", "door"); ("window", "window")]);
    ("residential", list_to_map [("walls", "wall"); ("roof", "roof_slate"); ("door", "door"); ("window", "window")]);
    ("apartments", list_to_map [("walls", "wall"); ("roof", "roof_tile"); ("door", "door"); ("window", "window")]);
    ("detached", list_to_map [("walls", "wall"); ("roof", "roof_wood"); ("door", "door"); ("window", "window")]);
    ("terrace", list_to_map [("walls", "wall"); ("roof", "roof_slate"); ("door", "door"); ("window", "window")]);
    ("commercial", list_to_map [("walls", "wall"); ("roof", "roof_tile"); ("door", "door"); ("window", "window")]);
    ("retail", list_to_map [("walls", "wall"); ("roof", "roof_tile"); ("door", "door"); ("window", "window")]);
    ("shop", list_to_map [("walls", "wall"); ("roof", "roof_wood"); ("door", "door"); ("window", "window")]);
    ("kiosk", list_to_map [("walls", "wall"); ("roof", "roof_wood"); ("door", "door")]);
    ("industrial", list_to_map [("walls", "wall"); ("roof", "roof_tile"); ("door", "door")]);
    ("warehouse", list_to_map [("walls", "wall"); ("roof", "roof_wood"); ("door", "door")]);
    ("barn", list_to_map [("walls", "wall"); ("roof", "roof_wood"); ("door", "door")]);
    ("farm", list_to_map [("walls", "wall"); ("roof", "roof_wood"); ("door", "door")]);
    ("church", list_to_map [("walls", "wall"); ("roof", "roof_slate"); ("door", "door"); ("window", "window")]);
    ("chapel", list_to_map [("walls", "wall"); ("roof", "roof_slate"); ("door", "door"); ("window", "window")]);
    ("cathedral", list_to_map [("walls", "fortress"); ("roof", "roof_slate"); ("door", "door"); ("window", "window")]);
    ("public", list_to_map [("walls", "wall"); ("roof", "roof_tile"); ("door", "door"); ("window", "window")]);
    ("civic", list_to_map [("walls", "wall"); ("roof", "roof_tile"); ("door", "door"); ("window", "window")]);
    ("government", list_to_map [("walls", "fortress"); ("roof", "roof_slate"); ("door", "door"); ("window", "window")]);
    ("hospital", list_to_map [("walls", "wall"); ("roof", "roof_tile"); ("door", "door"); ("window", "window")]);
    ("school", list_to_map [("walls", "wall"); ("roof", "roof_slate"); ("door", "door"); ("window", "window")]);
    ("university", list_to_map [("walls", "wall"); ("roof", "roof_slate"); ("door", "door"); ("window", "window")]);
    ("castle", list_to_map [("walls", "fortress"); ("roof", "roof_slate"); ("door", "portcullis")]);
    ("fort", list_to_map [("walls", "fortress"); ("roof", "roof_slate"); ("door", "portcullis")]);
    ("tower", list_to_map [("walls", "fortress"); ("roof", "roof_slate")]);
    ("ruins", list_to_map [("walls", "broken_wall"); ("roof", "broken_roof")]);
    ("bridge", list_to_map [("floor", "bridge")]) ].

Definition OSM_NATURAL_TO_SHAPE : gmap string string :=
  list_to_map [
    ("tree", "tree"); ("wood", "tree"); ("scrub", "brambles");
    ("wetland", "reeds"); ("water", "waves"); ("spring", "spring");
    ("rock", "rock"); ("stone", "rock"); ("peak", "mountain");
    ("cliff", "rock_outcropping"); ("cave_entrance", "cave_floor") ].

Definition OSM_HIGHWAY_TO_TERRAIN : gmap string string :=
  list_to_map [
    ("motorway", "cobblestone"); ("trunk", "cobblestone");
    ("primary", "cobblestone"); ("secondary", "cobblestone");
    ("tertiary", "cobblestone"); ("residential", "cobblestone");
    ("service", "dirt"); ("track", "rut"); ("path", "dirt");
    ("footway", "sidewalk"); ("pedestrian", "cobblestone");
    ("cycleway", "dirt"); ("bridleway", "dirt"); ("steps", "stone_floor") ].

Definition OSM_BARRIER_TO_SHAPE : gmap string string :=
  list_to_map [
    ("fence", "fence"); ("wall", "wall"); ("hedge", "brambles");
    ("gate", "door"); ("bollard", "small_rock");
    ("retaining_wall", "wall"); ("city_wall", "fortress") ].

Definition OSM_MAN_MADE_TO_SHAPE : gmap string string :=
  list_to_map [
    ("bridge", "bridge"); ("pier", "planking"); ("tower", "fortress");
    ("water_tower", "fortress"); ("chimney", "chimney");
    ("windmill", "mast"); ("lighthouse", "fortress"); ("well", "well");
    ("storage_tank", "keg") ].

Definition OSM_WATERWAY_TO_TERRAIN : gmap string string :=
  list_to_map [
    ("river", "water"); ("stream", "water"); ("canal", "water");
    ("drain", "water"); ("ditch", "muddy_bank"); ("dam", "stone_floor") ].

Definition NPC_SHAPES : gmap string (list Z) :=
  list_to_map [
    ("townsman", [265; 319; 452]); ("townswoman", [459]);
    ("noble_male", [451; 456]); ("noble_female", [451; 456]);
    ("child", [471; 472]); ("guard", [394]); ("shopkeeper", [454; 455]);
    ("blacksmith", [304]); ("farmer", [319; 452]); ("beggar", [449; 450]);
    ("mage", [154; 445; 446]); ("fighter", [259; 462; 463]);
    ("ranger", [460; 461]); ("paladin", [247; 464]);
    ("pirate", [401; 458]); ("gypsy", [457]); ("entertainer", [468; 469]);
    ("jester", [467]); ("sage", [318; 448]) ].

(** [v = tags.get(key)] followed by the test [if v]: the value, when
    there is one and it is not the empty string. *)
Definition nonempty_tag (osm_tags : gmap string string) (key : string)
  : option string :=
  match osm_tags !! key with
  | Some v => if truthy v then Some v else None
  | None => None
  end.

(** [v = tags.get(key)] followed by the test [v and v in table]: the
    entry [table[v]] when the test passes. *)
Definition tag_in (osm_tags : gmap string string) (key : string)
           (table : gmap string string) : option string :=
  match osm_tags !! key with
  | Some v => if truthy v then table !! v else None
  | None => None
  end.

(** [get_terrain_shape].  [TERRAIN_SHAPES["grass"]] and the like are
    total lookups: the constant key is a key of the table. *)
Definition get_terrain_shape (osm_tags : gmap string string) : list Z :=
  match tag_in osm_tags "landuse" OSM_LANDUSE_TO_TERRAIN with
  | Some terrain_type =>
      dict_get TERRAIN_SHAPES terrain_type (TERRAIN_SHAPES !!! "grass")
  | None =>
  match tag_in osm_tags "natural" OSM_NATURAL_TO_TERRAIN with
  | Some terrain_type =>
      dict_get TERRAIN_SHAPES terrain_type (TERRAIN_SHAPES !!! "grass")
  | None =>
  match tag_in osm_tags "surface" OSM_SURFACE_TO_TERRAIN with
  | Some terrain_type =>
      dict_get TERRAIN_SHAPES terrain_type (TERRAIN_SHAPES !!! "grass")
  | None =>
  match tag_in osm_tags "highway" OSM_HIGHWAY_TO_TERRAIN with
  | Some terrain_type =>
      dict_get TERRAIN_SHAPES terrain_type (TERRAIN_SHAPES !!! "cobblestone")
  | None =>
  match tag_in osm_tags "waterway" OSM_WATERWAY_TO_TERRAIN with
  | Some terrain_type =>
      dict_get TERRAIN_SHAPES terrain_type (TERRAIN_SHAPES !!! "water")
  | None => TERRAIN_SHAPES !!! "grass"
  end end end end end.

(** The loop of the building branch of [get_object_shapes]:
    [result[component] = OBJECT_SHAPES[shape_name]] for the components
    whose shape name is a key of [OBJECT_SHAPES]. *)
Definition building_components (building_def : gmap string string)
  : gmap string (list Z) :=
  omap (fun shape_name => OBJECT_SHAPES !! shape_name) building_def.

(** The [main] entry of the non-building branches. *)
Definition main_component (shape_name : string) : gmap string (list Z) :=
  match OBJECT_SHAPES !! shape_name with
  | Some shapes => {[ "main" := shapes ]}
  | None => ∅
  end.

(** [get_object_shapes] *)
Definition get_object_shapes (osm_tags : gmap string string)
  : gmap string (list Z) :=
  match nonempty_tag osm_tags "building" with
  | Some building =>
      let btype :=
        if decide (is_Some (OSM_BUILDING_TO_SHAPES !! building))
        then building else "house" in
      building_components
        (dict_get OSM_BUILDING_TO_SHAPES btype (OSM_BUILDING_TO_SHAPES !!! "house"))
  | None =>
  match tag_in osm_tags "amenity" OSM_AMENITY_TO_SHAPE with
  | Some shape_name => main_component shape_name
  | None =>
  match tag_in osm_tags "natural" OSM_NATURAL_TO_SHAPE with
  | Some shape_name => main_component shape_name
  | None =>
  match tag_in osm_tags "barrier" OSM_BARRIER_TO_SHAPE with
  | Some shape_name => main_component shape_name
  | None =>
  match tag_in osm_tags "man_made" OSM_MAN_MADE_TO_SHAPE with
  | Some shape_name => main_component shape_name
  | None => ∅
  end end end end end.

(** ** Coordinate transformation *)

(** [class CoordinateTransformer]; longitudes and latitudes are floats,
    idealised as rationals. *)
Record CoordinateTransformer : Type := mkCoordinateTransformer {
  min_lon : Q;
  min_lat : Q;
  max_lon : Q;
  max_lat : Q;
  lon_range : Q;
  lat_range : Q;
  tiles_x : Z;
  tiles_y : Z
}.

(** [CoordinateTransformer.__init__] *)
Definition new_transformer (bbox : Q * Q * Q * Q) (ultima_size : Z * Z)
  : CoordinateTransformer :=
  let '(mnlon, mnlat, mxlon, mxlat) := bbox in
  {| min_lon := mnlon; min_lat := mnlat; max_lon := mxlon; max_lat := mxlat;
     lon_range := (mxlon - mnlon)%Q;
     lat_range := (mxlat - mnlat)%Q;
     tiles_x := fst ultima_size * 16;
     tiles_y := snd ultima_size * 16 |}.

(** [r > 0] on floats. *)
Definition Qpositive (r : Q) : bool := negb (Qle_bool r 0).

(** [CoordinateTransformer.osm_to_ultima] *)
Definition osm_to_ultima (self : CoordinateTransformer) (lon lat : Q) : Z * Z :=
  let norm_x := if Qpositive (lon_range self)
                then ((lon - min_lon self) / lon_range self)%Q else (1 # 2)%Q in
  let norm_y := if Qpositive (lat_range self)
                then ((lat - min_lat self) / lat_range self)%Q else (1 # 2)%Q in
  let norm_y := (1 - norm_y)%Q in
  let tile_x := int_of (norm_x * inject_Z (tiles_x self))%Q in
  let tile_y := int_of (norm_y * inject_Z (tiles_y self))%Q in
  let tile_x := Z.max 0 (Z.min (tiles_x self - 1) tile_x) in
  let tile_y := Z.max 0 (Z.min (tiles_y self - 1) tile_y) in
  (tile_x, tile_y).

(** [CoordinateTransformer.osm_to_chunk] *)
Definition osm_to_chunk (self : CoordinateTransformer) (lon lat : Q)
  : Z * Z * Z * Z :=
  let '(tile_x, tile_y) := osm_to_ultima self lon lat in
  (tile_x / 16, tile_y / 16, tile_x mod 16, tile_y mod 16).

(** ** NPC candidates of a building type *)

(** [npc_mapping] of [get_npc_for_building] *)
Definition building_npc_types : gmap string (list string) :=
  list_to_map [
    ("house", ["townsman"; "townswoman"; "child"]);
    ("residential", ["townsman"; "townswoman"; "child"]);
    ("shop", ["shopkeeper"]); ("retail", ["shopkeeper"]);
    ("commercial", ["shopkeeper"; "townsman"]);
    ("church", ["sage"]);
    ("castle", ["guard"; "noble_male"; "noble_female"]);
    ("fort", ["guard"; "fighter"]);
    ("government", ["guard"; "noble_male"]);
    ("hospital", ["sage"]); ("school", ["sage"; "child"]);
    ("tavern", ["entertainer"; "townsman"; "townswoman"]);
    ("farm", ["farmer"]); ("barn", ["farmer"]) ].

(** [get_npc_for_building]: the shapes of every listed NPC type that is
    a key of [NPC_SHAPES], concatenated in order. *)
Definition get_npc_for_building (building_type : string) : list Z :=
  let npc_types := dict_get building_npc_types building_type ["townsman"] in
  npc_type ← npc_types; default [] (NPC_SHAPES !! npc_type).

(** A candidate list [random.choice] can draw from, holding only shape
    ids of the ten bits a record stores. *)
Definition valid_shapes (shapes : list Z) : Prop :=
  shapes <> [] /\ Forall (fun sh => 0 <= sh < 1024) shapes.

(** ** The terrain precedence, as the specification words it *)

(** The categories in their order of precedence, each with its table. *)
Definition terrain_categories : list (string * gmap string string) :=
  [ ("landuse", OSM_LANDUSE_TO_TERRAIN);
    ("natural", OSM_NATURAL_TO_TERRAIN);
    ("surface", OSM_SURFACE_TO_TERRAIN);
    ("highway", OSM_HIGHWAY_TO_TERRAIN);
    ("waterway", OSM_WATERWAY_TO_TERRAIN) ].

(** A category matches when the tag is present and its value is mapped. *)
Definition category_match (osm_tags : gmap string string)
           (cat : string * gmap string string) : option string :=
  match osm_tags !! fst cat with
  | Some v => snd cat !! v
  | None => None
  end.

(** The terrain of the first category that matches. *)
Fixpoint first_match (osm_tags : gmap string string)
         (cats : list (string * gmap string string)) : option string :=
  match cats with
  | [] => None
  | cat :: rest =>
      match category_match osm_tags cat with
      | Some terrain_type => Some terrain_type
      | None => first_match osm_tags rest
      end
  end.

(** The candidate set of the first matching category, and the grass
    candidates when none matches. *)
Definition terrain_by_precedence (osm_tags : gmap string string) : option (list Z) :=
  match first_match osm_tags terrain_categories with
  | Some terrain_type => TERRAIN_SHAPES !! terrain_type
  | None => TERRAIN_SHAPES !! "grass"
  end.

(** Every terrain name a table maps to is a key of [TERRAIN_SHAPES], and
    no table maps the empty string. *)
Definition table_closed (table : gmap string string) : Prop :=
  map_Forall (fun _ terrain_type => is_Some (TERRAIN_SHAPES !! terrain_type)) table
  /\ table !! "" = None.

End Mapping.
Import Mapping.

(** ** The generator of Python's [random] module *)

Module Random.

(** The state of a generator, the state [random.seed(n)] puts it in,
    and its two primitive draws: [_randbelow(n)] for [n > 0], an integer
    of [range(n)], and [random()], a float of the interval [0, 1).
    These are the only facts about the Mersenne Twister the development
    relies on. *)
Class Generator (G : Type) : Type := {
  seed : Z -> G;
  randbelow : G -> Z -> Z * G;
  random : G -> Q * G;
  randbelow_range : forall g n, 0 < n -> 0 <= fst (randbelow g n) < n;
  random_range : forall g, (0 <= fst (random g))%Q /\ (fst (random g) < 1)%Q
}.

Section Draws.
Context {G : Type} {RG : Generator G}.

(** [random.choice(seq)] *)
Definition choice {A} (seq : list A) (g : G) : result (A * G) :=
  match seq with
  | [] => Raise IndexError
  | a :: _ =>
      let '(i, g') := randbelow g (Z.of_nat (length seq)) in
      Ok (nth (Z.to_nat i) seq a, g')
  end.

(** [random.randint(a, b)] *)
Definition randint (a b : Z) (g : G) : result (Z * G) :=
  let width := b + 1 - a in
  if 0 <? width then
    let '(i, g') := randbelow g width in Ok (a + i, g')
  else Raise ValueError.

(** [random.uniform(a, b)] is [a + (b - a) * random()]. *)
Definition uniform (a b : Q) (g : G) : Q * G :=
  let '(r, g') := random g in ((a + (b - a) * r)%Q, g').

End Draws.

End Random.

(** ** The map generator *)

(** The dict [MapGenerator.stats]. *)
Record Stats : Type := mkStats {
  buildings_processed : Z;
  roads_processed : Z;
  npcs_placed : Z;
  interiors_generated : Z
}.

(** [class MapGenerator].  The list [bridges] is never written or read
    and is left out.  The object holds no random generator. *)
Record MapGenerator : Type := mkMapGenerator {
  bbox : Q * Q * Q * Q;
  map_size : Z * Z;
  transformer : CoordinateTransformer;
  ultima_map : UltimaMap;
  nodes : gmap Z (Q * Q);
  road_tiles : gmap (Z * Z) string;
  npc_profiles : list NPCProfile;
  npc_counter : Z;
  stats : Stats
}.

(** [MapGenerator.__init__] *)
Definition new_generator (bb : Q * Q * Q * Q) (size : Z * Z) : MapGenerator :=
  {| bbox := bb; map_size := size;
     transformer := new_transformer bb size;
     ultima_map := new_map (fst size) (snd size);
     nodes := ∅; road_tiles := ∅; npc_profiles := []; npc_counter := 0;
     stats := {| buildings_processed := 0; roads_processed := 0;
                 npcs_placed := 0; interiors_generated := 0 |} |}.

Definition set_ultima_map (m : UltimaMap) (s : MapGenerator) : MapGenerator :=
  {| bbox := bbox s; map_size := map_size s; transformer := transformer s;
     ultima_map := m; nodes := nodes s; road_tiles := road_tiles s;
     npc_profiles := npc_profiles s; npc_counter := npc_counter s;
     stats := stats s |}.

Definition set_npc_profiles (ps : list NPCProfile) (s : MapGenerator) : MapGenerator :=
  {| bbox := bbox s; map_size := map_size s; transformer := transformer s;
     ultima_map := ultima_map s; nodes := nodes s; road_tiles := road_tiles s;
     npc_profiles := ps; npc_counter := npc_counter s;
     stats := stats s |}.

Definition set_npc_counter (n : Z) (s : MapGenerator) : MapGenerator :=
  {| bbox := bbox s; map_size := map_size s; transformer := transformer s;
     ultima_map := ultima_map s; nodes := nodes s; road_tiles := road_tiles s;
     npc_profiles := npc_profiles s; npc_counter := n;
     stats := stats s |}.

Definition set_stats (st : Stats) (s : MapGenerator) : MapGenerator :=
  {| bbox := bbox s; map_size := map_size s; transformer := transformer s;
     ultima_map := ultima_map s; nodes := nodes s; road_tiles := road_tiles s;
     npc_profiles := npc_profiles s; npc_counter := npc_counter s;
     stats := st |}.

Definition set_nodes (ns : gmap Z (Q * Q)) (s : MapGenerator) : MapGenerator :=
  {| bbox := bbox s; map_size := map_size s; transformer := transformer s;
     ultima_map := ultima_map s; nodes := ns; road_tiles := road_tiles s;
     npc_profiles := npc_profiles s; npc_counter := npc_counter s;
     stats := stats s |}.

Definition set_road_tiles (rt : gmap (Z * Z) string) (s : MapGenerator) : MapGenerator :=
  {| bbox := bbox s; map_size := map_size s; transformer := transformer s;
     ultima_map := ultima_map s; nodes := nodes s; road_tiles := rt;
     npc_profiles := npc_profiles s; npc_counter := npc_counter s;
     stats := stats s |}.

(** An element of the list [osm_data["elements"]]: a node with its
    identifier, position and, when the key is present, its tags; a way
    with its node identifiers and tags, both read with an empty default;
    or an element of another type. *)
Inductive Element : Type :=
  | ENode (id : Z) (lon lat : Q) (tags : option (gmap string string))
  | EWay (way_nodes : list Z) (tags : gmap string string)
  | EOther.

(** A room of [_plan_rooms]: the dict with keys [type], [min_x], [min_y],
    [max_x], [max_y]. *)
Record Room : Type := mkRoom {
  room_type : string;
  room_min_x : Z;
  room_min_y : Z;
  room_max_x : Z;
  room_max_y : Z
}.

(** The dict returned by [get_npc_with_dialogue]; an absent key reads as
    the default the caller passes to [.get]. *)
Record NpcData : Type := mkNpcData {
  nd_shapes : list Z;
  nd_dialogues : list string;
  nd_schedule : option string
}.

(** ** Decimal rendering for [f"npc_{n:04d}"] *)

Module Format.

Definition digit_char (d : Z) : ascii := ascii_of_nat (48 + Z.to_nat d).

Fixpoint decimal_go (fuel : nat) (n : Z) (acc : string) : string :=
  match fuel with
  | O => acc
  | S fuel' =>
      let acc' := String (digit_char (n mod 10)) acc in
      if n / 10 =? 0 then acc' else decimal_go fuel' (n / 10) acc'
  end.

(** The decimal digits of a non-negative integer. *)
Definition decimal (n : Z) : string := decimal_go (S (Z.to_nat n)) n "".

Fixpoint zeros (k : nat) (s : string) : string :=
  match k with
  | O => s
  | S k' => String "0" (zeros k' s)
  end.

(** [f"{n:04d}"] for [n >= 0]: zero-padded to four digits. *)
Definition d04 (n : Z) : string :=
  let s := decimal n in zeros (4 - String.length s) s.

(** The value of a digit string. *)
Fixpoint value_from (a : Z) (s : string) : Z :=
  match s with
  | EmptyString => a
  | String c s' => value_from (a * 10 + (Z.of_nat (nat_of_ascii c) - 48)) s'
  end.

(** [f"npc_{n:04d}"] *)
Definition npc_id_of (n : Z) : string := "npc_" +:+ d04 n.

End Format.

Module Generator.

(** [MapGenerator.HIGHWAY_WIDTHS] *)
Definition HIGHWAY_WIDTHS : gmap string Z :=
  list_to_map [
    ("motorway", 4); ("trunk", 4); ("primary", 3); ("secondary", 3);
    ("tertiary", 2); ("residential", 2); ("service", 1); ("track", 1);
    ("path", 1); ("footway", 1); ("pedestrian", 2); ("cycleway", 1);
    ("bridleway", 1); ("steps", 1) ].

(** [npc_mapping] of [_place_building_npcs] *)
Definition npc_mapping : gmap string (list string) :=
  list_to_map [
    ("house", ["townsman"; "townswoman"]);
    ("residential", ["townsman"; "townswoman"; "child"]);
    ("shop", ["shopkeeper"]); ("retail", ["shopkeeper"]);
    ("commercial", ["shopkeeper"; "townsman"]);
    ("church", ["sage"]);
    ("castle", ["guard"; "noble_male"; "noble_female"]);
    ("fort", ["guard"; "fighter"]);
    ("government", ["guard"; "noble_male"]);
    ("hospital", ["sage"]); ("school", ["sage"]);
    ("tavern", ["entertainer"; "townsman"; "townswoman"]);
    ("farm", ["farmer"]); ("barn", ["farmer"]);
    ("industrial", ["blacksmith"; "townsman"]);
    ("warehouse", ["townsman"]) ].

Definition first_names_male : list string :=
  ["Gareth"; "Aldric"; "Cedric"; "Edmund"; "Roland";
   "Geoffrey"; "Wilfred"; "Oswald"; "Reginald"; "Bernard"].

Definition first_names_female : list string :=
  ["Elara"; "Beatrice"; "Gwyneth"; "Isolde"; "Rowena";
   "Millicent"; "Cordelia"; "Elowen"; "Rosalind"; "Lysandra"].

(** A row of [personality_profiles]: the dict with keys [o c e a n]. *)
Record Traits : Type := mkTraits { t_o : Q; t_c : Q; t_e : Q; t_a : Q; t_n : Q }.

Definition traits (o c e a n : Z) : Traits :=
  {| t_o := o # 10; t_c := c # 10; t_e := e # 10; t_a := a # 10; t_n := n # 10 |}.

(** [personality_profiles] of [_create_npc_profile], in tenths. *)
Definition personality_profiles : gmap string Traits :=
  list_to_map [
    ("townsman", traits 4 5 5 6 4); ("townswoman", traits 5 6 5 7 4);
    ("child", traits 8 3 8 6 5); ("guard", traits 3 8 4 4 3);
    ("shopkeeper", traits 5 7 7 6 3); ("blacksmith", traits 4 8 4 5 3);
    ("farmer", traits 3 7 4 6 4); ("mage", traits 9 6 3 4 5);
    ("sage", traits 8 7 3 6 3); ("noble_male", traits 5 6 6 3 4);
    ("noble_female", traits 6 6 5 4 5); ("entertainer", traits 8 4 9 7 5);
    ("beggar", traits 4 3 4 5 7); ("fighter", traits 4 6 5 3 4);
    ("ranger", traits 6 6 3 5 3) ].

(** [knowledge_mapping] of [_create_npc_profile] *)
Definition knowledge_mapping : gmap string (list string) :=
  list_to_map [
    ("townsman", ["local_gossip"; "town_history"]);
    ("townswoman", ["local_gossip"; "town_history"; "cooking"]);
    ("child", ["games"; "local_secrets"]);
    ("guard", ["combat"; "law"; "town_security"]);
    ("shopkeeper", ["commerce"; "goods"; "local_economy"]);
    ("blacksmith", ["smithing"; "weapons"; "armor"; "metallurgy"]);
    ("farmer", ["agriculture"; "weather"; "animals"]);
    ("mage", ["magic"; "arcana"; "history"; "alchemy"]);
    ("sage", ["history"; "lore"; "religion"; "medicine"]);
    ("noble_male", ["politics"; "heraldry"; "etiquette"]);
    ("noble_female", ["politics"; "heraldry"; "etiquette"; "fashion"]);
    ("entertainer", ["music"; "stories"; "gossip"; "performance"]);
    ("fighter", ["combat"; "weapons"; "tactics"]);
    ("ranger", ["nature"; "tracking"; "survival"; "beasts"]) ].

(** [s in l] for a list of strings. *)
Definition str_in (s : string) (l : list string) : bool :=
  bool_decide (s ∈ l).

(** [min(...)] and [max(...)] over a non-empty sequence. *)
Definition min_of (l : list Z) : Z :=
  match l with
  | [] => 0
  | a :: l' => fold_left Z.min l' a
  end.

Definition max_of (l : list Z) : Z :=
  match l with
  | [] => 0
  | a :: l' => fold_left Z.max l' a
  end.

(** The range of both width loops: [range(-width // 2, width // 2 + 1)].
    The unary minus binds tighter than [//]. *)
Definition width_range (width : Z) : list Z :=
  range ((- width) / 2) (width / 2 + 1).

(** The tile center of step [i] of a line of [dist] steps:
    [t = i / dist], [int(start + t * (end - start))] on each axis. *)
Definition line_center (start_tile end_tile : Z * Z) (dist i : Z) : Z * Z :=
  let t := (inject_Z i / inject_Z dist)%Q in
  (int_of (inject_Z (fst start_tile) + t * inject_Z (fst end_tile - fst start_tile))%Q,
   int_of (inject_Z (snd start_tile) + t * inject_Z (snd end_tile - snd start_tile))%Q).

(** [0 <= tx < map_size[0] * 16 and 0 <= ty < map_size[1] * 16] *)
Definition in_world (size : Z * Z) (tx ty : Z) : bool :=
  (0 <=? tx) && (tx <? fst size * 16) && (0 <=? ty) && (ty <? snd size * 16).

Section Session.

Context {G : Type} {RG : Random.Generator G}.

(** Functions that [osm2ultima.py] imports from [osm_shape_mapping] and
    that the module does not define, and the builtin [hash] on strings. *)
Variable get_furniture_for_room : string -> string -> list string.
Variable get_furniture_shapes : string -> list Z.
Variable get_npc_with_dialogue : string -> option NpcData.
Variable py_hash : string -> Z.

(** A method of the generator: it reads and writes the state of the
    module-level generator of [random] and the fields of [self]. *)
Definition Gen (A : Type) : Type :=
  G * MapGenerator -> result (A * (G * MapGenerator)).

Definition ret {A} (a : A) : Gen A := fun w => Ok (a, w).

Definition gbind {A B} (c : Gen A) (k : A -> Gen B) : Gen B :=
  fun w => match c w with
           | Ok (a, w') => k a w'
           | Raise e => Raise e
           end.

Notation "x <~ c1 ;; c2" := (gbind c1 (fun x => c2))
  (at level 100, c1 at next level, right associativity, only parsing).
Notation "c1 ;;; c2" := (gbind c1 (fun _ => c2))
  (at level 100, right associativity, only parsing).

(** A draw from the module-level generator that may raise. *)
Definition draw {A} (d : G -> result (A * G)) : Gen A :=
  fun w => match d (fst w) with
           | Ok (a, g') => Ok (a, (g', snd w))
           | Raise e => Raise e
           end.

(** A draw that cannot raise. *)
Definition draw_total {A} (d : G -> A * G) : Gen A :=
  fun w => let '(a, g') := d (fst w) in Ok (a, (g', snd w)).

Definition get_self : Gen MapGenerator := fun w => Ok (snd w, w).

Definition modify (f : MapGenerator -> MapGenerator) : Gen unit :=
  fun w => Ok (tt, (fst w, f (snd w))).

(** [self.ultima_map.set_terrain(x, y, shape)] *)
Definition set_terrain (tx ty sh : Z) : Gen unit :=
  fun w => match Grid.set_terrain (ultima_map (snd w)) tx ty sh with
           | Ok m => Ok (tt, (fst w, set_ultima_map m (snd w)))
           | Raise e => Raise e
           end.

(** [self.ultima_map.add_object(obj)] *)
Definition add_object (obj : UltimaObject) : Gen unit :=
  modify (fun s => set_ultima_map (Grid.add_object (ultima_map s) obj) s).

(** [for a in l: body(a)] *)
Fixpoint for_ {A} (l : list A) (body : A -> Gen unit) : Gen unit :=
  match l with
  | [] => ret tt
  | a :: l' => body a ;;; for_ l' body
  end.

(** [self.ultima_map.set_terrain(tx, ty, random.choice(shapes))] *)
Definition paint (shapes : list Z) (tx ty : Z) : Gen unit :=
  sh <~ draw (Random.choice shapes) ;;
  set_terrain tx ty sh.

(** The two width loops of [_draw_line_terrain] around a center. *)
Definition paint_square (shapes : list Z) (width : Z) (center : Z * Z) : Gen unit :=
  self <~ get_self ;;
  for_ (width_range width) (fun wx =>
    for_ (width_range width) (fun wy =>
      let '(tx, ty) := (fst center + wx, snd center + wy) in
      if in_world (map_size self) tx ty then paint shapes tx ty else ret tt)).

(** [MapGenerator._draw_line_terrain] *)
Definition _draw_line_terrain (start end_ : Q * Q) (shapes : list Z) (width : Z)
  : Gen unit :=
  self <~ get_self ;;
  let start_tile := osm_to_ultima (transformer self) (fst start) (snd start) in
  let end_tile := osm_to_ultima (transformer self) (fst end_) (snd end_) in
  let dx := Z.abs (fst end_tile - fst start_tile) in
  let dy := Z.abs (snd end_tile - snd start_tile) in
  let dist := Z.max dx dy in
  if dist =? 0 then
    paint shapes (fst start_tile) (snd start_tile)
  else
    for_ (range 0 (dist + 1)) (fun i =>
      paint_square shapes width (line_center start_tile end_tile dist i)).

(** [MapGenerator._process_waterway] *)
Definition _process_waterway (tags : gmap string string) (coords : list (Q * Q))
  : Gen unit :=
  let water_shapes := dict_get TERRAIN_SHAPES "water" [8] in
  for_ (seq 0 (length coords - 1)) (fun i =>
    match coords !! i, coords !! S i with
    | Some a, Some b => _draw_line_terrain a b water_shapes 3
    | _, _ => ret tt
    end).

(** [MapGenerator._plan_rooms] *)
Definition _plan_rooms (building_type : string) (min_x min_y max_x max_y : Z)
  : Gen (list Room) :=
  let width := max_x - min_x in
  let height := max_y - min_y in
  if (width <? 6) || (height <? 6) then
    ret [mkRoom "main" min_x min_y max_x max_y]
  else if str_in building_type ["house"; "residential"] then
    let mid_y := min_y + height / 2 in
    let rooms := [mkRoom "living" min_x min_y max_x mid_y;
                  mkRoom "bedroom" min_x (mid_y + 1) max_x max_y] in
    let wall_shapes := dict_get OBJECT_SHAPES "wall" [151] in
    for_ (range min_x (max_x + 1)) (fun x =>
      if negb (x =? (min_x + max_x) / 2) then
        sh <~ draw (Random.choice wall_shapes) ;;
        add_object (new_object sh x mid_y 0)
      else ret tt) ;;;
    ret rooms
  else if str_in building_type ["shop"; "retail"; "commercial"] then
    let mid_y := min_y + (height * 2) / 3 in
    ret [mkRoom "showroom" min_x min_y max_x mid_y;
         mkRoom "storage" min_x (mid_y + 1) max_x max_y]
  else if str_in building_type ["tavern"] then
    let mid_x := min_x + (width * 2) / 3 in
    let mid_y := min_y + height / 2 in
    ret [mkRoom "main" min_x min_y mid_x max_y;
         mkRoom "kitchen" (mid_x + 1) min_y max_x mid_y;
         mkRoom "bedroom" (mid_x + 1) (mid_y + 1) max_x max_y]
  else if str_in building_type ["castle"; "government"] then
    let mid_x := min_x + width / 2 in
    ret [mkRoom (if String.eqb building_type "castle" then "throne" else "hall")
                min_x min_y mid_x max_y;
         mkRoom (if String.eqb building_type "castle" then "hall" else "office")
                (mid_x + 1) min_y max_x max_y]
  else
    ret [mkRoom "main" min_x min_y max_x max_y].

(** The [while attempts < 10] loop of [_furnish_room] for one furniture
    item, with [n] iterations left; it returns [placed_positions]. *)
Fixpoint furnish_attempts (n : nat) (room : Room) (furniture_shapes : list Z)
         (placed_positions : gset (Z * Z)) : Gen (gset (Z * Z)) :=
  match n with
  | O => ret placed_positions
  | S n' =>
      px <~ draw (Random.randint (room_min_x room) (room_max_x room)) ;;
      py <~ draw (Random.randint (room_min_y room) (room_max_y room)) ;;
      if decide ((px, py) ∈ placed_positions) then
        furnish_attempts n' room furniture_shapes placed_positions
      else
        sh <~ draw (Random.choice furniture_shapes) ;;
        add_object (new_object sh px py 0) ;;;
        ret ({[ (px, py) ]} ∪ placed_positions)
  end.

(** The loop [for furniture_name in furniture_list] of [_furnish_room]. *)
Fixpoint furnish_items (furniture_list : list string) (room : Room)
         (placed_positions : gset (Z * Z)) : Gen unit :=
  match furniture_list with
  | [] => ret tt
  | furniture_name :: rest =>
      let furniture_shapes := get_furniture_shapes furniture_name in
      match furniture_shapes with
      | [] => furnish_items rest room placed_positions
      | _ :: _ =>
          placed <~ furnish_attempts 10 room furniture_shapes placed_positions ;;
          furnish_items rest room placed
      end
  end.

(** [MapGenerator._furnish_room] *)
Definition _furnish_room (building_type : string) (room : Room) : Gen unit :=
  let furniture_list := get_furniture_for_room building_type (room_type room) in
  match furniture_list with
  | [] => ret tt
  | _ :: _ => furnish_items furniture_list room ∅
  end.

(** [MapGenerator._generate_interior] *)
Definition _generate_interior (building_type : string) (min_x min_y max_x max_y : Z)
  : Gen unit :=
  let width := max_x - min_x in
  let height := max_y - min_y in
  if (width <? 2) || (height <? 2) then ret tt
  else
    rooms <~ _plan_rooms building_type min_x min_y max_x max_y ;;
    for_ rooms (fun room => _furnish_room building_type room).

(** [vary] of [_create_npc_profile]:
    [max(0.0, min(1.0, base + random.uniform(-0.15, 0.15)))] *)
Definition vary (base : Q) : Gen Q :=
  u <~ draw_total (Random.uniform (- (15 # 100)) (15 # 100)) ;;
  ret (Qmax 0 (Qmin 1 (base + u))).

(** [MapGenerator._create_npc_profile] *)
Definition _create_npc_profile (npc_type building_type : string) (px py sh : Z)
           (npc_data : NpcData) : Gen NPCProfile :=
  modify (fun s => set_npc_counter (npc_counter s + 1) s) ;;;
  self <~ get_self ;;
  let id := Format.npc_id_of (npc_counter self) in
  let is_female := str_in npc_type ["townswoman"; "noble_female"] in
  let names := if is_female then first_names_female else first_names_male in
  name <~ draw (Random.choice names) ;;
  let base_traits := dict_get personality_profiles npc_type (traits 5 5 5 5 5) in
  o <~ vary (t_o base_traits) ;;
  c <~ vary (t_c base_traits) ;;
  e <~ vary (t_e base_traits) ;;
  a <~ vary (t_a base_traits) ;;
  n <~ vary (t_n base_traits) ;;
  ret {| npc_id := id;
         npc_name := name;
         profession := npc_type;
         building_type := building_type;
         location := (px, py);
         npc_shape := sh;
         openness := o;
         conscientiousness := c;
         extraversion := e;
         agreeableness := a;
         neuroticism := n;
         dialogues := nd_dialogues npc_data;
         schedule := default "daytime" (nd_schedule npc_data);
         knowledge_domains := dict_get knowledge_mapping npc_type ["general"];
         relationships := ∅ |}.

(** [profile.relationships = rel], an update of the profile in place. *)
Definition set_relationships (rel : gmap string Q) (p : NPCProfile) : NPCProfile :=
  {| npc_id := npc_id p; npc_name := npc_name p; profession := profession p;
     building_type := building_type p; location := location p;
     npc_shape := npc_shape p; openness := openness p;
     conscientiousness := conscientiousness p; extraversion := extraversion p;
     agreeableness := agreeableness p; neuroticism := neuroticism p;
     dialogues := dialogues p; schedule := schedule p;
     knowledge_domains := knowledge_domains p; relationships := rel |}.

(** The inner loop of [_create_building_relationships] for one profile:
    [for other_id in npc_ids: if other_id != profile.id:
       profile.relationships[other_id] = random.uniform(0.3, 0.7)] *)
Fixpoint relate_to (profile_id : string) (others : list string)
         (rel : gmap string Q) (g : G) : gmap string Q * G :=
  match others with
  | [] => (rel, g)
  | other_id :: rest =>
      if String.eqb other_id profile_id then relate_to profile_id rest rel g
      else
        let '(v, g') := Random.uniform (3 # 10) (7 # 10) g in
        relate_to profile_id rest (<[other_id := v]> rel) g'
  end.

(** The outer loop: [for profile in self.npc_profiles:
    if profile.id in npc_ids: ...] *)
Fixpoint relate_profiles (npc_ids : list string) (profiles : list NPCProfile)
         (g : G) : list NPCProfile * G :=
  match profiles with
  | [] => ([], g)
  | profile :: rest =>
      if str_in (npc_id profile) npc_ids then
        let '(rel, g1) := relate_to (npc_id profile) npc_ids (relationships profile) g in
        let '(rest', g2) := relate_profiles npc_ids rest g1 in
        (set_relationships rel profile :: rest', g2)
      else
        let '(rest', g2) := relate_profiles npc_ids rest g in
        (profile :: rest', g2)
  end.

(** [MapGenerator._create_building_relationships] *)
Definition _create_building_relationships (npc_ids : list string) : Gen unit :=
  if (length npc_ids <? 2)%nat then ret tt
  else fun w =>
    let '(profiles, g') := relate_profiles npc_ids (npc_profiles (snd w)) (fst w) in
    Ok (tt, (g', set_npc_profiles profiles (snd w))).

(** The [while attempts < 10] loop of [_place_building_npcs] for one
    NPC, with [n] iterations left; it returns [placed_positions] and
    [building_npcs]. *)
Fixpoint npc_attempts (n : nat) (npc_type building_type : string) (npc_data : NpcData)
         (min_x min_y max_x max_y : Z)
         (placed_positions : gset (Z * Z)) (building_npcs : list string)
  : Gen (gset (Z * Z) * list string) :=
  match n with
  | O => ret (placed_positions, building_npcs)
  | S n' =>
      px <~ draw (Random.randint min_x max_x) ;;
      py <~ draw (Random.randint min_y max_y) ;;
      if decide ((px, py) ∈ placed_positions) then
        npc_attempts n' npc_type building_type npc_data min_x min_y max_x max_y
                     placed_positions building_npcs
      else
        sh <~ draw (Random.choice (nd_shapes npc_data)) ;;
        add_object {| shape := sh; frame := 0; x := px; y := py; lift := 0;
                      quality := py_hash npc_type mod 256; flags := 0 |} ;;;
        modify (fun s =>
          set_stats {| buildings_processed := buildings_processed (stats s);
                       roads_processed := roads_processed (stats s);
                       npcs_placed := npcs_placed (stats s) + 1;
                       interiors_generated := interiors_generated (stats s) |} s) ;;;
        profile <~ _create_npc_profile npc_type building_type px py sh npc_data ;;
        modify (fun s => set_npc_profiles (npc_profiles s ++ [profile])%list s) ;;;
        ret ({[ (px, py) ]} ∪ placed_positions, (building_npcs ++ [npc_id profile])%list)
  end.

(** The loop [for _ in range(num_npcs)] of [_place_building_npcs]. *)
Fixpoint place_npcs (k : nat) (npc_types : list string) (building_type : string)
         (min_x min_y max_x max_y : Z)
         (placed_positions : gset (Z * Z)) (building_npcs : list string)
  : Gen (list string) :=
  match k with
  | O => ret building_npcs
  | S k' =>
      npc_type <~ draw (Random.choice npc_types) ;;
      match get_npc_with_dialogue npc_type with
      | Some npc_data =>
          match nd_shapes npc_data with
          | [] => place_npcs k' npc_types building_type min_x min_y max_x max_y
                             placed_positions building_npcs
          | _ :: _ =>
              r <~ npc_attempts 10 npc_type building_type npc_data
                                min_x min_y max_x max_y placed_positions building_npcs ;;
              place_npcs k' npc_types building_type min_x min_y max_x max_y
                         (fst r) (snd r)
          end
      | None => place_npcs k' npc_types building_type min_x min_y max_x max_y
                           placed_positions building_npcs
      end
  end.

(** [MapGenerator._place_building_npcs] *)
Definition _place_building_npcs (building_type : string) (min_x min_y max_x max_y : Z)
  : Gen unit :=
  let npc_types := dict_get npc_mapping building_type ["townsman"] in
  let width := max_x - min_x in
  let height := max_y - min_y in
  let area := width * height in
  let '(max_npcs, npc_chance) :=
    if area <? 16 then (1, 4 # 10)
    else if area <? 36 then (2, 5 # 10)
    else (3, 6 # 10) in
  r <~ draw_total Random.random ;;
  if negb (Qle_bool r npc_chance) then ret tt
  else
    num_npcs <~ draw (Random.randint 1 max_npcs) ;;
    building_npcs <~ place_npcs (Z.to_nat num_npcs) npc_types building_type
                                min_x min_y max_x max_y ∅ [] ;;
    _create_building_relationships building_npcs.

(** The painting part of [_process_building], from the floor to the
    roof, for the bounding box of the transformed vertices. *)
Definition building_shell (tags : gmap string string) (min_x min_y max_x max_y : Z)
  : Gen unit :=
  let shapes := get_object_shapes tags in
  let floor_shapes := dict_get TERRAIN_SHAPES "floor" [189] in
  for_ (range min_x (max_x + 1)) (fun tx =>
    for_ (range min_y (max_y + 1)) (fun ty => paint floor_shapes tx ty)) ;;;
  let wall_shapes := dict_get shapes "walls" (dict_get OBJECT_SHAPES "wall" [151]) in
  for_ (range min_x (max_x + 1)) (fun tx =>
    sh <~ draw (Random.choice wall_shapes) ;;
    add_object (new_object sh tx min_y 0) ;;;
    sh <~ draw (Random.choice wall_shapes) ;;
    add_object (new_object sh tx max_y 0)) ;;;
  for_ (range (min_y + 1) max_y) (fun ty =>
    sh <~ draw (Random.choice wall_shapes) ;;
    add_object (new_object sh min_x ty 0) ;;;
    sh <~ draw (Random.choice wall_shapes) ;;
    add_object (new_object sh max_x ty 0)) ;;;
  let door_shapes := dict_get shapes "door" (dict_get OBJECT_SHAPES "door" [270]) in
  let door_x := (min_x + max_x) / 2 in
  sh <~ draw (Random.choice door_shapes) ;;
  add_object (new_object sh door_x max_y 0) ;;;
  let roof_shapes := dict_get shapes "roof" (dict_get OBJECT_SHAPES "roof_slate" [164]) in
  for_ (range min_x (max_x + 1)) (fun tx =>
    for_ (range min_y (max_y + 1)) (fun ty =>
      sh <~ draw (Random.choice roof_shapes) ;;
      add_object (new_object sh tx ty 4))).

(** The tile-space bounding box of the vertices of a way:
    [(min_x, min_y, max_x, max_y)]. *)
Definition tile_bbox (tr : CoordinateTransformer) (coords : list (Q * Q))
  : Z * Z * Z * Z :=
  let tiles := map (fun c => osm_to_ultima tr (fst c) (snd c)) coords in
  (min_of (map fst tiles), min_of (map snd tiles),
   max_of (map fst tiles), max_of (map snd tiles)).

(** [MapGenerator._process_building].  The center tile the method
    computes first is not used afterwards. *)
Definition _process_building (tags : gmap string string) (coords : list (Q * Q))
  : Gen unit :=
  if (length coords <? 3)%nat then ret tt
  else
    self <~ get_self ;;
    let '(min_x, min_y, max_x, max_y) := tile_bbox (transformer self) coords in
    let width := Z.max 1 (max_x - min_x) in
    let height := Z.max 1 (max_y - min_y) in
    let building_type := dict_get tags "building" "house" in
    building_shell tags min_x min_y max_x max_y ;;;
    (if (4 <=? width) && (4 <=? height) then
       _generate_interior building_type (min_x + 1) (min_y + 1) (max_x - 1) (max_y - 1) ;;;
       modify (fun s =>
         set_stats {| buildings_processed := buildings_processed (stats s);
                      roads_processed := roads_processed (stats s);
                      npcs_placed := npcs_placed (stats s);
                      interiors_generated := interiors_generated (stats s) + 1 |} s)
     else ret tt) ;;;
    _place_building_npcs building_type (min_x + 1) (min_y + 1) (max_x - 1) (max_y - 1) ;;;
    modify (fun s =>
      set_stats {| buildings_processed := buildings_processed (stats s) + 1;
                   roads_processed := roads_processed (stats s);
                   npcs_placed := npcs_placed (stats s);
                   interiors_generated := interiors_generated (stats s) |} s).

(** [for i in range(len(coords) - 1): body(coords[i], coords[i + 1])] *)
Definition for_segments (coords : list (Q * Q)) (body : Q * Q -> Q * Q -> Gen unit)
  : Gen unit :=
  for_ (seq 0 (length coords - 1)) (fun i =>
    match coords !! i, coords !! S i with
    | Some a, Some b => body a b
    | _, _ => ret tt
    end).

(** The body of the width loops of [_track_road_segment]:
    [if tile_key in self.road_tiles: self.road_tiles[tile_key] = "intersection"
     else: self.road_tiles[tile_key] = highway_type] *)
Definition track_tile (highway_type : string) (tile_key : Z * Z) : Gen unit :=
  modify (fun s =>
    set_road_tiles
      (if decide (is_Some (road_tiles s !! tile_key))
       then <[tile_key := "intersection"]> (road_tiles s)
       else <[tile_key := highway_type]> (road_tiles s)) s).

(** [MapGenerator._track_road_segment] *)
Definition _track_road_segment (start end_ : Q * Q) (highway_type : string) (width : Z)
  : Gen unit :=
  self <~ get_self ;;
  let start_tile := osm_to_ultima (transformer self) (fst start) (snd start) in
  let end_tile := osm_to_ultima (transformer self) (fst end_) (snd end_) in
  let dx := Z.abs (fst end_tile - fst start_tile) in
  let dy := Z.abs (snd end_tile - snd start_tile) in
  let dist := Z.max dx dy in
  if dist =? 0 then
    modify (fun s =>
      set_road_tiles (<[(fst start_tile, snd start_tile) := highway_type]> (road_tiles s)) s)
  else
    for_ (range 0 (dist + 1)) (fun i =>
      let c := line_center start_tile end_tile dist i in
      for_ (width_range width) (fun wx =>
        for_ (width_range width) (fun wy =>
          track_tile highway_type (fst c + wx, snd c + wy)))).

(** [MapGenerator._draw_bridge] *)
Definition _draw_bridge (start end_ : Q * Q) (width : Z) : Gen unit :=
  let bridge_shapes := dict_get OBJECT_SHAPES "bridge" [212; 213; 214; 215] in
  let planking_shapes := dict_get TERRAIN_SHAPES "planking" [17] in
  self <~ get_self ;;
  let start_tile := osm_to_ultima (transformer self) (fst start) (snd start) in
  let end_tile := osm_to_ultima (transformer self) (fst end_) (snd end_) in
  let dx := Z.abs (fst end_tile - fst start_tile) in
  let dy := Z.abs (snd end_tile - snd start_tile) in
  let dist := Z.max dx dy in
  if dist =? 0 then ret tt
  else
    for_ (range 0 (dist + 1)) (fun i =>
      let c := line_center start_tile end_tile dist i in
      paint_square planking_shapes width c ;;;
      if (i =? 0) || (i =? dist) then
        sh <~ draw (Random.choice bridge_shapes) ;;
        add_object (new_object sh (fst c) (snd c) 0)
      else ret tt).

(** [MapGenerator._process_highway] *)
Definition _process_highway (tags : gmap string string) (coords : list (Q * Q))
  : Gen unit :=
  let highway_type := dict_get tags "highway" "residential" in
  let terrain_type := dict_get OSM_HIGHWAY_TO_TERRAIN highway_type "cobblestone" in
  let terrain_shapes :=
    dict_get TERRAIN_SHAPES terrain_type (TERRAIN_SHAPES !!! "cobblestone") in
  let width := dict_get HIGHWAY_WIDTHS highway_type 2 in
  let is_bridge := bool_decide (tags !! "bridge" = Some "yes")
                   || bool_decide (tags !! "man_made" = Some "bridge") in
  for_segments coords (fun a b =>
    (if is_bridge then _draw_bridge a b width
     else _draw_line_terrain a b terrain_shapes width) ;;;
    _track_road_segment a b highway_type width) ;;;
  modify (fun s =>
    set_stats {| buildings_processed := buildings_processed (stats s);
                 roads_processed := roads_processed (stats s) + 1;
                 npcs_placed := npcs_placed (stats s);
                 interiors_generated := interiors_generated (stats s) |} s).

(** [MapGenerator._process_node], on the position and the tags of the
    node. *)
Definition _process_node (lon lat : Q) (tags : gmap string string) : Gen unit :=
  self <~ get_self ;;
  let tile := osm_to_ultima (transformer self) lon lat in
  let shapes := get_object_shapes tags in
  match dict_get shapes "main" [] with
  | [] => ret tt
  | main_shapes =>
      sh <~ draw (Random.choice main_shapes) ;;
      add_object (new_object sh (fst tile) (snd tile) 0)
  end.

(** One edge test of [_point_in_polygon]:
    [((yi > y) != (yj > y)) and (x < (xj - xi) * (y - yi) / (yj - yi) + xi)].
    The division is the true division of two integers and is evaluated
    only when the first test holds, that is when [yj <> yi]. *)
Definition edge_crossed (px py : Z) (pi pj : Z * Z) : bool :=
  let '(xi, yi) := pi in
  let '(xj, yj) := pj in
  if xorb (py <? yi) (py <? yj) then
    negb (Qle_bool (inject_Z ((xj - xi) * (py - yi)) / inject_Z (yj - yi) + inject_Z xi)
                   (inject_Z px))
  else false.

(** The loop of [_point_in_polygon] from vertex [i] on, with the vertex
    [polygon[j]] of the previous iteration. *)
Fixpoint crossings (px py : Z) (pj : Z * Z) (rest : list (Z * Z)) (inside : bool) : bool :=
  match rest with
  | [] => inside
  | pi :: rest' =>
      crossings px py pi rest'
                (if edge_crossed px py pi pj then negb inside else inside)
  end.

(** [MapGenerator._point_in_polygon]: [j] starts at [n - 1]. *)
Definition _point_in_polygon (px py : Z) (polygon : list (Z * Z)) : bool :=
  match polygon with
  | [] => false
  | p :: _ => crossings px py (List.last polygon p) polygon false
  end.

(** [MapGenerator._fill_polygon_terrain] *)
Definition _fill_polygon_terrain (coords : list (Q * Q)) (shapes : list Z) : Gen unit :=
  self <~ get_self ;;
  let tile_coords := map (fun c => osm_to_ultima (transformer self) (fst c) (snd c)) coords in
  match tile_coords with
  | [] => ret tt
  | _ :: _ =>
      let min_x := min_of (map fst tile_coords) in
      let max_x := max_of (map fst tile_coords) in
      let min_y := min_of (map snd tile_coords) in
      let max_y := max_of (map snd tile_coords) in
      for_ (range min_y (max_y + 1)) (fun ty =>
        for_ (range min_x (max_x + 1)) (fun tx =>
          if _point_in_polygon tx ty tile_coords then paint shapes tx ty else ret tt))
  end.

(** [l[::3]], from position [k] of the period. *)
Fixpoint every_third_from {A} (k : nat) (l : list A) : list A :=
  match l with
  | [] => []
  | a :: l' =>
      match k with
      | O => a :: every_third_from 2 l'
      | S k' => every_third_from k' l'
      end
  end.

(** [MapGenerator._process_area] *)
Definition _process_area (tags : gmap string string) (coords : list (Q * Q))
           (is_polygon : bool) : Gen unit :=
  let terrain_shapes := get_terrain_shape tags in
  (if is_polygon && (3 <=? length coords)%nat then
     _fill_polygon_terrain coords terrain_shapes
   else
     for_segments coords (fun a b => _draw_line_terrain a b terrain_shapes 1)) ;;;
  let shapes := get_object_shapes tags in
  match shapes !! "main" with
  | Some main_shapes =>
      for_ (every_third_from 0 coords) (fun coord =>
        self <~ get_self ;;
        let tile := osm_to_ultima (transformer self) (fst coord) (snd coord) in
        sh <~ draw (Random.choice main_shapes) ;;
        add_object (new_object sh (fst tile) (snd tile) 0))
  | None => ret tt
  end.

(** [MapGenerator._process_barrier] *)
Definition _process_barrier (tags : gmap string string) (coords : list (Q * Q))
  : Gen unit :=
  let shapes := get_object_shapes tags in
  match shapes !! "main" with
  | Some barrier_shapes =>
      for_segments coords (fun a b =>
        self <~ get_self ;;
        let start_tile := osm_to_ultima (transformer self) (fst a) (snd a) in
        let end_tile := osm_to_ultima (transformer self) (fst b) (snd b) in
        let dist := Z.max (Z.abs (fst end_tile - fst start_tile))
                          (Z.abs (snd end_tile - snd start_tile)) in
        if dist =? 0 then ret tt
        else
          for_ (range 0 (dist + 1)) (fun j =>
            let c := line_center start_tile end_tile dist j in
            sh <~ draw (Random.choice barrier_shapes) ;;
            add_object (new_object sh (fst c) (snd c) 0)))
  | None => ret tt
  end.

(** [chunk = self.ultima_map.get_chunk(cx, cy)] *)
Definition map_get_chunk (cx cy : Z) : Gen loc :=
  fun w =>
    let '(m1, chunk) := Grid.get_chunk (ultima_map (snd w)) cx cy in
    Ok (chunk, (fst w, set_ultima_map m1 (snd w))).

(** [chunk.terrain[ly][lx]] *)
Definition chunk_terrain_get (chunk : loc) (ly lx : Z) : Gen Z :=
  fun w =>
    match Grid.read_terrain (ultima_map (snd w)) chunk ly lx with
    | Some v => Ok (v, w)
    | None => Raise IndexError
    end.

(** [chunk.terrain[ly][lx] = v] *)
Definition chunk_terrain_set (chunk : loc) (ly lx v : Z) : Gen unit :=
  fun w =>
    let m := ultima_map (snd w) in
    let c := Grid.deref m chunk in
    match Grid.terrain_assign (terrain c) ly lx v with
    | Ok t =>
        Ok (tt, (fst w,
                 set_ultima_map
                   (Grid.store m chunk {| terrain := t; objects := objects c |}) (snd w)))
    | Raise e => Raise e
    end.

(** The two inner loops of [_fill_default_terrain] on one chunk. *)
Definition fill_chunk (grass_shapes : list Z) (chunk : loc) : Gen unit :=
  for_ (range 0 16) (fun ly =>
    for_ (range 0 16) (fun lx =>
      v <~ chunk_terrain_get chunk ly lx ;;
      if v =? 4 then
        sh <~ draw (Random.choice grass_shapes) ;;
        chunk_terrain_set chunk ly lx sh
      else ret tt)).

(** [MapGenerator._fill_default_terrain] *)
Definition _fill_default_terrain : Gen unit :=
  let grass_shapes := TERRAIN_SHAPES !!! "grass" in
  self <~ get_self ;;
  for_ (range 0 (snd (map_size self))) (fun cy =>
    for_ (range 0 (fst (map_size self))) (fun cx =>
      chunk <~ map_get_chunk cx cy ;;
      fill_chunk grass_shapes chunk)).

(** [MapGenerator._process_way], on the node identifiers and the tags of
    the way. *)
Definition _process_way (way_nodes : list Z) (tags : gmap string string) : Gen unit :=
  match way_nodes with
  | [] => ret tt
  | first :: _ =>
      self <~ get_self ;;
      let coords := omap (fun node_id => nodes self !! node_id) way_nodes in
      match coords with
      | [] => ret tt
      | _ :: _ =>
          let is_polygon := (2 <? length way_nodes)%nat
                            && (first =? List.last way_nodes first) in
          if bool_decide (is_Some (tags !! "highway")) then
            _process_highway tags coords
          else if bool_decide (is_Some (tags !! "building")) then
            _process_building tags coords
          else if bool_decide (is_Some (tags !! "landuse"))
                  || bool_decide (is_Some (tags !! "natural")) then
            _process_area tags coords is_polygon
          else if bool_decide (is_Some (tags !! "waterway")) then
            _process_waterway tags coords
          else if bool_decide (is_Some (tags !! "barrier")) then
            _process_barrier tags coords
          else ret tt
      end
  end.

(** The first pass of [process_osm_data]:
    [self.nodes[element["id"]] = (element["lon"], element["lat"])]. *)
Definition cache_nodes (elements : list Element) (s : MapGenerator) : MapGenerator :=
  fold_left (fun s element =>
               match element with
               | ENode id lon lat _ => set_nodes (<[id := (lon, lat)]> (nodes s)) s
               | _ => s
               end) elements s.

(** [MapGenerator.process_osm_data], without its two [print] calls. *)
Definition process_osm_data (elements : list Element) : Gen unit :=
  modify (cache_nodes elements) ;;;
  for_ elements (fun element =>
    match element with
    | EWay way_nodes tags => _process_way way_nodes tags
    | ENode _ lon lat (Some tags) => _process_node lon lat tags
    | _ => ret tt
    end) ;;;
  _fill_default_terrain.

End Session.

(** The tiles [paint_square] paints around a center, in painting order:
    the offsets of both width loops, kept when the tile is in the world. *)
Definition square_tiles (size : Z * Z) (width : Z) (center : Z * Z) : list (Z * Z) :=
  wx ← width_range width;
  wy ← width_range width;
  if in_world size (fst center + wx) (snd center + wy)
  then [(fst center + wx, snd center + wy)] else [].


(** The tiles [_fill_polygon_terrain] paints for the transformed
    vertices [tile_coords], in painting order: the tiles of the bounding
    box, row by row, that pass [_point_in_polygon]. *)
Definition polygon_tiles (tile_coords : list (Z * Z)) : list (Z * Z) :=
  match tile_coords with
  | [] => []
  | _ :: _ =>
      ty ← range (min_of (map snd tile_coords)) (max_of (map snd tile_coords) + 1);
      tx ← range (min_of (map fst tile_coords)) (max_of (map fst tile_coords) + 1);
      if _point_in_polygon tx ty tile_coords then [(tx, ty)] else []
  end.

(** The tiles [_track_road_segment] registers between two distinct
    tiles, in order: the square of every step, not clipped to the world. *)
Definition road_squares (start_tile end_tile : Z * Z) (width : Z) : list (Z * Z) :=
  let dx := Z.abs (fst end_tile - fst start_tile) in
  let dy := Z.abs (snd end_tile - snd start_tile) in
  let dist := Z.max dx dy in
  i ← range 0 (dist + 1);
  wx ← width_range width;
  map (fun wy => (fst (line_center start_tile end_tile dist i) + wx,
                  snd (line_center start_tile end_tile dist i) + wy))
      (width_range width).

(** The registry after one tile is registered for a highway type. *)
Definition register (highway_type : string) (rt : gmap (Z * Z) string) (tile_key : Z * Z)
  : gmap (Z * Z) string :=
  if decide (is_Some (rt !! tile_key))
  then <[tile_key := "intersection"]> rt
  else <[tile_key := highway_type]> rt.

(** The number of times a tile occurs in a list. *)
Definition occurrences (k : Z * Z) (l : list (Z * Z)) : nat :=
  length (filter (fun k' => k' = k) l).


(** The square the specification describes: offsets from [-(width div 2)]
    to [+(width div 2)] on both axes. *)
Definition symmetric_offsets (width : Z) : list Z :=
  range (- (width / 2)) (width / 2 + 1).

(** ** Seeding in [main] *)

(** [int(args.seed)], or on [ValueError] the MD5 digest of the string
    read as a hexadecimal number, modulo [2**32].  Both conversions are
    library functions, taken as parameters. *)
Definition seed_value (py_int : string -> option Z) (md5_int : string -> Z)
           (arg : string) : Z :=
  match py_int arg with
  | Some n => n
  | None => md5_int arg mod 2 ^ 32
  end.

(** [if args.seed is not None: random.seed(seed_value)], on the state of
    the module-level generator. *)
Definition main_seed {G : Type} {RG : Random.Generator G}
           (py_int : string -> option Z) (md5_int : string -> Z)
           (arg_seed : option string) (g : G) : G :=
  match arg_seed with
  | Some arg => Random.seed (seed_value py_int md5_int arg)
  | None => g
  end.

(** A run of [main]: the seeding, then a generation pass [pass] on the
    session object [s], in a process whose module-level generator is in
    the state [g] when [main] starts. *)
Definition seeded_run {G : Type} {RG : Random.Generator G} {A}
           (py_int : string -> option Z) (md5_int : string -> Z)
           (arg_seed : option string) (pass : @Gen G A)
           (g : G) (s : MapGenerator) : result (A * (G * MapGenerator)) :=
  pass (main_seed py_int md5_int arg_seed g, s).

(** What a method returns and the session object it leaves, without the
    state of the module-level generator. *)
Definition session_outcome {G A} (r : result (A * (G * MapGenerator)))
  : result (A * MapGenerator) :=
  match r with
  | Ok (a, (_, s')) => Ok (a, s')
  | Raise e => Raise e
  end.


(** ** Summaries of what a method does to the map *)

(** The method returns, and its whole effect on [self] is a run of
    [add_object] calls with objects described by [P]. *)
Definition emits {G : Type} (c : @Gen G unit) (P : list UltimaObject -> Prop) : Prop :=
  forall w, exists objs g',
    c w = Ok (tt, (g', set_ultima_map (Grid.add_objects objs (ultima_map (snd w))) (snd w)))
    /\ P objs.

(** On a well-formed map the method returns, and its whole effect on
    [self] is on the terrain: the map stays well formed and every tile
    keeps its objects. *)
Definition paints {G : Type} (c : @Gen G unit) : Prop :=
  forall w, Grid.wf (ultima_map (snd w)) ->
    exists g' m',
      c w = Ok (tt, (g', set_ultima_map m' (snd w)))
      /\ Grid.wf m'
      /\ (forall ox oy, Grid.objects_at m' ox oy = Grid.objects_at (ultima_map (snd w)) ox oy).

(** Whenever the method returns, the map is still well formed and every
    tile has the objects it had, followed by the new ones. *)
Definition grows {G : Type} {A} (c : @Gen G A) : Prop :=
  forall w a w', Grid.wf (ultima_map (snd w)) -> c w = Ok (a, w') ->
    Grid.wf (ultima_map (snd w'))
    /\ forall ox oy, Grid.objects_at (ultima_map (snd w)) ox oy
                     `prefix_of` Grid.objects_at (ultima_map (snd w')) ox oy.

(** The map [m'] is the map [m] after painting the tiles of [tiles] from
    the candidates [shapes] and placing the objects [objs]: each painted
    tile reads a candidate, every other tile reads what it read, and
    every tile has the objects it had, followed by the objects of [objs]
    placed on it, in order. *)
Definition altered (shapes : list Z) (tiles : list (Z * Z)) (objs : list UltimaObject)
           (m m' : UltimaMap) : Prop :=
  Grid.wf m'
  /\ (forall tx ty, (tx, ty) ∈ tiles ->
        exists sh, sh ∈ shapes /\ Grid.tile_terrain m' tx ty = Some sh)
  /\ (forall tx ty, (tx, ty) ∉ tiles ->
        Grid.tile_terrain m' tx ty = Grid.tile_terrain m tx ty)
  /\ (forall ox oy, Grid.objects_at m' ox oy =
        Grid.objects_at m ox oy ++ filter (fun o => x o = ox /\ y o = oy) objs).

(** Two states of a session over one world: the transformer and the map
    size are the same. *)
Definition same_world (s s' : MapGenerator) : Prop :=
  transformer s' = transformer s /\ map_size s' = map_size s.

(** In every state of a session over the world of [s] whose map is well
    formed, the method returns and its whole effect on [self] is on the
    map: it paints the tiles of [tiles] from [shapes] and places objects
    described by [P]. *)
Definition alters {G : Type} (c : @Gen G unit) (s : MapGenerator)
           (shapes : list Z) (tiles : list (Z * Z))
           (P : list UltimaObject -> Prop) : Prop :=
  forall g s0, same_world s s0 -> Grid.wf (ultima_map s0) ->
    exists g' m' objs,
      c (g, s0) = Ok (tt, (g', set_ultima_map m' s0))
      /\ altered shapes tiles objs (ultima_map s0) m' /\ P objs.



(** A relationship strength of a building-mate. *)
Definition in_strength (v : Q) : Prop := (3 # 10 <= v)%Q /\ (v <= 7 # 10)%Q.

(** What the relationship pass over the identifiers [npc_ids] does to one
    profile: it only rewrites the relationship map; a profile of the
    list receives an entry for every other identifier of the list and
    keeps its other entries; a profile outside the list is untouched. *)
Definition related (npc_ids : list string) (p p' : NPCProfile) : Prop :=
  p' = set_relationships (relationships p') p
  /\ if decide (npc_id p ∈ npc_ids) then
       (forall k, k ∈ npc_ids -> k <> npc_id p ->
          exists v, relationships p' !! k = Some v /\ in_strength v)
       /\ (forall k, ~ (k ∈ npc_ids /\ k <> npc_id p) ->
             relationships p' !! k = relationships p !! k)
     else p' = p.

(** The profiles created since the counter was [counter]: numbered from
    [counter + 1] on, each with an empty relationship map. *)
Definition fresh_profiles (counter : Z) (new : list NPCProfile) : Prop :=
  forall i p, new !! i = Some p ->
    npc_id p = Format.npc_id_of (counter + 1 + Z.of_nat i) /\ relationships p = ∅.

(** The state [s'] is [s] with the profiles [new] appended and the
    counter advanced past them. *)
Definition adds_profiles (s : MapGenerator) (new : list NPCProfile)
           (s' : MapGenerator) : Prop :=
  npc_profiles s' = npc_profiles s ++ new
  /\ npc_counter s' = npc_counter s + Z.of_nat (length new)
  /\ fresh_profiles (npc_counter s) new.

(** Every profile of the session carries the identifier of a counter
    value already used. *)
Definition profiles_numbered (s : MapGenerator) : Prop :=
  0 <= npc_counter s
  /\ Forall (fun p => exists n, 0 < n <= npc_counter s /\ npc_id p = Format.npc_id_of n)
            (npc_profiles s).

(** The relationships of the occupants a building has received: the
    profile list is the list [old] it was, followed by the occupants;
    the occupants have distinct identifiers; each occupant has an entry
    in [0.3, 0.7] for every other occupant; and every entry of an
    occupant is for another occupant of the building. *)
Definition building_related (old occupants : list NPCProfile)
           (s' : MapGenerator) : Prop :=
  npc_profiles s' = old ++ occupants
  /\ NoDup (map npc_id occupants)
  /\ (forall A B, A ∈ occupants -> B ∈ occupants -> npc_id A <> npc_id B ->
        exists v, relationships A !! npc_id B = Some v /\ in_strength v)
  /\ (forall A k, A ∈ occupants -> is_Some (relationships A !! k) ->
        k <> npc_id A /\ exists B, B ∈ occupants /\ npc_id B = k).

(** The map object [_place_building_npcs] places for an occupant. *)
Definition npc_object (py_hash : string -> Z) (p : NPCProfile) : UltimaObject :=
  {| shape := npc_shape p; frame := 0;
     x := fst (location p); y := snd (location p); lift := 0;
     quality := py_hash (profession p) mod 256; flags := 0 |}.

(** A personality value of the interval [0, 1]. *)
Definition in_unit (q : Q) : Prop := (0 <= q)%Q /\ (q <= 1)%Q.

Definition traits_in_unit (p : NPCProfile) : Prop :=
  in_unit (openness p) /\ in_unit (conscientiousness p) /\ in_unit (extraversion p)
  /\ in_unit (agreeableness p) /\ in_unit (neuroticism p).

(** What placing the occupants [new] in a box does to the session: the
    profiles are appended; the counter and the statistic [npcs_placed]
    advance by their number; the map receives one object per occupant,
    in order; the occupants stand on pairwise distinct tiles of the box,
    none of them in [placed]; and their personality values lie in
    [0, 1]. *)
Definition occupants_placed (py_hash : string -> Z) (min_x min_y max_x max_y : Z)
           (placed : gset (Z * Z)) (s : MapGenerator) (new : list NPCProfile)
           (s' : MapGenerator) : Prop :=
  npc_profiles s' = npc_profiles s ++ new
  /\ npc_counter s' = npc_counter s + Z.of_nat (length new)
  /\ npcs_placed (stats s') = npcs_placed (stats s) + Z.of_nat (length new)
  /\ ultima_map s' = Grid.add_objects (map (npc_object py_hash) new) (ultima_map s)
  /\ NoDup (map location new)
  /\ Forall (fun p => (location p ∉ placed)
                      /\ min_x <= fst (location p) <= max_x
                      /\ min_y <= snd (location p) <= max_y
                      /\ traits_in_unit p) new.

(** The tile [(tx, ty)] lies in the room, bounds included. *)
Definition in_room (r : Room) (tx ty : Z) : Prop :=
  room_min_x r <= tx <= room_max_x r /\ room_min_y r <= ty <= room_max_y r.

(** The rooms tile the box: every room has a tile, every tile of the box
    lies in a room, every tile of a room lies in the box, and no tile
    lies in two rooms of the list. *)
Definition rooms_tile_box (rooms : list Room) (min_x min_y max_x max_y : Z) : Prop :=
  Forall (fun r => room_min_x r <= room_max_x r /\ room_min_y r <= room_max_y r) rooms
  /\ (forall tx ty,
        (min_x <= tx <= max_x /\ min_y <= ty <= max_y)
        <-> exists r, r ∈ rooms /\ in_room r tx ty)
  /\ (forall i j r1 r2 tx ty,
        rooms !! i = Some r1 -> rooms !! j = Some r2 ->
        in_room r1 tx ty -> in_room r2 tx ty -> i = j).

(** The map [m] is the map [m0] after a default fill of the world of
    size [size] from the candidates [grass]: a tile of the world that
    read the default 4 reads a candidate; every other tile reads what it
    read; every tile has the objects it had; and no chunk is lost. *)
Definition default_filled (size : Z * Z) (grass : list Z) (m0 m : UltimaMap) : Prop :=
  Grid.wf m
  /\ (forall tx ty, Grid.tile_terrain m0 tx ty = Some 4 -> in_world size tx ty = true ->
        exists sh, sh ∈ grass /\ Grid.tile_terrain m tx ty = Some sh)
  /\ (forall tx ty, Grid.tile_terrain m0 tx ty <> Some 4 \/ in_world size tx ty = false ->
        Grid.tile_terrain m tx ty = Grid.tile_terrain m0 tx ty)
  /\ (forall ox oy, Grid.objects_at m ox oy = Grid.objects_at m0 ox oy)
  /\ (forall k, is_Some (chunks m0 !! k) -> is_Some (chunks m !! k)).

(** Two objects with shapes drawn from one candidate list. *)
Definition drawn_pair (shapes : list Z) (mk1 mk2 : Z -> UltimaObject)
           (os : list UltimaObject) : Prop :=
  exists s1 s2, s1 ∈ shapes /\ s2 ∈ shapes /\ os = [mk1 s1; mk2 s2].

(** One object with a shape drawn from a candidate list. *)
Definition drawn_one (shapes : list Z) (mk : Z -> UltimaObject)
           (os : list UltimaObject) : Prop :=
  exists s, s ∈ shapes /\ os = [mk s].

(** The objects [building_shell] places, in placement order: a top and a
    bottom wall per column, a left and a right wall per inner row, the
    door, and a roof object per tile of the box. *)
Definition shell_objects (walls doors roofs : list Z) (min_x min_y max_x max_y : Z)
           (objs : list UltimaObject) : Prop :=
  exists o_walls o_sides door o_roof,
    objs = concat o_walls ++ concat o_sides ++ door ++ concat o_roof
    /\ Forall2 (fun tx => drawn_pair walls (fun s => new_object s tx min_y 0)
                                          (fun s => new_object s tx max_y 0))
               (range min_x (max_x + 1)) o_walls
    /\ Forall2 (fun ty => drawn_pair walls (fun s => new_object s min_x ty 0)
                                          (fun s => new_object s max_x ty 0))
               (range (min_y + 1) max_y) o_sides
    /\ drawn_one doors (fun s => new_object s ((min_x + max_x) / 2) max_y 0) door
    /\ Forall2 (fun tx os => exists oss, os = concat oss
                   /\ Forall2 (fun ty => drawn_one roofs (fun s => new_object s tx ty 4))
                              (range min_y (max_y + 1)) oss)
               (range min_x (max_x + 1)) o_roof.

End Generator.

(** ** A generator that replays a tape

    A stand-in for the Mersenne Twister in closed examples: each draw
    consumes one number of the tape, and an exhausted tape yields 0. *)

Module Tape.

Definition tape_randbelow (t : list Z) (n : Z) : Z * list Z :=
  match t with
  | [] => (0, [])
  | v :: t' => (v mod n, t')
  end.

Definition tape_random (t : list Z) : Q * list Z :=
  match t with
  | [] => (0%Q, [])
  | v :: t' => (Qmake (v mod 1000) 1000, t')
  end.

(** Seeding rewinds to a tape made from the seed. *)
Definition tape_seed (n : Z) : list Z :=
  map (fun i => n + Z.of_nat i) (seq 0 32).

#[export] Program Instance tape_generator : Random.Generator (list Z) :=
  {| Random.seed := tape_seed;
     Random.randbelow := tape_randbelow; Random.random := tape_random |}.
Next Obligation.
  intros [|v t] n Hn; simpl; [lia|]. apply Z.mod_pos_bound. exact Hn.
Qed.
Next Obligation.
  intros [|v t]; simpl.
  - split; [unfold Qle | unfold Qlt]; simpl; lia.
  - pose proof (Z.mod_pos_bound v 1000 ltac:(lia)).
    unfold Qle, Qlt; simpl. lia.
Qed.

End Tape.

(** ** A small world for closed examples *)

Module Scenario.

(** A 16x16-chunk world over the unit box; the point
    [(tx / 256, 1 - ty / 256)] falls on tile [(tx, ty)]. *)
Definition world0 : MapGenerator := new_generator (0, 0, 1, 1)%Q (16, 16).

Definition at_tile (tx ty : Z) : Q * Q := (tx # 256, (256 - ty) # 256)%Q.

Definition no_furniture_for_room (building_type room : string) : list string := [].
Definition no_furniture_shapes (name : string) : list Z := [].
Definition no_npc_data (npc_type : string) : option NpcData := None.
Definition townsman_data (npc_type : string) : option NpcData :=
  Some {| nd_shapes := [265; 319; 452]; nd_dialogues := []; nd_schedule := None |}.
Definition hash0 (s : string) : Z := 0.

(** A building whose three vertices fall on the tiles (5,5), (6,5) and
    (6,6): a bounding box two tiles wide and two tiles high. *)
Definition small_building : list (Q * Q) := [at_tile 5 5; at_tile 6 5; at_tile 6 6].

(** A tape on which a house receives two occupants: the spawn sample,
    the count, then for each occupant the profession, the position, the
    shape, the name and five trait samples, and last the two
    relationship samples. *)
Definition two_npc_tape : list Z :=
  [100; 1;
   0; 0; 0; 0; 0; 500; 500; 500; 500; 500;
   1; 1; 0; 0; 0; 500; 500; 500; 500; 500;
   250; 750].

End Scenario.

(** * Properties *)

(** ** The tile grid *)

Module GridFacts.

Import Grid.

Lemma new_chunk_rows_ok : rows_ok new_chunk.
Proof.
  split; [reflexivity|].
  unfold new_chunk; simpl. repeat constructor.
Qed.

Lemma new_map_wf w h : wf (new_map w h).
Proof.
  split; simpl; intros *; rewrite lookup_empty; discriminate.
Qed.

Lemma get_chunk_existing m cx cy l :
  chunks m !! (cx, cy) = Some l -> get_chunk m cx cy = (m, l).
Proof. intros H. unfold get_chunk. rewrite H. reflexivity. Qed.

Lemma get_chunk_lookup m cx cy :
  chunks (fst (get_chunk m cx cy)) !! (cx, cy) = Some (snd (get_chunk m cx cy)).
Proof.
  unfold get_chunk. destruct (chunks m !! (cx, cy)) eqn:E; simpl; [exact E|].
  apply lookup_insert_eq.
Qed.

Lemma get_chunk_wf m cx cy : wf m -> wf (fst (get_chunk m cx cy)).
Proof.
  intros Hwf. unfold get_chunk.
  destruct (chunks m !! (cx, cy)) eqn:E; simpl; [exact Hwf|].
  destruct Hwf as [Ha Hh Hi Hr].
  split; simpl.
  - intros k l. rewrite lookup_insert. case_decide.
    + intros [= <-]. lia.
    + intros Hk. specialize (Ha _ _ Hk). lia.
  - intros k l. rewrite lookup_insert. case_decide.
    + intros [= <-]. rewrite lookup_insert_eq. eauto.
    + intros Hk. pose proof (Ha _ _ Hk). rewrite lookup_insert_ne by lia. eauto.
  - intros k1 k2 l. rewrite !lookup_insert. repeat case_decide; subst.
    + congruence.
    + intros [= <-] Hk. specialize (Ha _ _ Hk). lia.
    + intros Hk [= <-]. specialize (Ha _ _ Hk). lia.
    + eauto.
  - intros k l c. rewrite lookup_insert. case_decide.
    + intros [= <-]. rewrite lookup_insert_eq. intros [= <-].
      apply new_chunk_rows_ok.
    + intros Hk. pose proof (Ha _ _ Hk). rewrite lookup_insert_ne by lia.
      eauto.
Qed.

Lemma get_chunk_view m cx cy k :
  wf m ->
  chunk_view (fst (get_chunk m cx cy)) k =
  if decide (k = (cx, cy)) then Some (default new_chunk (chunk_view m k))
  else chunk_view m k.
Proof.
  intros [Ha Hh Hi Hr]. unfold get_chunk, chunk_view.
  destruct (chunks m !! (cx, cy)) as [l|] eqn:E; simpl.
  - case_decide; [subst k|reflexivity]. rewrite E.
    destruct (Hh _ _ E) as [c Hc]. rewrite Hc. reflexivity.
  - rewrite lookup_insert. case_decide.
    + subst k. rewrite decide_True by reflexivity. rewrite E. simpl.
      rewrite lookup_insert_eq. reflexivity.
    + rewrite decide_False by congruence.
      destruct (chunks m !! k) as [l|] eqn:Ek; [|reflexivity].
      pose proof (Ha _ _ Ek). rewrite lookup_insert_ne by lia. reflexivity.
Qed.

Lemma deref_get_chunk m cx cy :
  wf m ->
  deref (fst (get_chunk m cx cy)) (snd (get_chunk m cx cy)) =
  default new_chunk (chunk_view m (cx, cy)).
Proof.
  intros Hwf. pose proof (get_chunk_view m cx cy (cx, cy) Hwf) as Hv.
  rewrite decide_True in Hv by reflexivity.
  unfold chunk_view in Hv at 1. rewrite get_chunk_lookup in Hv.
  unfold deref. rewrite Hv. reflexivity.
Qed.

Lemma store_wf m k l c :
  wf m -> chunks m !! k = Some l -> rows_ok c -> wf (store m l c).
Proof.
  intros [Ha Hh Hi Hr] Hk Hc. split; simpl; eauto.
  - intros k' l' Hk'. rewrite lookup_insert. case_decide; eauto.
  - intros k' l' c' Hk'. rewrite lookup_insert. case_decide.
    + intros [= <-]. exact Hc.
    + eauto.
Qed.

Lemma store_view m k l c k' :
  wf m -> chunks m !! k = Some l ->
  chunk_view (store m l c) k' =
  if decide (k' = k) then Some c else chunk_view m k'.
Proof.
  intros [Ha Hh Hi Hr] Hk. unfold chunk_view, store; simpl.
  case_decide.
  - subst k'. rewrite Hk. apply lookup_insert_eq.
  - destruct (chunks m !! k') as [l'|] eqn:Ek'; [|reflexivity].
    rewrite lookup_insert_ne; [reflexivity|].
    intros ->. apply H. eauto.
Qed.

Lemma view_rows_ok m k c : wf m -> chunk_view m k = Some c -> rows_ok c.
Proof.
  intros [Ha Hh Hi Hr]. unfold chunk_view.
  destruct (chunks m !! k) eqn:E; [|discriminate].
  intros Hc. exact (Hr _ _ _ E Hc).
Qed.

Lemma default_view_rows_ok m k :
  wf m -> rows_ok (default new_chunk (chunk_view m k)).
Proof.
  intros Hwf. destruct (chunk_view m k) eqn:E; simpl.
  - eapply view_rows_ok; eauto.
  - apply new_chunk_rows_ok.
Qed.

Lemma terrain_assign_ok t ly lx v :
  length t = 16%nat -> Forall (fun row => length row = 16%nat) t ->
  0 <= ly < 16 -> 0 <= lx < 16 ->
  exists t', terrain_assign t ly lx v = Ok t'
    /\ length t' = 16%nat /\ Forall (fun row => length row = 16%nat) t'
    /\ (exists row, t' !! Z.to_nat ly = Some row /\ row !! Z.to_nat lx = Some v).
Proof.
  intros Hlen Hrows Hly Hlx. unfold terrain_assign.
  destruct (lookup_lt_is_Some_2 t (Z.to_nat ly)) as [row Hrow]; [lia|].
  rewrite Hrow.
  assert (Hr : length row = 16%nat).
  { rewrite Forall_forall in Hrows. apply Hrows.
    eapply list_elem_of_lookup_2; eauto. }
  rewrite decide_True by lia.
  eexists; split; [reflexivity|]. split; [|split].
  - rewrite length_insert. exact Hlen.
  - apply Forall_insert; [exact Hrows|]. rewrite length_insert. exact Hr.
  - exists (<[Z.to_nat lx := v]> row). split.
    + apply list_lookup_insert_eq. lia.
    + apply list_lookup_insert_eq. lia.
Qed.

(** [set_terrain] never raises on a well-formed map; it rewrites one cell
    of the owning chunk and leaves every other chunk, and the objects of
    the owning chunk, as they were. *)
Lemma set_terrain_spec m tx ty v :
  wf m ->
  exists m' t',
    set_terrain m tx ty v = Ok m' /\ wf m'
    /\ (forall k, chunk_view m' k =
          if decide (k = (tx / 16, ty / 16))
          then Some {| terrain := t';
                       objects := objects (default new_chunk (chunk_view m k)) |}
          else chunk_view m k)
    /\ (exists row, t' !! Z.to_nat (ty mod 16) = Some row
                    /\ row !! Z.to_nat (tx mod 16) = Some v).
Proof.
  intros Hwf. unfold set_terrain.
  pose proof (get_chunk_wf m (tx / 16) (ty / 16) Hwf) as Hwf1.
  pose proof (get_chunk_lookup m (tx / 16) (ty / 16)) as Hk.
  pose proof (deref_get_chunk m (tx / 16) (ty / 16) Hwf) as Hd.
  pose proof (get_chunk_view m (tx / 16) (ty / 16)) as Hv.
  destruct (get_chunk m (tx / 16) (ty / 16)) as [m1 l]. simpl in *.
  rewrite Hd.
  destruct (default_view_rows_ok m (tx / 16, ty / 16) Hwf) as [Hlen Hrows].
  destruct (terrain_assign_ok _ (ty mod 16) (tx mod 16) v Hlen Hrows)
    as (t' & Ht & Hlen' & Hrows' & Hread).
  { apply Z.mod_pos_bound; lia. }
  { apply Z.mod_pos_bound; lia. }
  rewrite Ht. simpl. eexists _, t'. split; [reflexivity|]. split; [|split].
  - eapply store_wf; eauto. split; assumption.
  - intros k. rewrite (store_view m1 _ l _ k Hwf1 Hk).
    case_decide; [subst k; reflexivity|].
    rewrite (Hv k Hwf). rewrite decide_False by assumption. reflexivity.
  - exact Hread.
Qed.

(** [add_object] appends the object to the chunk that owns its tile and
    leaves every other chunk as it was. *)
Lemma add_object_spec m o :
  wf m ->
  wf (add_object m o)
  /\ forall k, chunk_view (add_object m o) k =
       if decide (k = (x o / 16, y o / 16))
       then Some {| terrain := terrain (default new_chunk (chunk_view m k));
                    objects := objects (default new_chunk (chunk_view m k)) ++ [o] |}
       else chunk_view m k.
Proof.
  intros Hwf. unfold add_object.
  pose proof (get_chunk_wf m (x o / 16) (y o / 16) Hwf) as Hwf1.
  pose proof (get_chunk_lookup m (x o / 16) (y o / 16)) as Hk.
  pose proof (deref_get_chunk m (x o / 16) (y o / 16) Hwf) as Hd.
  pose proof (get_chunk_view m (x o / 16) (y o / 16)) as Hv.
  destruct (get_chunk m (x o / 16) (y o / 16)) as [m1 l]. simpl in *.
  rewrite Hd. split.
  - eapply store_wf; eauto. apply (default_view_rows_ok m _ Hwf).
  - intros k. rewrite (store_view m1 _ l _ k Hwf1 Hk).
    case_decide; [subst k; reflexivity|].
    rewrite (Hv k Hwf). rewrite decide_False by assumption. reflexivity.
Qed.

Lemma chunk_objects_view m cx cy :
  chunk_objects m cx cy = objects (default new_chunk (chunk_view m (cx, cy))).
Proof.
  unfold chunk_objects, chunk_view, deref.
  destruct (chunks m !! (cx, cy)); reflexivity.
Qed.

Lemma chunk_terrain_view m cx cy :
  chunk_terrain m cx cy = terrain (default new_chunk (chunk_view m (cx, cy))).
Proof.
  unfold chunk_terrain, chunk_view, deref.
  destruct (chunks m !! (cx, cy)); reflexivity.
Qed.

Lemma add_object_chunk_objects m o cx cy :
  wf m ->
  chunk_objects (add_object m o) cx cy =
  chunk_objects m cx cy ++ (if decide ((cx, cy) = (x o / 16, y o / 16)) then [o] else []).
Proof.
  intros Hwf. destruct (add_object_spec m o Hwf) as [_ Hv].
  rewrite !chunk_objects_view, Hv.
  case_decide; simpl; [reflexivity|]. rewrite app_nil_r. reflexivity.
Qed.

Lemma add_object_chunk_terrain m o cx cy :
  wf m -> chunk_terrain (add_object m o) cx cy = chunk_terrain m cx cy.
Proof.
  intros Hwf. destruct (add_object_spec m o Hwf) as [_ Hv].
  rewrite !chunk_terrain_view, Hv. case_decide; reflexivity.
Qed.

Lemma add_object_objects_at m o tx ty :
  wf m ->
  objects_at (add_object m o) tx ty =
  objects_at m tx ty ++ (if decide (x o = tx /\ y o = ty) then [o] else []).
Proof.
  intros Hwf. unfold objects_at. rewrite add_object_chunk_objects by assumption.
  rewrite filter_app. f_equal.
  destruct (decide (x o = tx /\ y o = ty)) as [Ht|Ht].
  - destruct Ht as [<- <-]. rewrite decide_True by reflexivity.
    rewrite filter_cons, decide_True by (split; reflexivity). reflexivity.
  - destruct (decide ((tx / 16, ty / 16) = (x o / 16, y o / 16))); [|reflexivity].
    rewrite filter_cons, decide_False by exact Ht. reflexivity.
Qed.

Lemma add_objects_wf objs m : wf m -> wf (add_objects objs m).
Proof.
  revert m. induction objs as [|o objs IH]; intros m Hwf; simpl; [exact Hwf|].
  apply IH. apply add_object_spec. exact Hwf.
Qed.

Lemma add_objects_app o1 o2 m :
  add_objects (o1 ++ o2) m = add_objects o2 (add_objects o1 m).
Proof. unfold add_objects. apply fold_left_app. Qed.

(** The objects of a tile after a run of [add_object] calls: the
    objects it had, then the added objects placed on the tile, in order. *)
Lemma add_objects_objects_at objs m tx ty :
  wf m ->
  objects_at (add_objects objs m) tx ty =
  objects_at m tx ty ++ filter (fun o => x o = tx /\ y o = ty) objs.
Proof.
  revert m. induction objs as [|o objs IH]; intros m Hwf; simpl.
  - rewrite app_nil_r. reflexivity.
  - fold (add_objects objs (add_object m o)).
    rewrite IH by (apply add_object_spec; exact Hwf).
    rewrite add_object_objects_at by exact Hwf.
    rewrite <- app_assoc. f_equal. rewrite filter_cons.
    case_decide; reflexivity.
Qed.

Lemma add_objects_chunk_terrain objs m cx cy :
  wf m -> chunk_terrain (add_objects objs m) cx cy = chunk_terrain m cx cy.
Proof.
  revert m. induction objs as [|o objs IH]; intros m Hwf; simpl; [reflexivity|].
  fold (add_objects objs (add_object m o)).
  rewrite IH by (apply add_object_spec; exact Hwf).
  apply add_object_chunk_terrain. exact Hwf.
Qed.

Lemma set_terrain_objects_at m tx ty v :
  wf m ->
  exists m', set_terrain m tx ty v = Ok m' /\ wf m'
    /\ (forall ox oy, objects_at m' ox oy = objects_at m ox oy)
    /\ terrain_at m' tx ty = Some v.
Proof.
  intros Hwf.
  destruct (set_terrain_spec m tx ty v Hwf) as (m' & t' & Hs & Hwf' & Hv & row & Hr1 & Hr2).
  exists m'. split; [exact Hs|]. split; [exact Hwf'|]. split.
  - intros ox oy. unfold objects_at. rewrite !chunk_objects_view, Hv.
    case_decide as Hc; [|reflexivity]. rewrite Hc. reflexivity.
  - unfold terrain_at.
    pose proof (Hv (tx / 16, ty / 16)) as Hk. rewrite decide_True in Hk by reflexivity.
    unfold chunk_view in Hk.
    destruct (chunks m' !! (tx / 16, ty / 16)) as [l|] eqn:El; [|discriminate].
    simpl. unfold read_terrain, deref. rewrite Hk. simpl.
    rewrite Hr1. simpl. exact Hr2.
Qed.

(** C9.  On a well-formed map, [set_terrain(x, y, v)] returns, and reading
    the chunk [get_chunk(x div 16, y div 16)] at row [y mod 16], column
    [x mod 16] then gives [v]; a second [get_chunk] with the same
    coordinates returns the same chunk object and changes nothing; and an
    assignment through the returned reference is what a later [get_chunk]
    with the same coordinates reads. *)
Theorem set_terrain_get_chunk_roundtrip (m : UltimaMap) (tx ty v : Z) :
  wf m ->
  (exists m', set_terrain m tx ty v = Ok m'
     /\ read_terrain (fst (get_chunk m' (tx / 16) (ty / 16)))
                     (snd (get_chunk m' (tx / 16) (ty / 16)))
                     (ty mod 16) (tx mod 16) = Some v)
  /\ (forall cx cy,
        get_chunk (fst (get_chunk m cx cy)) cx cy = get_chunk m cx cy)
  /\ (forall cx cy c,
        let '(m1, chunk1) := get_chunk m cx cy in
        let m2 := store m1 chunk1 c in
        get_chunk m2 cx cy = (m2, chunk1) /\ deref m2 chunk1 = c).
Proof.
  intros Hwf. split; [|split].
  - destruct (set_terrain_spec m tx ty v Hwf) as (m' & t' & Hs & Hwf' & Hv & row & Hr1 & Hr2).
    exists m'. split; [exact Hs|].
    unfold read_terrain. rewrite (deref_get_chunk m' _ _ Hwf').
    rewrite Hv, decide_True by reflexivity. simpl.
    rewrite Hr1. simpl. exact Hr2.
  - intros cx cy. pose proof (get_chunk_lookup m cx cy) as Hk.
    destruct (get_chunk m cx cy) as [m1 l]. simpl in *.
    apply get_chunk_existing. exact Hk.
  - intros cx cy c. pose proof (get_chunk_lookup m cx cy) as Hk.
    destruct (get_chunk m cx cy) as [m1 l]. simpl in *. split.
    + apply get_chunk_existing. exact Hk.
    + unfold deref, store. simpl. rewrite lookup_insert_eq. reflexivity.
Qed.

(** The round trip of C9 on the tile (17, 33) of an empty map. *)
Lemma set_terrain_get_chunk_roundtrip_witness :
  (exists m', set_terrain (new_map 16 16) 17 33 10 = Ok m'
     /\ read_terrain (fst (get_chunk m' (17 / 16) (33 / 16)))
                     (snd (get_chunk m' (17 / 16) (33 / 16)))
                     (33 mod 16) (17 mod 16) = Some 10)
  /\ (forall cx cy,
        get_chunk (fst (get_chunk (new_map 16 16) cx cy)) cx cy
        = get_chunk (new_map 16 16) cx cy)
  /\ (forall cx cy c,
        let '(m1, chunk1) := get_chunk (new_map 16 16) cx cy in
        let m2 := store m1 chunk1 c in
        get_chunk m2 cx cy = (m2, chunk1) /\ deref m2 chunk1 = c).
Proof.
  apply (set_terrain_get_chunk_roundtrip (new_map 16 16) 17 33 10).
  apply new_map_wf.
Defined.

End GridFacts.

(** ** The terrain classifier *)

Module ClassifierFacts.

Lemma closed_of_list (l : list (string * string)) :
  Forall (fun kv => is_Some (TERRAIN_SHAPES !! snd kv)) l ->
  map_Forall (fun _ terrain_type => is_Some (TERRAIN_SHAPES !! terrain_type))
             (list_to_map l : gmap string string).
Proof.
  intros H k t Hk. apply elem_of_list_to_map_2 in Hk.
  rewrite Forall_forall in H. exact (H _ Hk).
Qed.

Lemma tables_closed :
  Forall (fun cat => table_closed (snd cat)) terrain_categories.
Proof.
  repeat constructor; simpl.
  all: try (vm_compute; reflexivity).
  all: apply closed_of_list; repeat constructor; vm_compute; eauto.
Qed.

Lemma table_closed_in key table :
  (key, table) ∈ terrain_categories -> table_closed table.
Proof.
  intros Hin. pose proof tables_closed as H.
  rewrite Forall_forall in H. exact (H _ Hin).
Qed.

(** On a closed table the test [v and v in table] is the plain lookup. *)
Lemma tag_in_category osm_tags key table :
  table_closed table ->
  tag_in osm_tags key table = category_match osm_tags (key, table).
Proof.
  intros [_ Hempty]. unfold tag_in, category_match; simpl.
  destruct (osm_tags !! key) as [v|]; [|reflexivity].
  unfold truthy. destruct (String.eqb_spec v ""); simpl; [|reflexivity].
  subst v. symmetry. exact Hempty.
Qed.

(** On a closed table the default of [TERRAIN_SHAPES.get] is never used. *)
Lemma dict_get_category osm_tags key table terrain_type dflt :
  table_closed table ->
  category_match osm_tags (key, table) = Some terrain_type ->
  Some (dict_get TERRAIN_SHAPES terrain_type dflt) = TERRAIN_SHAPES !! terrain_type.
Proof.
  intros [Hall _]. unfold category_match; simpl.
  destruct (osm_tags !! key) as [v|]; [|discriminate].
  intros Hv. destruct (Hall _ _ Hv) as [shapes Hs].
  unfold dict_get. rewrite Hs. reflexivity.
Qed.

(** C7.  [get_terrain_shape] is a function of the tag set alone, and its
    result is the candidate set of the first category, in the order
    landuse, natural, surface, highway, waterway, whose tag is present
    with a mapped value; a tag that is absent or whose value is not
    mapped passes to the next category; when no category matches the
    result is the grass candidate set. *)
Theorem get_terrain_shape_precedence (osm_tags : gmap string string) :
  Some (get_terrain_shape osm_tags) = terrain_by_precedence osm_tags
  /\ (first_match osm_tags terrain_categories = None ->
      get_terrain_shape osm_tags =
      [4; 31; 32; 33; 34; 35; 36; 37; 38; 39; 40; 41; 42; 43; 44; 45; 146; 147; 148]).
Proof.
  assert (Hl : table_closed OSM_LANDUSE_TO_TERRAIN)
    by (apply (table_closed_in "landuse"); unfold terrain_categories; set_solver).
  assert (Hn : table_closed OSM_NATURAL_TO_TERRAIN)
    by (apply (table_closed_in "natural"); unfold terrain_categories; set_solver).
  assert (Hs : table_closed OSM_SURFACE_TO_TERRAIN)
    by (apply (table_closed_in "surface"); unfold terrain_categories; set_solver).
  assert (Hh : table_closed OSM_HIGHWAY_TO_TERRAIN)
    by (apply (table_closed_in "highway"); unfold terrain_categories; set_solver).
  assert (Hw : table_closed OSM_WATERWAY_TO_TERRAIN)
    by (apply (table_closed_in "waterway"); unfold terrain_categories; set_solver).
  unfold get_terrain_shape, terrain_by_precedence, terrain_categories, first_match.
  rewrite (tag_in_category _ "landuse" _ Hl), (tag_in_category _ "natural" _ Hn),
    (tag_in_category _ "surface" _ Hs), (tag_in_category _ "highway" _ Hh),
    (tag_in_category _ "waterway" _ Hw).
  destruct (category_match osm_tags ("landuse", _)) eqn:E1.
  { split; [exact (dict_get_category _ _ _ _ _ Hl E1) | discriminate]. }
  destruct (category_match osm_tags ("natural", _)) eqn:E2.
  { split; [exact (dict_get_category _ _ _ _ _ Hn E2) | discriminate]. }
  destruct (category_match osm_tags ("surface", _)) eqn:E3.
  { split; [exact (dict_get_category _ _ _ _ _ Hs E3) | discriminate]. }
  destruct (category_match osm_tags ("highway", _)) eqn:E4.
  { split; [exact (dict_get_category _ _ _ _ _ Hh E4) | discriminate]. }
  destruct (category_match osm_tags ("waterway", _)) eqn:E5.
  { split; [exact (dict_get_category _ _ _ _ _ Hw E5) | discriminate]. }
  split; [|intros _]; vm_compute; reflexivity.
Qed.

(** A landuse value that is not mapped passes to the natural category,
    and a mapped landuse value wins over a mapped natural value. *)
Example get_terrain_shape_examples :
  get_terrain_shape {[ "landuse" := "plaza"; "natural" := "water" ]} = [8]
  /\ get_terrain_shape {[ "landuse" := "beach"; "natural" := "water" ]} = [10; 111]
  /\ get_terrain_shape {[ "waterway" := "ditch"; "highway" := "track" ]} = [16; 25].
Proof. repeat split; vm_compute; reflexivity. Qed.

End ClassifierFacts.

(** ** The IREG record encoder *)

Module IregFacts.

Import Ireg.

Lemma lor_below a b n :
  0 <= n -> 0 <= a < 2 ^ n -> 0 <= b < 2 ^ n -> 0 <= Z.lor a b < 2 ^ n.
Proof.
  intros Hn Ha Hb. split; [apply Z.lor_nonneg; lia|].
  destruct (Z.eq_dec a 0) as [->|Hna]; [rewrite Z.lor_0_l; lia|].
  destruct (Z.eq_dec b 0) as [->|Hnb]; [rewrite Z.lor_0_r; lia|].
  apply Z.log2_lt_pow2.
  - assert (0 <= Z.lor a b) by (apply Z.lor_nonneg; lia).
    assert (Z.lor a b <> 0) by (rewrite Z.lor_eq_0_iff; lia). lia.
  - rewrite Z.log2_lor by lia.
    apply Z.max_lub_lt; apply Z.log2_lt_pow2; lia.
Qed.

Lemma bytearray_set_ok buf i v :
  0 <= v < 256 -> bytearray_set buf i v = Ok (<[i := v]> buf).
Proof.
  intros Hv. unfold bytearray_set.
  destruct (Z.leb_spec 0 v); [|lia]. destruct (Z.ltb_spec v 256); [|lia].
  reflexivity.
Qed.

Lemma position_byte v : 0 <= Z.lor (Z.shiftl ((v / 16) mod 16) 4) (v mod 16) < 256.
Proof.
  change 256 with (2 ^ 8). apply lor_below; [lia| |].
  - rewrite Z.shiftl_mul_pow2 by lia.
    pose proof (Z.mod_pos_bound (v / 16) 16). lia.
  - pose proof (Z.mod_pos_bound v 16). lia.
Qed.

Lemma low_bits_byte v n : 0 <= n <= 8 -> 0 <= Z.land v (Z.ones n) < 256.
Proof.
  intros Hn. rewrite Z.land_ones by lia.
  pose proof (Z.mod_pos_bound v (2 ^ n)).
  assert (2 ^ n <= 2 ^ 8) by (apply Z.pow_le_mono_r; lia).
  assert (0 < 2 ^ n) by (apply Z.pow_pos_nonneg; lia). lia.
Qed.

Lemma shape_frame_byte vshape vframe :
  0 <= vframe < 64 ->
  0 <= Z.lor (Z.land (Z.shiftr vshape 8) 3) (Z.shiftl vframe 2) < 256.
Proof.
  intros Hf. change 256 with (2 ^ 8). apply lor_below; [lia| |].
  - change 3 with (Z.ones 2). rewrite Z.land_ones by lia.
    pose proof (Z.mod_pos_bound (Z.shiftr vshape 8) (2 ^ 2)). lia.
  - rewrite Z.shiftl_mul_pow2 by lia. lia.
Qed.

(** What the body of [to_ireg_bytes] computes on a receiver that has the
    six attributes it reads, when the frame fits the six bits left in
    byte 4: the ten bytes of [record_layout]. *)
Lemma to_ireg_bytes_body_layout attr vx vy vshape vframe vlift vquality :
  attr "x" = Ok vx -> attr "y" = Ok vy -> attr "shape" = Ok vshape ->
  attr "frame" = Ok vframe -> attr "lift" = Ok vlift ->
  attr "quality" = Ok vquality ->
  0 <= vframe < 64 ->
  to_ireg_bytes_body attr = Ok (record_layout vx vy vshape vframe vlift vquality).
Proof.
  intros Hx Hy Hs Hf Hl Hq Hframe. unfold to_ireg_bytes_body.
  rewrite Hx, Hy, Hs, Hf, Hl, Hq. simpl.
  rewrite (bytearray_set_ok _ 1 _ (position_byte vx)). simpl.
  rewrite (bytearray_set_ok _ 2 _ (position_byte vy)). simpl.
  rewrite (bytearray_set_ok _ 3 _ (low_bits_byte vshape 8 ltac:(lia))). simpl.
  rewrite (bytearray_set_ok _ 4 _ (shape_frame_byte vshape vframe Hframe)). simpl.
  rewrite (bytearray_set_ok _ 5 _ (low_bits_byte vlift 4 ltac:(lia))). simpl.
  rewrite (bytearray_set_ok _ 6 _ (low_bits_byte vquality 8 ltac:(lia))). simpl.
  reflexivity.
Qed.

(** A frame of 64 does not fit byte 4: the assignment raises. *)
Example to_ireg_bytes_body_frame_64 :
  to_ireg_bytes_body
    (fun name => if String.eqb name "frame" then Ok 64 else Ok 0)
  = Raise ValueError.
Proof. vm_compute. reflexivity. Qed.

(** C1, at the object [UltimaObject(shape=1, x=17, y=33)]: the call
    [obj.to_ireg_bytes()] raises [AttributeError], because the method is
    defined in [NPCProfile] and not in [UltimaObject]; so does the call
    on every object, and the loop of [export_ireg] on every non-empty
    object list; the method of [NPCProfile] raises too, on [self.x].
    The body, given the attributes of the object, would compute the ten
    bytes [10, 0x11, 0x21, 1, 0, 0, 0, 0, 0, 0]. *)
Theorem to_ireg_bytes_not_defined_on_UltimaObject :
  call_to_ireg_bytes (OfUltimaObject (new_object 1 17 33 0))
    = Raise (AttributeError "to_ireg_bytes")
  /\ (forall obj, call_to_ireg_bytes (OfUltimaObject obj)
                  = Raise (AttributeError "to_ireg_bytes"))
  /\ (forall obj objs f, write_objects (obj :: objs) f
                         = Raise (AttributeError "to_ireg_bytes"))
  /\ (forall p, call_to_ireg_bytes (OfNPCProfile p) = Raise (AttributeError "x"))
  /\ to_ireg_bytes_body (getattr (OfUltimaObject (new_object 1 17 33 0)))
     = Ok [10; 17; 33; 1; 0; 0; 0; 0; 0; 0].
Proof.
  repeat split; try reflexivity.
Qed.

End IregFacts.

(** ** The rasterizer *)

Module RasterFacts.

Import Generator Tape.

Lemma elem_of_range lo hi i : i ∈ range lo hi <-> lo <= i < hi.
Proof.
  unfold range. rewrite list_elem_of_fmap. split.
  - intros (n & -> & Hn). apply elem_of_seq in Hn. lia.
  - intros Hi. exists (Z.to_nat (i - lo)). split; [lia|].
    apply elem_of_seq. lia.
Qed.

(** The lower bound [-width // 2] is minus the half of [width] rounded
    up, so the offsets are the integers from [-((width + 1) div 2)] to
    [width div 2]. *)
Lemma elem_of_width_range width wx :
  wx ∈ width_range width <-> - ((width + 1) / 2) <= wx <= width / 2.
Proof.
  unfold width_range. rewrite elem_of_range.
  assert ((- width) / 2 = - ((width + 1) / 2)) as ->.
  { pose proof (Z.div_mod width 2 ltac:(lia)).
    pose proof (Z.mod_pos_bound width 2 ltac:(lia)).
    symmetry. apply Z.opp_inj_wd. rewrite Z.opp_involutive.
    assert (width mod 2 = 0 \/ width mod 2 = 1) as [Hm|Hm] by lia.
    - replace (- width) with ((- (width / 2)) * 2) by lia.
      rewrite Z.div_mul by lia.
      replace (width + 1) with (1 + (width / 2) * 2) by lia.
      rewrite Z.div_add by lia. change (1 / 2) with 0. lia.
    - replace (- width) with (1 + (- (width / 2) - 1) * 2) by lia.
      rewrite Z.div_add by lia. change (1 / 2) with 0.
      replace (width + 1) with ((width / 2 + 1) * 2) by lia.
      rewrite Z.div_mul by lia. lia. }
  lia.
Qed.

Lemma elem_of_symmetric_offsets width wx :
  wx ∈ symmetric_offsets width <-> - (width / 2) <= wx <= width / 2.
Proof. unfold symmetric_offsets. rewrite elem_of_range. lia. Qed.

(** For an even width the offsets are the symmetric ones. *)
Lemma width_range_even width :
  Z.even width = true -> width_range width = symmetric_offsets width.
Proof.
  intros He. unfold width_range, symmetric_offsets. f_equal.
  apply Zeven_bool_iff in He. destruct (Zeven_ex _ He) as [k ->].
  replace (- (2 * k)) with ((- k) * 2) by lia.
  replace (2 * k) with (k * 2) by lia. rewrite !Z.div_mul by lia. reflexivity.
Qed.

(** For an odd width there is one more offset on the negative side. *)
Lemma width_range_odd width :
  0 <= width -> Z.odd width = true ->
  width_range width = (- (width / 2) - 1) :: symmetric_offsets width.
Proof.
  intros Hpos Ho. unfold width_range, symmetric_offsets.
  apply Zodd_bool_iff in Ho. destruct (Zodd_ex _ Ho) as [k ->].
  replace (- (2 * k + 1)) with (1 + (- k - 1) * 2) by lia.
  replace (2 * k + 1) with (1 + k * 2) by lia.
  rewrite !Z.div_add by lia. change (1 / 2) with 0. rewrite !Z.add_0_l.
  unfold range.
  replace (Z.to_nat (k + 1 - (- k - 1))) with (S (Z.to_nat (k + 1 - - k))).
  2:{ lia. }
  simpl. f_equal; [lia|].
  rewrite <- seq_shift, map_map. apply map_ext. intros n. lia.
Qed.

Section Loops.

Context {G : Type} {RG : Random.Generator G}.

Lemma for_ext {A} (l : list A) (f g : A -> @Gen G unit) :
  (forall a w, f a w = g a w) -> forall w, for_ l f w = for_ l g w.
Proof.
  intros Hfg. induction l as [|a l IH]; intros w; simpl; [reflexivity|].
  unfold gbind. rewrite Hfg. destruct (g a w) as [[u w']|e]; [apply IH|reflexivity].
Qed.

Lemma for_app {A} (l1 l2 : list A) (body : A -> @Gen G unit) w :
  for_ (l1 ++ l2) body w = gbind (for_ l1 body) (fun _ => for_ l2 body) w.
Proof.
  revert w. induction l1 as [|a l1 IH]; intros w; simpl; [reflexivity|].
  unfold gbind at 1 2 3. destruct (body a w) as [[u w']|e]; [|reflexivity].
  rewrite IH. reflexivity.
Qed.

(** Two nested loops are one loop over the concatenated inner lists. *)
Lemma for_nested {A B} (l : list A) (inner : A -> list B) (body : B -> @Gen G unit) w :
  for_ l (fun a => for_ (inner a) body) w = for_ (l ≫= inner) body w.
Proof.
  revert w. induction l as [|a l IH]; intros w; simpl; [reflexivity|].
  rewrite for_app. unfold gbind.
  destruct (for_ (inner a) body w) as [[u w']|e]; [apply IH|reflexivity].
Qed.

Lemma for_guard {B} (b : bool) (t : B) (body : B -> @Gen G unit) w :
  (if b then body t else ret tt) w = for_ (if b then [t] else []) body w.
Proof.
  destruct b; simpl; [|reflexivity].
  unfold gbind. destruct (body t w) as [[[] w']|e]; reflexivity.
Qed.


(** When both endpoints fall on one tile, [_draw_line_terrain] paints
    that tile and no other. *)
Lemma draw_line_same_tile start end_ shapes width (w : G * MapGenerator) :
  osm_to_ultima (transformer (snd w)) (fst start) (snd start)
  = osm_to_ultima (transformer (snd w)) (fst end_) (snd end_) ->
  _draw_line_terrain start end_ shapes width w =
  paint shapes (fst (osm_to_ultima (transformer (snd w)) (fst start) (snd start)))
               (snd (osm_to_ultima (transformer (snd w)) (fst start) (snd start))) w.
Proof.
  intros Heq. unfold _draw_line_terrain, gbind at 1, get_self.
  rewrite <- Heq. rewrite !Z.sub_diag. reflexivity.
Qed.

(** Otherwise it paints one square per step [i] of [range(dist + 1)]. *)
Lemma draw_line_steps start end_ shapes width (w : G * MapGenerator) :
  let start_tile := osm_to_ultima (transformer (snd w)) (fst start) (snd start) in
  let end_tile := osm_to_ultima (transformer (snd w)) (fst end_) (snd end_) in
  let dist := Z.max (Z.abs (fst end_tile - fst start_tile))
                    (Z.abs (snd end_tile - snd start_tile)) in
  dist <> 0 ->
  _draw_line_terrain start end_ shapes width w =
  for_ (range 0 (dist + 1))
       (fun i => paint_square shapes width (line_center start_tile end_tile dist i)) w.
Proof.
  intros start_tile end_tile dist Hd.
  unfold _draw_line_terrain, gbind at 1, get_self.
  fold start_tile end_tile. fold dist.
  destruct (Z.eqb_spec dist 0); [contradiction|reflexivity].
Qed.

End Loops.

(** The tiles painted around a center are the offsets of [width_range]
    on both axes, clipped to the world. *)
Lemma elem_of_square_tiles size width center t :
  t ∈ square_tiles size width center <->
  exists wx wy, wx ∈ width_range width /\ wy ∈ width_range width
    /\ t = (fst center + wx, snd center + wy)
    /\ in_world size (fst t) (snd t) = true.
Proof.
  unfold square_tiles. rewrite list_elem_of_bind. split.
  - intros (wx & Ht & Hwx). apply list_elem_of_bind in Ht as (wy & Ht & Hwy).
    destruct (in_world _ _ _) eqn:E.
    + apply list_elem_of_singleton in Ht. subst t. exists wx, wy. auto.
    + apply elem_of_nil in Ht. contradiction.
  - intros (wx & wy & Hwx & Hwy & -> & Hin). exists wx. split; [|exact Hwx].
    apply list_elem_of_bind. exists wy. split; [|exact Hwy].
    simpl in Hin. rewrite Hin. apply list_elem_of_singleton. reflexivity.
Qed.

(** For an even width the painted tiles are the square of the
    specification, clipped to the world. *)
Lemma square_tiles_even size width center t :
  Z.even width = true ->
  (t ∈ square_tiles size width center <->
   exists wx wy, - (width / 2) <= wx <= width / 2 /\ - (width / 2) <= wy <= width / 2
     /\ t = (fst center + wx, snd center + wy)
     /\ in_world size (fst t) (snd t) = true).
Proof.
  intros He. rewrite elem_of_square_tiles, (width_range_even _ He).
  split; intros (wx & wy & H1 & H2 & H3); exists wx, wy;
    rewrite !elem_of_symmetric_offsets in *; auto.
Qed.

(** For an odd width the tile at offset [-(width div 2) - 1] of the
    center is painted too, when it lies in the world. *)
Lemma square_tiles_odd_extra size width center :
  0 <= width -> Z.odd width = true ->
  in_world size (fst center - width / 2 - 1) (snd center) = true ->
  (fst center - width / 2 - 1, snd center) ∈ square_tiles size width center.
Proof.
  intros Hpos Ho Hin. apply elem_of_square_tiles.
  exists (- (width / 2) - 1), 0. rewrite (width_range_odd _ Hpos Ho).
  split; [left|]. split.
  - right. apply elem_of_symmetric_offsets.
    pose proof (Z.div_pos width 2 Hpos ltac:(lia)). lia.
  - split; [f_equal; lia|]. simpl.
    replace (fst center + (- (width / 2) - 1)) with (fst center - width / 2 - 1) by lia.
    replace (snd center + 0) with (snd center) by lia. exact Hin.
Qed.

(** C2, at width 1 (the width [_process_area] draws lines with) and at
    width 3 (waterways): the offsets of the two width loops are
    [-1, 0] and [-2, -1, 0, 1], not [0] and [-1, 0, 1]; around the
    center (5, 5) a line of width 1 paints the four tiles (4,4), (4,5),
    (5,4), (5,5); and drawing the segment from tile (5,5) to tile (6,5)
    with width 1 on an empty 16x16-chunk map paints tile (4,4), which is
    at offset -1 of the first center.  Every odd width paints the extra
    column at offset [-(width div 2) - 1]. *)
Theorem draw_line_odd_width_offsets :
  width_range 1 = [-1; 0]
  /\ width_range 3 = [-2; -1; 0; 1]
  /\ symmetric_offsets 1 = [0]
  /\ symmetric_offsets 3 = [-1; 0; 1]
  /\ square_tiles (16, 16) 1 (5, 5) = [(4, 4); (4, 5); (5, 4); (5, 5)]
  /\ (exists w',
        _draw_line_terrain (5 # 256, 251 # 256)%Q (6 # 256, 251 # 256)%Q [8] 1
          (([] : list Z), new_generator (0, 0, 1, 1)%Q (16, 16)) = Ok (tt, w')
        /\ Grid.terrain_at (ultima_map (snd w')) 4 4 = Some 8
        /\ Grid.terrain_at (ultima_map (snd w')) 5 5 = Some 8
        /\ Grid.terrain_at (ultima_map (snd w')) 7 5 = Some 4)
  /\ (forall size width center,
        0 <= width -> Z.odd width = true ->
        in_world size (fst center - width / 2 - 1) (snd center) = true ->
        (fst center - width / 2 - 1, snd center) ∈ square_tiles size width center).
Proof.
  repeat split; try (vm_compute; reflexivity).
  - eexists. repeat split; vm_compute; reflexivity.
  - apply square_tiles_odd_extra.
Qed.

End RasterFacts.

(** ** The coordinate transformer *)

Module TransformFacts.

Lemma int_of_inject q n : (q == inject_Z n)%Q -> int_of q = n.
Proof.
  unfold Qeq, int_of; simpl. intros H.
  replace (Qnum q) with (n * Z.pos (Qden q)) by lia.
  apply Z.quot_mul. lia.
Qed.

Lemma Qpositive_sub a b : Qpositive (b - a) = true <-> (a < b)%Q.
Proof.
  unfold Qpositive. rewrite negb_true_iff, <- not_true_iff_false, Qle_bool_iff.
  split.
  - intros H. apply Qnot_le_lt in H. apply Qlt_minus_iff. exact H.
  - intros H. apply Qlt_not_le. apply Qlt_minus_iff in H. exact H.
Qed.

Lemma flip_top (r : Q) (n : Z) :
  ~ (r == 0)%Q -> ((1 - r / r) * inject_Z n == inject_Z 0)%Q.
Proof.
  intros Hr. change (inject_Z 0) with 0%Q. generalize (inject_Z n). intros t.
  field. exact Hr.
Qed.

Lemma flip_bottom (a r : Q) (n : Z) :
  ~ (r == 0)%Q -> ((1 - (a - a) / r) * inject_Z n == inject_Z n)%Q.
Proof.
  intros Hr. generalize (inject_Z n). intros t. field. exact Hr.
Qed.

Lemma clamp_range dim t : 1 <= dim -> 0 <= Z.max 0 (Z.min (dim - 1) t) <= dim - 1.
Proof. lia. Qed.

Lemma half_tile dim : 0 <= dim -> int_of ((1 # 2) * inject_Z dim) = dim / 2.
Proof.
  intros Hd. unfold int_of; simpl. rewrite Z.quot_div_nonneg by lia.
  f_equal. destruct dim; reflexivity.
Qed.

Lemma half_tile_flipped dim : 0 <= dim -> int_of ((1 - (1 # 2)) * inject_Z dim) = dim / 2.
Proof.
  intros Hd. unfold int_of; simpl. rewrite Z.quot_div_nonneg by lia.
  f_equal. destruct dim; reflexivity.
Qed.

(** C5.  For a world of at least one chunk on each axis,
    [osm_to_ultima] is a total function of the box, the size and the
    point; both coordinates of every result lie in [0, dim - 1]; with a
    positive latitude span the maximum latitude maps to row 0 and the
    minimum latitude to row [H - 1]; and on an axis whose span is not
    positive every point maps to the tile [dim div 2]. *)
Theorem osm_to_ultima_clamped_flipped_midpoint
        (mnlon mnlat mxlon mxlat : Q) (size : Z * Z) :
  1 <= fst size -> 1 <= snd size ->
  let tr := new_transformer (mnlon, mnlat, mxlon, mxlat) size in
  (forall lon lat,
      0 <= fst (osm_to_ultima tr lon lat) <= tiles_x tr - 1
      /\ 0 <= snd (osm_to_ultima tr lon lat) <= tiles_y tr - 1)
  /\ ((mnlat < mxlat)%Q ->
      snd (osm_to_ultima tr mnlon mxlat) = 0
      /\ snd (osm_to_ultima tr mnlon mnlat) = tiles_y tr - 1)
  /\ (~ (mnlon < mxlon)%Q ->
      forall lon lat, fst (osm_to_ultima tr lon lat) = tiles_x tr / 2)
  /\ (~ (mnlat < mxlat)%Q ->
      forall lon lat, snd (osm_to_ultima tr lon lat) = tiles_y tr / 2).
Proof.
  intros Hw Hh tr.
  assert (Htx : tiles_x tr = fst size * 16) by reflexivity.
  assert (Hty : tiles_y tr = snd size * 16) by reflexivity.
  split; [|split; [|split]].
  - intros lon lat. unfold osm_to_ultima. simpl fst; simpl snd.
    split; apply clamp_range; lia.
  - intros Hlat. apply Qpositive_sub in Hlat as Hpos.
    assert (Hne : ~ (mxlat - mnlat == 0)%Q).
    { intros H0. apply Qlt_minus_iff in Hlat. unfold Qminus in H0.
      rewrite H0 in Hlat. apply (Qlt_irrefl 0). exact Hlat. }
    unfold osm_to_ultima. simpl snd.
    change (lat_range tr) with (mxlat - mnlat)%Q. change (min_lat tr) with mnlat.
    rewrite Hpos. split.
    + erewrite int_of_inject; [|apply (flip_top _ _ Hne)]. lia.
    + erewrite int_of_inject; [|apply (flip_bottom _ _ _ Hne)].
      rewrite Hty in *. lia.
  - intros Hlon lon lat. unfold osm_to_ultima. simpl fst.
    change (lon_range tr) with (mxlon - mnlon)%Q.
    destruct (Qpositive (mxlon - mnlon)) eqn:E.
    { apply Qpositive_sub in E. contradiction. }
    rewrite half_tile by lia.
    pose proof (Z.div_pos (tiles_x tr) 2 ltac:(lia) ltac:(lia)).
    assert (tiles_x tr / 2 <= tiles_x tr - 1).
    { apply Z.lt_le_pred. apply Z.div_lt; lia. }
    rewrite Htx in *. lia.
  - intros Hlat lon lat. unfold osm_to_ultima. simpl snd.
    change (lat_range tr) with (mxlat - mnlat)%Q.
    destruct (Qpositive (mxlat - mnlat)) eqn:E.
    { apply Qpositive_sub in E. contradiction. }
    rewrite half_tile_flipped by lia.
    pose proof (Z.div_pos (tiles_y tr) 2 ltac:(lia) ltac:(lia)).
    assert (tiles_y tr / 2 <= tiles_y tr - 1).
    { apply Z.lt_le_pred. apply Z.div_lt; lia. }
    rewrite Hty in *. lia.
Qed.

(** C5 on the unit box and a 16x16-chunk world: the top-left corner maps
    to row 0 and the bottom-left corner to row 255; on a box of zero
    longitude span every point maps to column 128. *)
Lemma osm_to_ultima_clamped_flipped_midpoint_witness :
  snd (osm_to_ultima (new_transformer (0, 0, 1, 1)%Q (16, 16)) 0 1) = 0
  /\ snd (osm_to_ultima (new_transformer (0, 0, 1, 1)%Q (16, 16)) 0 0) = 255
  /\ fst (osm_to_ultima (new_transformer (0, 0, 0, 1)%Q (16, 16)) 7 (1 # 3)) = 128
  /\ 0 <= fst (osm_to_ultima (new_transformer (0, 0, 1, 1)%Q (16, 16)) 9 (-4)) <= 255.
Proof.
  destruct (osm_to_ultima_clamped_flipped_midpoint 0 0 1 1 (16, 16))
    as (Hclamp & Hflip & _); [simpl; lia | simpl; lia |].
  destruct (osm_to_ultima_clamped_flipped_midpoint 0 0 0 1 (16, 16))
    as (_ & _ & Hmid & _); [simpl; lia | simpl; lia |].
  destruct Hflip as [Htop Hbottom]; [reflexivity|].
  split; [exact Htop|]. split; [exact Hbottom|]. split.
  - apply Hmid. unfold Qlt; simpl. lia.
  - apply (Hclamp 9%Q (-4)%Q).
Defined.

End TransformFacts.

(** ** The building planner *)

Module BuildingFacts.

Import Grid GridFacts RasterFacts Generator.

Lemma set_ultima_map_id s : set_ultima_map (ultima_map s) s = s.
Proof. destruct s; reflexivity. Qed.

Lemma range_split lo hi i :
  lo <= i < hi -> range lo hi = range lo i ++ i :: range (i + 1) hi.
Proof.
  intros Hi. unfold range.
  replace (Z.to_nat (hi - lo)) with (Z.to_nat (i - lo) + S (Z.to_nat (hi - (i + 1))))%nat by lia.
  rewrite seq_app, map_app. f_equal. simpl. f_equal; [lia|].
  rewrite <- seq_shift, map_map.
  replace (0 + Z.to_nat (i - lo))%nat with (Z.to_nat (i - lo)) by lia.
  rewrite <- (Nat.add_0_r (Z.to_nat (i - lo))) at 1.
  rewrite <- (fmap_add_seq (Z.to_nat (i - lo)) 0), map_map.
  apply map_ext. intros n. lia.
Qed.

Section Emit.

Context {G : Type} {RG : Random.Generator G}.

Lemma choice_ok {A} (l : list A) (g : G) :
  l <> [] -> exists a g', Random.choice l g = Ok (a, g') /\ a ∈ l.
Proof.
  intros Hl. destruct l as [|a l]; [contradiction|]. unfold Random.choice.
  pose proof (Random.randbelow_range g (Z.of_nat (length (a :: l)))) as Hr.
  destruct (Random.randbelow g (Z.of_nat (length (a :: l)))) as [i g'].
  simpl fst in Hr. specialize (Hr ltac:(simpl; lia)).
  exists (nth (Z.to_nat i) (a :: l) a), g'. split; [reflexivity|].
  apply list_elem_of_In. apply nth_In. lia.
Qed.

Lemma emits_ext (c c' : @Gen G unit) P :
  (forall w, c w = c' w) -> emits c' P -> emits c P.
Proof. intros Heq Hc w. rewrite Heq. apply Hc. Qed.

Lemma emits_weaken (c : @Gen G unit) (P Q : list UltimaObject -> Prop) :
  emits c P -> (forall objs, P objs -> Q objs) -> emits c Q.
Proof.
  intros Hc HPQ w. destruct (Hc w) as (objs & g' & Hw & HP).
  exists objs, g'. auto.
Qed.

Lemma emits_ret : emits (G := G) (ret tt) (fun objs => objs = []).
Proof.
  intros [g s]. exists [], g. split; [|reflexivity].
  unfold ret. simpl. rewrite set_ultima_map_id. reflexivity.
Qed.

Lemma emits_seq (c1 c2 : @Gen G unit) P1 P2 :
  emits c1 P1 -> emits c2 P2 ->
  emits (gbind c1 (fun _ => c2))
        (fun objs => exists o1 o2, objs = o1 ++ o2 /\ P1 o1 /\ P2 o2).
Proof.
  intros H1 H2 w. destruct (H1 w) as (o1 & g1 & Hw1 & HP1).
  destruct (H2 (g1, set_ultima_map (add_objects o1 (ultima_map (snd w))) (snd w)))
    as (o2 & g2 & Hw2 & HP2).
  exists (o1 ++ o2), g2. split; [|eauto].
  unfold gbind. rewrite Hw1, Hw2. simpl. rewrite add_objects_app. reflexivity.
Qed.

(** One [random.choice] from a non-empty list and one [add_object]. *)
Lemma emits_choice_add (shapes : list Z) (mk : Z -> UltimaObject) :
  shapes <> [] ->
  emits (G := G) (gbind (draw (Random.choice shapes)) (fun sh => add_object (mk sh)))
        (fun objs => exists sh, sh ∈ shapes /\ objs = [mk sh]).
Proof.
  intros Hne [g s]. destruct (choice_ok shapes g Hne) as (sh & g' & Hc & Hin).
  exists [mk sh], g'. split; [|eauto].
  unfold gbind, draw. simpl. rewrite Hc. reflexivity.
Qed.

Lemma emits_for {A} (l : list A) (body : A -> @Gen G unit)
      (P : A -> list UltimaObject -> Prop) :
  (forall a, a ∈ l -> emits (body a) (P a)) ->
  emits (for_ l body) (fun objs => exists oss, objs = concat oss /\ Forall2 P l oss).
Proof.
  induction l as [|a l IH]; intros Hb.
  - eapply emits_weaken; [apply emits_ret|]. intros objs ->.
    exists []. split; [reflexivity|constructor].
  - simpl. eapply emits_weaken.
    + apply emits_seq; [apply Hb; left | apply IH; intros; apply Hb; right; assumption].
    + intros objs (o1 & o2 & -> & HP & oss & -> & HF).
      exists (o1 :: oss). split; [reflexivity|]. constructor; assumption.
Qed.

Lemma gbind_assoc {A B C} (c : @Gen G A) (k : A -> @Gen G B) (h : B -> @Gen G C) w :
  gbind (gbind c k) h w = gbind c (fun a => gbind (k a) h) w.
Proof. unfold gbind. destruct (c w) as [[a w']|e]; reflexivity. Qed.

(** A [random.choice], an [add_object], and then the rest. *)
Lemma emits_choice_add_then (shapes : list Z) (mk : Z -> UltimaObject)
      (c : @Gen G unit) P :
  shapes <> [] -> emits c P ->
  emits (gbind (draw (Random.choice shapes))
               (fun sh => gbind (add_object (mk sh)) (fun _ => c)))
        (fun objs => exists sh rest, sh ∈ shapes /\ P rest /\ objs = mk sh :: rest).
Proof.
  intros Hne Hc. eapply emits_ext.
  { intros w. symmetry.
    apply (gbind_assoc (draw (Random.choice shapes)) (fun sh => add_object (mk sh))
                       (fun _ => c)). }
  eapply emits_weaken.
  - apply emits_seq; [apply (emits_choice_add shapes mk Hne) | exact Hc].
  - intros objs (o1 & o2 & -> & (sh & Hin & ->) & HP). exists sh, o2. auto.
Qed.

Lemma set_ultima_map_twice m1 m2 s :
  set_ultima_map m2 (set_ultima_map m1 s) = set_ultima_map m2 s.
Proof. reflexivity. Qed.

Lemma paints_ret : paints (G := G) (ret tt).
Proof.
  intros [g s] Hwf. exists g, (ultima_map s). simpl.
  rewrite set_ultima_map_id. auto.
Qed.

Lemma paints_seq (c1 c2 : @Gen G unit) :
  paints c1 -> paints c2 -> paints (gbind c1 (fun _ => c2)).
Proof.
  intros H1 H2 w Hwf. destruct (H1 w Hwf) as (g1 & m1 & Hw1 & Hwf1 & Ho1).
  destruct (H2 (g1, set_ultima_map m1 (snd w)) Hwf1) as (g2 & m2 & Hw2 & Hwf2 & Ho2).
  exists g2, m2. unfold gbind. rewrite Hw1, Hw2. simpl in *.
  split; [reflexivity|]. split; [exact Hwf2|].
  intros ox oy. rewrite Ho2. apply Ho1.
Qed.

Lemma paints_for {A} (l : list A) (body : A -> @Gen G unit) :
  (forall a, paints (body a)) -> paints (for_ l body).
Proof.
  intros Hb. induction l as [|a l IH]; simpl.
  - apply paints_ret.
  - apply paints_seq; [apply Hb | exact IH].
Qed.

Lemma paints_paint (shapes : list Z) tx ty :
  shapes <> [] -> paints (G := G) (paint shapes tx ty).
Proof.
  intros Hne [g s] Hwf. simpl in Hwf.
  destruct (choice_ok shapes g Hne) as (sh & g' & Hc & Hin).
  destruct (set_terrain_objects_at (ultima_map s) tx ty sh Hwf)
    as (m' & Hs & Hwf' & Hobj & _).
  exists g', m'. unfold paint, gbind, draw, set_terrain. simpl.
  rewrite Hc. simpl. rewrite Hs. auto.
Qed.

(** Terrain painting followed by object placement. *)
Lemma paints_then_emits (c1 c2 : @Gen G unit) P w :
  paints c1 -> emits c2 P -> wf (ultima_map (snd w)) ->
  exists g' m1 objs,
    gbind c1 (fun _ => c2) w
    = Ok (tt, (g', set_ultima_map (add_objects objs m1) (snd w)))
    /\ wf m1
    /\ (forall ox oy, objects_at m1 ox oy = objects_at (ultima_map (snd w)) ox oy)
    /\ P objs.
Proof.
  intros H1 H2 Hwf. destruct (H1 w Hwf) as (g1 & m1 & Hw1 & Hwf1 & Ho1).
  destruct (H2 (g1, set_ultima_map m1 (snd w))) as (objs & g2 & Hw2 & HP).
  exists g2, m1, objs. unfold gbind. rewrite Hw1, Hw2. simpl. auto.
Qed.

End Emit.

(** Every candidate list of [OBJECT_SHAPES] has a member. *)
Lemma object_shapes_nonempty name shapes :
  OBJECT_SHAPES !! name = Some shapes -> shapes <> [].
Proof.
  intros H. unfold OBJECT_SHAPES in H. apply elem_of_list_to_map_2 in H.
  change (snd (name, shapes) <> []).
  revert H. generalize (name, shapes). apply Forall_forall.
  repeat constructor; discriminate.
Qed.

(** So has every component list of [get_object_shapes]. *)
Lemma get_object_shapes_nonempty osm_tags component shapes :
  get_object_shapes osm_tags !! component = Some shapes -> shapes <> [].
Proof.
  assert (Hmain : forall shape_name,
             main_component shape_name !! component = Some shapes -> shapes <> []).
  { intros shape_name. unfold main_component.
    destruct (OBJECT_SHAPES !! shape_name) as [l|] eqn:E.
    - intros H. apply lookup_singleton_Some in H as [_ <-].
      exact (object_shapes_nonempty _ _ E).
    - rewrite lookup_empty. discriminate. }
  unfold get_object_shapes.
  destruct (nonempty_tag osm_tags "building").
  { unfold building_components. rewrite lookup_omap.
    destruct (dict_get OSM_BUILDING_TO_SHAPES _ _ !! component) as [shape_name|];
      simpl; [|discriminate].
    apply object_shapes_nonempty. }
  destruct (tag_in osm_tags "amenity" _); [apply Hmain|].
  destruct (tag_in osm_tags "natural" _); [apply Hmain|].
  destruct (tag_in osm_tags "barrier" _); [apply Hmain|].
  destruct (tag_in osm_tags "man_made" _); [apply Hmain|].
  rewrite lookup_empty. discriminate.
Qed.

(** The candidate list a building draws a component from. *)
Lemma component_shapes_nonempty osm_tags component name dflt :
  dflt <> [] ->
  dict_get (get_object_shapes osm_tags) component (dict_get OBJECT_SHAPES name dflt) <> [].
Proof.
  intros Hd. unfold dict_get at 1.
  destruct (get_object_shapes osm_tags !! component) as [l|] eqn:E; simpl.
  - exact (get_object_shapes_nonempty _ _ _ E).
  - unfold dict_get. destruct (OBJECT_SHAPES !! name) as [l|] eqn:E'; simpl.
    + exact (object_shapes_nonempty _ _ E').
    + exact Hd.
Qed.

Section Shell.

Context {G : Type} {RG : Random.Generator G}.

Lemma emits_pair (shapes : list Z) (mk1 mk2 : Z -> UltimaObject) :
  shapes <> [] ->
  emits (G := G)
        (gbind (draw (Random.choice shapes))
               (fun sh => gbind (add_object (mk1 sh))
                  (fun _ => gbind (draw (Random.choice shapes))
                              (fun sh' => add_object (mk2 sh')))))
        (drawn_pair shapes mk1 mk2).
Proof.
  intros Hne. eapply emits_weaken.
  - apply emits_choice_add_then; [exact Hne|]. apply (emits_choice_add shapes mk2 Hne).
  - intros objs (s1 & rest & H1 & (s2 & H2 & ->) & ->). exists s1, s2. auto.
Qed.

(** [building_shell] returns on every well-formed map; it paints the
    floor and then places the objects of [shell_objects]. *)
Lemma building_shell_spec tags min_x min_y max_x max_y (w : G * MapGenerator) :
  wf (ultima_map (snd w)) ->
  exists g' m1 objs,
    building_shell tags min_x min_y max_x max_y w
    = Ok (tt, (g', set_ultima_map (add_objects objs m1) (snd w)))
    /\ wf m1
    /\ (forall ox oy, objects_at m1 ox oy = objects_at (ultima_map (snd w)) ox oy)
    /\ shell_objects
         (dict_get (get_object_shapes tags) "walls" (dict_get OBJECT_SHAPES "wall" [151]))
         (dict_get (get_object_shapes tags) "door" (dict_get OBJECT_SHAPES "door" [270]))
         (dict_get (get_object_shapes tags) "roof" (dict_get OBJECT_SHAPES "roof_slate" [164]))
         min_x min_y max_x max_y objs.
Proof.
  intros Hwf. unfold building_shell.
  pose proof (component_shapes_nonempty tags "walls" "wall" [151] ltac:(discriminate)) as Hwalls.
  pose proof (component_shapes_nonempty tags "door" "door" [270] ltac:(discriminate)) as Hdoors.
  pose proof (component_shapes_nonempty tags "roof" "roof_slate" [164] ltac:(discriminate)) as Hroofs.
  set (walls := dict_get (get_object_shapes tags) "walls" _) in *.
  set (doors := dict_get (get_object_shapes tags) "door" _) in *.
  set (roofs := dict_get (get_object_shapes tags) "roof" _) in *.
  apply paints_then_emits; [| |exact Hwf].
  - apply paints_for. intros tx. apply paints_for. intros ty.
    apply paints_paint. vm_compute. discriminate.
  - eapply emits_weaken.
    + apply emits_seq.
      { apply emits_for. intros tx _. apply (emits_pair walls _ _ Hwalls). }
      apply emits_seq.
      { apply emits_for. intros ty _. apply (emits_pair walls _ _ Hwalls). }
      eapply emits_choice_add_then; [exact Hdoors|].
      apply emits_for. intros tx _.
      apply emits_for. intros ty _.
      apply (emits_choice_add roofs (fun s => new_object s tx ty 4) Hroofs).
    + intros objs (o1 & o2 & -> & (o_walls & -> & HFw) & o3 & o4 & -> &
                   (o_sides & -> & HFs) & sh & rest & Hsh & (o_roof & -> & HFr) & ->).
      exists o_walls, o_sides, [new_object sh ((min_x + max_x) / 2) max_y 0], o_roof.
      split; [reflexivity|]. split; [exact HFw|]. split; [exact HFs|].
      split; [exists sh; auto|]. exact HFr.
Qed.

End Shell.

(** *** The objects of one tile among those a loop places *)

Lemma filter_concat_nil {A B} (P : A -> list B -> Prop) (Q : B -> Prop)
      `{forall b, Decision (Q b)} (l : list A) (oss : list (list B)) :
  Forall2 P l oss ->
  (forall a os, a ∈ l -> P a os -> filter Q os = []) ->
  filter Q (concat oss) = [].
Proof.
  induction 1 as [|a os l oss HP HF IH]; intros Hnil; simpl; [reflexivity|].
  rewrite filter_app, (Hnil a os) by (auto; left).
  rewrite IH; [reflexivity|]. intros a' os' Hin. apply Hnil. right. exact Hin.
Qed.

(** When only the iteration [i] of a loop over [range(lo, hi)] places
    objects that satisfy [Q], those are the objects it contributes. *)
Lemma filter_concat_range {B} (P : Z -> list B -> Prop) (Q : B -> Prop)
      `{forall b, Decision (Q b)} lo hi i (oss : list (list B)) :
  lo <= i < hi ->
  Forall2 P (range lo hi) oss ->
  (forall a os, a <> i -> P a os -> filter Q os = []) ->
  exists os, P i os /\ filter Q (concat oss) = filter Q os.
Proof.
  intros Hi HF Hnil. rewrite (range_split lo hi i Hi) in HF.
  apply Forall2_app_inv_l in HF as (o1 & o23 & H1 & H23 & ->).
  apply Forall2_cons_inv_l in H23 as (os & o3 & HP & H3 & ->).
  exists os. split; [exact HP|].
  rewrite concat_app, filter_app. simpl. rewrite filter_app.
  rewrite (filter_concat_nil P Q _ _ H1), (filter_concat_nil P Q _ _ H3).
  - rewrite app_nil_r. reflexivity.
  - intros a os' Ha. apply Hnil. apply elem_of_range in Ha. lia.
  - intros a os' Ha. apply Hnil. apply elem_of_range in Ha. lia.
Qed.

Lemma filter_tile_one tx ty (o : UltimaObject) :
  x o = tx -> y o = ty -> filter (fun o => x o = tx /\ y o = ty) [o] = [o].
Proof. intros Hx Hy. rewrite filter_cons, decide_True by auto. reflexivity. Qed.

Lemma filter_tile_none tx ty (o : UltimaObject) :
  ~ (x o = tx /\ y o = ty) -> filter (fun o => x o = tx /\ y o = ty) [o] = [].
Proof. intros Hn. rewrite filter_cons, decide_False by exact Hn. reflexivity. Qed.

Lemma fold_left_min_le l a : fold_left Z.min l a <= a.
Proof.
  revert a. induction l as [|b l IH]; intros a; simpl; [lia|].
  specialize (IH (Z.min a b)). lia.
Qed.

Lemma fold_left_max_ge l a : a <= fold_left Z.max l a.
Proof.
  revert a. induction l as [|b l IH]; intros a; simpl; [lia|].
  specialize (IH (Z.max a b)). lia.
Qed.

Lemma min_of_le_max_of l : min_of l <= max_of l.
Proof.
  destruct l as [|a l]; simpl; [lia|].
  pose proof (fold_left_min_le l a). pose proof (fold_left_max_ge l a). lia.
Qed.

(** The bounding box of a way is not reversed on either axis. *)
Lemma tile_bbox_ordered tr coords min_x min_y max_x max_y :
  tile_bbox tr coords = (min_x, min_y, max_x, max_y) ->
  min_x <= max_x /\ min_y <= max_y.
Proof.
  unfold tile_bbox. intros [= <- <- <- <-]. split; apply min_of_le_max_of.
Qed.

(** The objects [building_shell] places on the door tile, in order: the
    bottom wall of the door column (after the top wall of that column
    when the box is one row high), the door, and the roof. *)
Lemma shell_objects_door_tile walls doors roofs min_x min_y max_x max_y objs :
  min_x <= max_x -> min_y <= max_y ->
  shell_objects walls doors roofs min_x min_y max_x max_y objs ->
  let door_x := (min_x + max_x) / 2 in
  exists tops s_wall s_door s_roof,
    filter (fun o => x o = door_x /\ y o = max_y) objs
    = tops ++ [new_object s_wall door_x max_y 0;
               new_object s_door door_x max_y 0;
               new_object s_roof door_x max_y 4]
    /\ s_wall ∈ walls /\ s_door ∈ doors /\ s_roof ∈ roofs
    /\ (min_y < max_y -> tops = [])
    /\ (min_y = max_y -> exists s_top, s_top ∈ walls /\ tops = [new_object s_top door_x min_y 0]).
Proof.
  intros Hx Hy (o_walls & o_sides & door & o_roof & -> & HFw & HFs & Hd & HFr) door_x.
  assert (Hdx : min_x <= door_x < max_x + 1).
  { unfold door_x. split.
    - apply Z.div_le_lower_bound; lia.
    - apply Z.div_lt_upper_bound; lia. }
  rewrite !filter_app.
  destruct (filter_concat_range _ (fun o => x o = door_x /\ y o = max_y)
              _ _ door_x _ Hdx HFw) as (os_w & (s1 & s2 & Hs1 & Hs2 & ->) & ->).
  { intros a os Ha (s1 & s2 & _ & _ & ->).
    rewrite !filter_cons, !decide_False by (simpl; lia). reflexivity. }
  rewrite (filter_concat_nil _ (fun o => x o = door_x /\ y o = max_y) _ _ HFs).
  2:{ intros a os Ha (s1' & s2' & _ & _ & ->). apply elem_of_range in Ha.
      rewrite !filter_cons, !decide_False by (simpl; lia). reflexivity. }
  destruct Hd as (s_door & Hsd & ->).
  destruct (filter_concat_range _ (fun o => x o = door_x /\ y o = max_y)
              _ _ door_x _ Hdx HFr) as (os_r & (oss & -> & HFc) & ->).
  { intros a os Ha (oss & -> & HFc).
    apply (filter_concat_nil _ _ _ _ HFc).
    intros b os' _ (s & _ & ->).
    rewrite filter_cons, decide_False by (simpl; lia). reflexivity. }
  assert (Hmy : min_y <= max_y < max_y + 1) by lia.
  destruct (filter_concat_range _ (fun o => x o = door_x /\ y o = max_y)
              _ _ max_y _ Hmy HFc) as (os_c & (s_roof & Hsr & ->) & ->).
  { intros b os' Hb (s & _ & ->).
    rewrite filter_cons, decide_False by (simpl; lia). reflexivity. }
  assert (Hrest :
    forall tops,
      filter (fun o => x o = door_x /\ y o = max_y) [new_object s1 door_x min_y 0] = tops ->
      filter (fun o => x o = door_x /\ y o = max_y)
             [new_object s1 door_x min_y 0; new_object s2 door_x max_y 0] ++
      [] ++
      filter (fun o => x o = door_x /\ y o = max_y) [new_object s_door door_x max_y 0] ++
      filter (fun o => x o = door_x /\ y o = max_y) [new_object s_roof door_x max_y 4]
      = tops ++ [new_object s2 door_x max_y 0; new_object s_door door_x max_y 0;
                 new_object s_roof door_x max_y 4]).
  { intros tops <-.
    change [new_object s1 door_x min_y 0; new_object s2 door_x max_y 0]
      with ([new_object s1 door_x min_y 0] ++ [new_object s2 door_x max_y 0]).
    rewrite filter_app.
    rewrite (filter_tile_one door_x max_y (new_object s2 door_x max_y 0)) by reflexivity.
    rewrite (filter_tile_one door_x max_y (new_object s_door door_x max_y 0)) by reflexivity.
    rewrite (filter_tile_one door_x max_y (new_object s_roof door_x max_y 4)) by reflexivity.
    rewrite <- app_assoc. reflexivity. }
  destruct (Z.eq_dec min_y max_y) as [Heq|Hne].
  - exists [new_object s1 door_x min_y 0], s2, s_door, s_roof.
    split.
    { apply Hrest. apply filter_tile_one; simpl; auto. }
    repeat split; auto; [lia|].
    intros _. exists s1. auto.
  - exists [], s2, s_door, s_roof.
    split.
    { apply Hrest. apply filter_tile_none. simpl. intros [_ ?]. auto. }
    repeat split; auto.
    intros Heq. contradiction.
Qed.

(** *** Methods that only add to the map *)

Section Grows.

Context {G : Type} {RG : Random.Generator G}.
Variable get_furniture_for_room : string -> string -> list string.
Variable get_furniture_shapes : string -> list Z.
Variable get_npc_with_dialogue : string -> option NpcData.
Variable py_hash : string -> Z.

Lemma grows_ret {A} (a : A) : grows (G := G) (ret a).
Proof.
  intros w a' w' Hwf [= <- <-]. split; [exact Hwf|]. intros; reflexivity.
Qed.

Lemma grows_bind {A B} (c : @Gen G A) (k : A -> @Gen G B) :
  grows c -> (forall a, grows (k a)) -> grows (gbind c k).
Proof.
  intros Hc Hk w b w' Hwf. unfold gbind.
  destruct (c w) as [[a w1]|e] eqn:E; [|discriminate]. intros Hk1.
  destruct (Hc _ _ _ Hwf E) as [Hwf1 Hp1].
  destruct (Hk a _ _ _ Hwf1 Hk1) as [Hwf2 Hp2].
  split; [exact Hwf2|]. intros ox oy. etransitivity; [apply Hp1 | apply Hp2].
Qed.

Lemma grows_draw {A} (d : G -> result (A * G)) : grows (draw d).
Proof.
  intros [g s] a w' Hwf. unfold draw. simpl.
  destruct (d g) as [[a' g']|e]; [|discriminate]. intros [= <- <-].
  split; [exact Hwf|]. intros; reflexivity.
Qed.

Lemma grows_draw_total {A} (d : G -> A * G) : grows (draw_total d).
Proof.
  intros [g s] a w' Hwf. unfold draw_total. simpl.
  destruct (d g) as [a' g']. intros [= <- <-].
  split; [exact Hwf|]. intros; reflexivity.
Qed.

Lemma grows_get_self : grows (G := G) get_self.
Proof.
  intros w a w' Hwf [= <- <-]. split; [exact Hwf|]. intros; reflexivity.
Qed.

Lemma grows_modify (f : MapGenerator -> MapGenerator) :
  (forall s, ultima_map (f s) = ultima_map s) -> grows (G := G) (modify f).
Proof.
  intros Hf [g s] a w' Hwf [= <- <-]. simpl in *. rewrite Hf.
  split; [exact Hwf|]. intros; reflexivity.
Qed.

Lemma grows_add_object (obj : UltimaObject) : grows (G := G) (add_object obj).
Proof.
  intros [g s] a w' Hwf [= <- <-]. simpl in *. split.
  - apply add_object_spec. exact Hwf.
  - intros ox oy. rewrite add_object_objects_at by exact Hwf.
    apply prefix_app_r. reflexivity.
Qed.

Lemma grows_for {A} (l : list A) (body : A -> @Gen G unit) :
  (forall a, grows (body a)) -> grows (for_ l body).
Proof.
  intros Hb. induction l as [|a l IH]; simpl.
  - apply grows_ret.
  - apply grows_bind; [apply Hb | intros; exact IH].
Qed.

Ltac grows_step :=
  first [ apply grows_ret | apply grows_draw | apply grows_draw_total
        | apply grows_get_self | apply grows_add_object
        | apply grows_modify; reflexivity
        | apply grows_for; intros
        | apply grows_bind; [|intros] ].

Lemma grows__plan_rooms building_type min_x min_y max_x max_y :
  grows (G := G) (_plan_rooms building_type min_x min_y max_x max_y).
Proof.
  unfold _plan_rooms.
  repeat match goal with
         | |- grows (if ?b then _ else _) => destruct b
         end; repeat grows_step.
  destruct (negb _); repeat grows_step.
Qed.

Lemma grows_furnish_attempts n room shapes placed :
  grows (G := G) (furnish_attempts n room shapes placed).
Proof.
  induction n as [|n IH]; simpl; repeat grows_step.
  destruct (decide _); [exact IH|]. repeat grows_step.
Qed.

Lemma grows_furnish_items furniture_list room placed :
  grows (G := G) (furnish_items get_furniture_shapes furniture_list room placed).
Proof.
  revert placed.
  induction furniture_list as [|name rest IH]; intros placed; cbn [furnish_items].
  - apply grows_ret.
  - destruct (get_furniture_shapes name); [apply IH|].
    apply grows_bind; [apply grows_furnish_attempts | intros; apply IH].
Qed.

Lemma grows__generate_interior building_type min_x min_y max_x max_y :
  grows (G := G)
        (_generate_interior get_furniture_for_room get_furniture_shapes
                            building_type min_x min_y max_x max_y).
Proof.
  unfold _generate_interior. destruct (_ || _); [apply grows_ret|].
  apply grows_bind; [apply grows__plan_rooms|]. intros rooms.
  apply grows_for. intros room. unfold _furnish_room.
  destruct (get_furniture_for_room _ _); [apply grows_ret|].
  apply grows_furnish_items.
Qed.

Lemma grows__create_npc_profile npc_type building_type px py sh npc_data :
  grows (G := G) (_create_npc_profile npc_type building_type px py sh npc_data).
Proof.
  unfold _create_npc_profile, vary. repeat grows_step.
Qed.

Lemma grows_npc_attempts n npc_type building_type npc_data
      min_x min_y max_x max_y placed building_npcs :
  grows (G := G)
        (npc_attempts py_hash n npc_type building_type npc_data
                      min_x min_y max_x max_y placed building_npcs).
Proof.
  induction n as [|n IH]; simpl; repeat grows_step.
  destruct (decide _); [exact IH|].
  apply grows_bind; [apply grows_draw|]. intros sh'.
  apply grows_bind; [apply grows_add_object|]. intros _.
  apply grows_bind; [apply grows_modify; reflexivity|]. intros _.
  apply grows_bind; [apply grows__create_npc_profile|]. intros profile.
  apply grows_bind; [apply grows_modify; reflexivity|]. intros _.
  apply grows_ret.
Qed.

Lemma grows_place_npcs k npc_types building_type min_x min_y max_x max_y
      placed building_npcs :
  grows (G := G)
        (place_npcs get_npc_with_dialogue py_hash k npc_types building_type
                    min_x min_y max_x max_y placed building_npcs).
Proof.
  revert placed building_npcs.
  induction k as [|k IH]; intros placed building_npcs; cbn [place_npcs];
    [apply grows_ret|].
  apply grows_bind; [apply grows_draw|]. intros npc_type.
  destruct (get_npc_with_dialogue npc_type) as [npc_data|]; [|apply IH].
  destruct (nd_shapes npc_data); [apply IH|].
  apply grows_bind; [apply grows_npc_attempts | intros; apply IH].
Qed.

Lemma grows__create_building_relationships npc_ids :
  grows (G := G) (_create_building_relationships npc_ids).
Proof.
  unfold _create_building_relationships.
  destruct (_ <? _)%nat; [apply grows_ret|].
  intros [g s] a w' Hwf. simpl.
  destruct (relate_profiles npc_ids (npc_profiles s) g) as [profiles g'].
  intros [= <- <-]. simpl. split; [exact Hwf|]. intros; reflexivity.
Qed.

Lemma grows__place_building_npcs building_type min_x min_y max_x max_y :
  grows (G := G)
        (_place_building_npcs get_npc_with_dialogue py_hash
                              building_type min_x min_y max_x max_y).
Proof.
  unfold _place_building_npcs.
  destruct (if _ <? 16 then _ else _) as [max_npcs npc_chance].
  apply grows_bind; [apply grows_draw_total|]. intros r.
  destruct (negb _); [apply grows_ret|].
  apply grows_bind; [apply grows_draw|]. intros num_npcs.
  apply grows_bind; [apply grows_place_npcs|]. intros building_npcs.
  apply grows__create_building_relationships.
Qed.

End Grows.

(** *** The door of a building *)

Section Door.

Context {G : Type} {RG : Random.Generator G}.
Variable get_furniture_for_room : string -> string -> list string.
Variable get_furniture_shapes : string -> list Z.
Variable get_npc_with_dialogue : string -> option NpcData.
Variable py_hash : string -> Z.

(** What is left of [_process_building] after the shell only adds
    objects. *)
Lemma process_building_after_shell tags coords (w w1 w' : G * MapGenerator)
      min_x min_y max_x max_y :
  (3 <= length coords)%nat ->
  tile_bbox (transformer (snd w)) coords = (min_x, min_y, max_x, max_y) ->
  building_shell tags min_x min_y max_x max_y w = Ok (tt, w1) ->
  wf (ultima_map (snd w1)) ->
  _process_building get_furniture_for_room get_furniture_shapes
                    get_npc_with_dialogue py_hash tags coords w = Ok (tt, w') ->
  wf (ultima_map (snd w'))
  /\ forall ox oy, objects_at (ultima_map (snd w1)) ox oy
                   `prefix_of` objects_at (ultima_map (snd w')) ox oy.
Proof.
  intros Hlen Hbbox Hshell Hwf1. unfold _process_building.
  destruct (Nat.ltb_spec (length coords) 3) as [Hlt|_]; [lia|].
  unfold gbind at 1, get_self. rewrite Hbbox.
  unfold gbind at 1. rewrite Hshell.
  match goal with
  | |- ?c w1 = Ok (tt, w') -> _ => assert (Hg : grows c)
  end.
  { apply grows_bind.
    - destruct (_ && _); [|apply grows_ret].
      apply grows_bind; [apply grows__generate_interior|].
      intros _. apply grows_modify. reflexivity.
    - intros _. apply grows_bind; [apply grows__place_building_npcs|].
      intros _. apply grows_modify. reflexivity. }
  intros Hrest. exact (Hg _ _ _ Hwf1 Hrest).
Qed.

(** C10.  For a building with at least three vertices, on a well-formed
    map, the painting part of [_process_building] returns, and it places
    on the door tile [((min_x + max_x) div 2, max_y)], after the objects
    the tile had: the wall of the bottom-wall loop (preceded by the wall
    of the top-wall loop when the box is one row high), then the door,
    then the roof object; the wall, the door and every earlier object
    stay on the tile in whatever state [_process_building] returns. *)
Theorem door_stacked_on_bottom_wall tags coords (w : G * MapGenerator)
        min_x min_y max_x max_y :
  (3 <= length coords)%nat ->
  wf (ultima_map (snd w)) ->
  tile_bbox (transformer (snd w)) coords = (min_x, min_y, max_x, max_y) ->
  let door_x := (min_x + max_x) / 2 in
  let walls := dict_get (get_object_shapes tags) "walls" (dict_get OBJECT_SHAPES "wall" [151]) in
  let doors := dict_get (get_object_shapes tags) "door" (dict_get OBJECT_SHAPES "door" [270]) in
  let roofs := dict_get (get_object_shapes tags) "roof" (dict_get OBJECT_SHAPES "roof_slate" [164]) in
  exists w1 tops s_wall s_door s_roof,
    building_shell tags min_x min_y max_x max_y w = Ok (tt, w1)
    /\ objects_at (ultima_map (snd w1)) door_x max_y
       = objects_at (ultima_map (snd w)) door_x max_y ++ tops
         ++ [new_object s_wall door_x max_y 0;
             new_object s_door door_x max_y 0;
             new_object s_roof door_x max_y 4]
    /\ s_wall ∈ walls /\ s_door ∈ doors /\ s_roof ∈ roofs
    /\ (min_y < max_y -> tops = [])
    /\ (min_y = max_y ->
        exists s_top, s_top ∈ walls /\ tops = [new_object s_top door_x min_y 0])
    /\ (forall w',
          _process_building get_furniture_for_room get_furniture_shapes
                            get_npc_with_dialogue py_hash tags coords w = Ok (tt, w') ->
          objects_at (ultima_map (snd w1)) door_x max_y
            `prefix_of` objects_at (ultima_map (snd w')) door_x max_y).
Proof.
  intros Hlen Hwf Hbbox door_x walls doors roofs.
  destruct (tile_bbox_ordered _ _ _ _ _ _ Hbbox) as [Hx Hy].
  destruct (building_shell_spec tags min_x min_y max_x max_y w Hwf)
    as (g' & m1 & objs & Hshell & Hwf1 & Hobj & Hshape).
  destruct (shell_objects_door_tile _ _ _ _ _ _ _ _ Hx Hy Hshape)
    as (tops & s_wall & s_door & s_roof & Hfilter & Hw & Hd & Hr & Htop1 & Htop2).
  eexists _, tops, s_wall, s_door, s_roof. split; [exact Hshell|].
  simpl snd. simpl ultima_map. split.
  { rewrite add_objects_objects_at by exact Hwf1. rewrite Hobj.
    unfold door_x. rewrite Hfilter. reflexivity. }
  repeat (split; [assumption|]).
  intros w' Hrun.
  destruct (process_building_after_shell tags coords w _ w' _ _ _ _
              Hlen Hbbox Hshell) as [_ Hpre]; [|exact Hrun|apply Hpre].
  simpl. apply add_objects_wf. exact Hwf1.
Qed.

End Door.

(** *** Buildings that are skipped *)

Section Skip.

Context {G : Type} {RG : Random.Generator G}.
Variable get_furniture_for_room : string -> string -> list string.
Variable get_furniture_shapes : string -> list Z.
Variable get_npc_with_dialogue : string -> option NpcData.
Variable py_hash : string -> Z.

(** C3, as the code has it.  A building with fewer than three resolved
    vertices is skipped entirely: [_process_building] returns without a
    random draw and leaves the map, the NPC list and the statistics as
    they were.  The size of the bounding box plays no part. *)
Theorem building_skipped_below_three_vertices
        tags coords (w : G * MapGenerator) :
  (length coords < 3)%nat ->
  _process_building get_furniture_for_room get_furniture_shapes
                    get_npc_with_dialogue py_hash tags coords w = Ok (tt, w).
Proof.
  intros Hlen. unfold _process_building.
  destruct (Nat.ltb_spec (length coords) 3) as [_|Hge]; [reflexivity|lia].
Qed.

End Skip.

(** *** Room planning *)

Section Rooms.

Context {G : Type} {RG : Random.Generator G}.

(** A small interior is one room, and nothing is placed. *)
Lemma plan_rooms_small building_type min_x min_y max_x max_y (w : G * MapGenerator) :
  max_x - min_x < 6 \/ max_y - min_y < 6 ->
  _plan_rooms building_type min_x min_y max_x max_y w
  = Ok ([mkRoom "main" min_x min_y max_x max_y], w).
Proof.
  intros Hsmall. unfold _plan_rooms.
  destruct (Z.ltb_spec (max_x - min_x) 6), (Z.ltb_spec (max_y - min_y) 6);
    try reflexivity; lia.
Qed.

(** The split of a shop, a tavern, a castle or a government building
    returns its rooms without a random draw and without placing any
    object: the state is the one it started from. *)
Lemma plan_rooms_without_wall building_type min_x min_y max_x max_y
      (w : G * MapGenerator) :
  6 <= max_x - min_x -> 6 <= max_y - min_y ->
  building_type ∈ ["shop"; "retail"; "commercial"; "tavern"; "castle"; "government"] ->
  exists rooms,
    _plan_rooms building_type min_x min_y max_x max_y w = Ok (rooms, w)
    /\ (2 <= length rooms)%nat.
Proof.
  intros Hw Hh Hbt. unfold _plan_rooms.
  destruct (Z.ltb_spec (max_x - min_x) 6); [lia|].
  destruct (Z.ltb_spec (max_y - min_y) 6); [lia|]. simpl orb. cbv iota.
  repeat (apply elem_of_cons in Hbt as [->|Hbt]);
    [| | | | | | apply elem_of_nil in Hbt; contradiction];
    (eexists; split; [vm_compute str_in; reflexivity | simpl; lia]).
Qed.

(** The split of a house: two rooms, and one wall object per column of
    the split row except the middle column. *)
Lemma plan_rooms_house building_type min_x min_y max_x max_y (w : G * MapGenerator) :
  6 <= max_x - min_x -> 6 <= max_y - min_y ->
  building_type ∈ ["house"; "residential"] ->
  let mid_y := min_y + (max_y - min_y) / 2 in
  let walls := dict_get OBJECT_SHAPES "wall" [151] in
  exists oss g',
    _plan_rooms building_type min_x min_y max_x max_y w
    = Ok ([mkRoom "living" min_x min_y max_x mid_y;
           mkRoom "bedroom" min_x (mid_y + 1) max_x max_y],
          (g', set_ultima_map (add_objects (concat oss) (ultima_map (snd w))) (snd w)))
    /\ Forall2 (fun tx os =>
                  if decide (tx = (min_x + max_x) / 2) then os = []
                  else drawn_one walls (fun s => new_object s tx mid_y 0) os)
               (range min_x (max_x + 1)) oss.
Proof.
  intros Hw Hh Hbt mid_y walls. unfold _plan_rooms.
  destruct (Z.ltb_spec (max_x - min_x) 6); [lia|].
  destruct (Z.ltb_spec (max_y - min_y) 6); [lia|]. cbn [orb].
  assert (Hin : str_in building_type ["house"; "residential"] = true).
  { unfold str_in. apply bool_decide_eq_true. exact Hbt. }
  rewrite Hin. fold mid_y. fold walls.
  assert (Hwalls : walls <> []) by (vm_compute; discriminate).
  assert (Hloop :
    emits (G := G)
      (for_ (range min_x (max_x + 1)) (fun tx =>
         if negb (tx =? (min_x + max_x) / 2) then
           gbind (draw (Random.choice walls))
                 (fun sh => add_object (new_object sh tx mid_y 0))
         else ret tt))
      (fun objs => exists oss, objs = concat oss /\
         Forall2 (fun tx os =>
           if decide (tx = (min_x + max_x) / 2) then os = []
           else drawn_one walls (fun s => new_object s tx mid_y 0) os)
         (range min_x (max_x + 1)) oss)).
  { apply emits_for. intros tx _.
    destruct (Z.eqb_spec tx ((min_x + max_x) / 2)) as [Heq|Hne]; simpl negb; cbv iota.
    - eapply emits_weaken; [apply emits_ret|].
      intros objs ->. cbv beta. rewrite decide_True by exact Heq. reflexivity.
    - eapply emits_weaken;
        [apply (emits_choice_add walls (fun s => new_object s tx mid_y 0) Hwalls)|].
      intros objs Hobjs. cbv beta. rewrite decide_False by exact Hne. exact Hobjs. }
  destruct (Hloop w) as (objs & g' & Hrun & oss & -> & HF).
  exists oss, g'. split; [|exact HF].
  unfold gbind at 1. rewrite Hrun. reflexivity.
Qed.

(** The dividing wall of a house has exactly one open tile: after the
    split every tile of the split row has received one wall object,
    except the tile of the middle column, which has received none. *)
Lemma house_wall_one_doorway building_type min_x min_y max_x max_y
      (w : G * MapGenerator) :
  6 <= max_x - min_x -> 6 <= max_y - min_y ->
  building_type ∈ ["house"; "residential"] ->
  wf (ultima_map (snd w)) ->
  let mid_y := min_y + (max_y - min_y) / 2 in
  exists w',
    _plan_rooms building_type min_x min_y max_x max_y w
    = Ok ([mkRoom "living" min_x min_y max_x mid_y;
           mkRoom "bedroom" min_x (mid_y + 1) max_x max_y], w')
    /\ forall tx, min_x <= tx <= max_x ->
         if decide (tx = (min_x + max_x) / 2)
         then objects_at (ultima_map (snd w')) tx mid_y
              = objects_at (ultima_map (snd w)) tx mid_y
         else exists s, s ∈ dict_get OBJECT_SHAPES "wall" [151]
              /\ objects_at (ultima_map (snd w')) tx mid_y
                 = objects_at (ultima_map (snd w)) tx mid_y ++ [new_object s tx mid_y 0].
Proof.
  intros Hw Hh Hbt Hwf mid_y.
  destruct (plan_rooms_house building_type min_x min_y max_x max_y w Hw Hh Hbt)
    as (oss & g' & Hrun & HF).
  fold mid_y in Hrun, HF. eexists. split; [exact Hrun|].
  intros tx Htx. simpl snd. simpl ultima_map.
  rewrite add_objects_objects_at by exact Hwf.
  assert (Hr : min_x <= tx < max_x + 1) by lia.
  destruct (filter_concat_range _ (fun o => x o = tx /\ y o = mid_y)
              _ _ tx _ Hr HF) as (os & Hos & ->).
  { intros a os Ha Hos. destruct (decide (a = (min_x + max_x) / 2)).
    - subst os. reflexivity.
    - destruct Hos as (s & _ & ->). apply filter_tile_none. simpl. lia. }
  destruct (decide (tx = (min_x + max_x) / 2)).
  - subst os. rewrite app_nil_r. reflexivity.
  - destruct Hos as (s & Hs & ->). exists s. split; [exact Hs|].
    rewrite filter_tile_one by reflexivity. reflexivity.
Qed.

End Rooms.

End BuildingFacts.

(** ** NPC identifiers and relationships *)

Module RelationshipFacts.

Import Generator Format.

Lemma digit_value d :
  0 <= d < 10 -> Z.of_nat (nat_of_ascii (digit_char d)) - 48 = d.
Proof.
  intros Hd. unfold digit_char. rewrite nat_ascii_embedding by lia. lia.
Qed.

Lemma value_decimal_go fuel n acc :
  0 <= n -> (Z.to_nat n < fuel)%nat ->
  value_from 0 (decimal_go fuel n acc) = value_from n acc.
Proof.
  revert n acc. induction fuel as [|fuel IH]; intros n acc Hn Hf; [lia|].
  cbn [decimal_go].
  pose proof (Z.div_mod n 10 ltac:(lia)) as Hdm.
  pose proof (Z.mod_pos_bound n 10 ltac:(lia)) as Hm.
  destruct (Z.eqb_spec (n / 10) 0) as [Hz|Hnz].
  - cbn [value_from]. rewrite digit_value by lia. f_equal. lia.
  - assert (0 < n / 10) by (pose proof (Z.div_pos n 10 Hn ltac:(lia)); lia).
    rewrite IH by lia. cbn [value_from]. rewrite digit_value by lia.
    f_equal. lia.
Qed.

Lemma value_zeros k s : value_from 0 (zeros k s) = value_from 0 s.
Proof. induction k as [|k IH]; [reflexivity|]. cbn [zeros value_from]. exact IH. Qed.

(** The digits of [d04] read back as the number. *)
Lemma value_d04 n : 0 <= n -> value_from 0 (d04 n) = n.
Proof.
  intros Hn. unfold d04, decimal. rewrite value_zeros.
  rewrite value_decimal_go by lia. reflexivity.
Qed.

(** Two counters never share an identifier. *)
Lemma npc_id_of_inj a b : 0 <= a -> 0 <= b -> npc_id_of a = npc_id_of b -> a = b.
Proof.
  intros Ha Hb Heq. unfold npc_id_of in Heq.
  assert (Hd : d04 a = d04 b).
  { revert Heq. generalize (d04 a) (d04 b). intros sa sb Heq.
    cbn in Heq. injection Heq as Heq. exact Heq. }
  rewrite <- (value_d04 a Ha), <- (value_d04 b Hb), Hd.
  reflexivity.
Qed.

Section Relate.

Context {G : Type} {RG : Random.Generator G}.

(** [random.uniform(0.3, 0.7)] lies in [0.3, 0.7]. *)
Lemma uniform_strength (g : G) :
  (3 # 10 <= fst (Random.uniform (3 # 10) (7 # 10) g))%Q
  /\ (fst (Random.uniform (3 # 10) (7 # 10) g) <= 7 # 10)%Q.
Proof.
  unfold Random.uniform. pose proof (Random.random_range g) as [H0 H1].
  destruct (Random.random g) as [r g']. simpl in *. split; lra.
Qed.

(** The entries of one profile after the inner loop. *)
Lemma relate_to_spec profile_id others rel (g : G) :
  let rel' := fst (relate_to profile_id others rel g) in
  (forall k, k ∈ others -> k <> profile_id ->
     exists v, rel' !! k = Some v /\ (3 # 10 <= v)%Q /\ (v <= 7 # 10)%Q)
  /\ (forall k, ~ (k ∈ others /\ k <> profile_id) -> rel' !! k = rel !! k).
Proof.
  revert rel g. induction others as [|o others IH]; intros rel g; simpl.
  - split; [intros k Hk; apply elem_of_nil in Hk; contradiction | reflexivity].
  - destruct (String.eqb_spec o profile_id) as [->|Hne].
    + destruct (IH rel g) as [IH1 IH2]. split.
      * intros k Hk Hkp. apply IH1; [|exact Hkp].
        apply elem_of_cons in Hk as [->|Hk]; [contradiction|exact Hk].
      * intros k Hk. apply IH2. intros [Hin Hkp]. apply Hk. split; [right|]; assumption.
    + pose proof (uniform_strength g) as [Hlo Hhi].
      destruct (Random.uniform (3 # 10) (7 # 10) g) as [v g']. simpl in Hlo, Hhi.
      destruct (IH (<[o := v]> rel) g') as [IH1 IH2]. split.
      * intros k Hk Hkp. destruct (decide (k ∈ others)) as [Hin|Hnin].
        { apply IH1; assumption. }
        apply elem_of_cons in Hk as [->|Hk]; [|contradiction].
        exists v. rewrite IH2 by (intros [? _]; contradiction).
        rewrite lookup_insert_eq. auto.
      * intros k Hk. rewrite IH2.
        { apply lookup_insert_ne. intros <-. apply Hk. split; [left|]; auto. }
        intros [Hin Hkp]. apply Hk. split; [right|]; assumption.
Qed.

Lemma set_relationships_same p : set_relationships (relationships p) p = p.
Proof. destruct p; reflexivity. Qed.

(** The profiles after the outer loop, one by one. *)
Lemma relate_profiles_spec npc_ids profiles (g : G) :
  Forall2 (related npc_ids) profiles (fst (relate_profiles npc_ids profiles g)).
Proof.
  revert g. induction profiles as [|p ps IH]; intros g; simpl; [constructor|].
  unfold str_in. destruct (bool_decide_reflect (npc_id p ∈ npc_ids)) as [Hin|Hnin].
  - pose proof (relate_to_spec (npc_id p) npc_ids (relationships p) g) as Hrel.
    destruct (relate_to (npc_id p) npc_ids (relationships p) g) as [rel g1].
    specialize (IH g1). destruct (relate_profiles npc_ids ps g1) as [ps' g2].
    simpl in *. constructor; [|exact IH].
    split; [reflexivity|]. rewrite decide_True by exact Hin. simpl.
    destruct Hrel as [H1 H2]. split; [|exact H2].
    intros k Hk Hne. destruct (H1 k Hk Hne) as (v & Hv & Hs). exists v. split; assumption.
  - specialize (IH g). destruct (relate_profiles npc_ids ps g) as [ps' g2].
    simpl in *. constructor; [|exact IH].
    split; [symmetry; apply set_relationships_same|].
    rewrite decide_False by exact Hnin. reflexivity.
Qed.

(** *** Inversion of a run that returned *)

Lemma gbind_Ok {A B} (c : @Gen G A) (k : A -> @Gen G B) w b w'' :
  gbind c k w = Ok (b, w'') ->
  exists a w', c w = Ok (a, w') /\ k a w' = Ok (b, w'').
Proof.
  unfold gbind. destruct (c w) as [[a w']|e]; [|discriminate]. eauto.
Qed.

Lemma draw_Ok {A} (d : G -> result (A * G)) w a w' :
  draw d w = Ok (a, w') -> snd w' = snd w.
Proof.
  unfold draw. destruct (d (fst w)) as [[a' g']|e]; [|discriminate].
  intros [= <- <-]. reflexivity.
Qed.

Lemma draw_total_Ok {A} (d : G -> A * G) w a w' :
  draw_total d w = Ok (a, w') -> snd w' = snd w.
Proof.
  unfold draw_total. destruct (d (fst w)) as [a' g']. intros [= <- <-]. reflexivity.
Qed.

Lemma vary_Ok base w a w' : vary (G := G) base w = Ok (a, w') -> snd w' = snd w.
Proof.
  unfold vary. intros H. apply gbind_Ok in H as (u & w1 & H1 & [= <- <-]).
  exact (draw_total_Ok _ _ _ _ H1).
Qed.

(** [_create_npc_profile] advances the counter by one and returns a
    profile with the identifier of the new counter value and no
    relationship; the profile list is not touched. *)
Lemma create_npc_profile_Ok npc_type building_type px py sh npc_data
      (w : G * MapGenerator) p w' :
  _create_npc_profile npc_type building_type px py sh npc_data w = Ok (p, w') ->
  snd w' = set_npc_counter (npc_counter (snd w) + 1) (snd w)
  /\ npc_id p = npc_id_of (npc_counter (snd w) + 1)
  /\ relationships p = ∅.
Proof.
  unfold _create_npc_profile. intros H.
  apply gbind_Ok in H as ([] & w1 & [= <-] & H).
  apply gbind_Ok in H as (self & w2 & [= <- <-] & H).
  apply gbind_Ok in H as (name & w3 & H3 & H). apply draw_Ok in H3.
  apply gbind_Ok in H as (o & w4 & H4 & H). apply vary_Ok in H4.
  apply gbind_Ok in H as (c & w5 & H5 & H). apply vary_Ok in H5.
  apply gbind_Ok in H as (e & w6 & H6 & H). apply vary_Ok in H6.
  apply gbind_Ok in H as (a & w7 & H7 & H). apply vary_Ok in H7.
  apply gbind_Ok in H as (n & w8 & H8 & H). apply vary_Ok in H8.
  injection H as <- <-. simpl in *.
  split; [congruence|]. split; reflexivity.
Qed.

Lemma adds_profiles_nil s s' :
  npc_profiles s' = npc_profiles s -> npc_counter s' = npc_counter s ->
  adds_profiles s [] s'.
Proof.
  intros Hp Hc. split; [rewrite app_nil_r; exact Hp|]. split; [simpl; lia|].
  intros i p Hi. rewrite lookup_nil in Hi. discriminate.
Qed.

Lemma adds_profiles_app s n1 s1 n2 s2 :
  adds_profiles s n1 s1 -> adds_profiles s1 n2 s2 -> adds_profiles s (n1 ++ n2) s2.
Proof.
  intros (Hp1 & Hc1 & Hf1) (Hp2 & Hc2 & Hf2). split; [|split].
  - rewrite Hp2, Hp1, app_assoc. reflexivity.
  - rewrite Hc2, Hc1, length_app. lia.
  - intros i p Hi. apply lookup_app_Some in Hi as [Hi|[Hge Hi]].
    + apply Hf1. exact Hi.
    + destruct (Hf2 _ _ Hi) as [Hid Hrel]. split; [|exact Hrel].
      rewrite Hid, Hc1. f_equal. lia.
Qed.

Variable get_npc_with_dialogue : string -> option NpcData.
Variable py_hash : string -> Z.

(** One NPC: at most one profile is created, and its identifier is
    appended to [building_npcs]. *)
Lemma npc_attempts_Ok n npc_type building_type npc_data min_x min_y max_x max_y
      placed building_npcs (w : G * MapGenerator) r w' :
  npc_attempts py_hash n npc_type building_type npc_data min_x min_y max_x max_y
               placed building_npcs w = Ok (r, w') ->
  exists new, snd r = building_npcs ++ map npc_id new
              /\ adds_profiles (snd w) new (snd w').
Proof.
  revert w. induction n as [|n IH]; intros w H; cbn [npc_attempts] in H.
  - injection H as <- <-. exists []. simpl. rewrite app_nil_r.
    split; [reflexivity|]. apply adds_profiles_nil; reflexivity.
  - apply gbind_Ok in H as (px & w1 & H1 & H). apply draw_Ok in H1.
    apply gbind_Ok in H as (py & w2 & H2 & H). apply draw_Ok in H2.
    destruct (decide ((px, py) ∈ placed)).
    + destruct (IH _ H) as (new & Hr & Ha). exists new. split; [exact Hr|].
      rewrite <- H1, <- H2. exact Ha.
    + apply gbind_Ok in H as (sh & w3 & H3 & H). apply draw_Ok in H3.
      apply gbind_Ok in H as ([] & w4 & [= <-] & H).
      apply gbind_Ok in H as ([] & w5 & [= <-] & H).
      apply gbind_Ok in H as (profile & w6 & H6 & H).
      apply create_npc_profile_Ok in H6 as (Hs6 & Hid & Hrel).
      apply gbind_Ok in H as ([] & w7 & [= <-] & H).
      injection H as <- <-. exists [profile]. split; [reflexivity|].
      simpl in *. rewrite Hs6, H3, H2, H1. simpl.
      split; [reflexivity|]. split; [reflexivity|].
      intros [|i] p Hi; [|discriminate]. injection Hi as <-.
      rewrite Hid, H3, H2, H1. simpl. split; [f_equal; lia | exact Hrel].
Qed.

(** The NPC loop: the identifiers it returns are those of the profiles
    it appended, in order. *)
Lemma place_npcs_Ok k npc_types building_type min_x min_y max_x max_y
      placed building_npcs (w : G * MapGenerator) ids w' :
  place_npcs get_npc_with_dialogue py_hash k npc_types building_type
             min_x min_y max_x max_y placed building_npcs w = Ok (ids, w') ->
  exists new, ids = building_npcs ++ map npc_id new
              /\ adds_profiles (snd w) new (snd w').
Proof.
  revert placed building_npcs w.
  induction k as [|k IH]; intros placed building_npcs w H; cbn [place_npcs] in H.
  - injection H as <- <-. exists []. simpl. rewrite app_nil_r.
    split; [reflexivity|]. apply adds_profiles_nil; reflexivity.
  - apply gbind_Ok in H as (npc_type & w1 & H1 & H). apply draw_Ok in H1.
    assert (Hskip : forall w2, snd w2 = snd w ->
              place_npcs get_npc_with_dialogue py_hash k npc_types building_type
                         min_x min_y max_x max_y placed building_npcs w2 = Ok (ids, w') ->
              exists new, ids = building_npcs ++ map npc_id new
                          /\ adds_profiles (snd w) new (snd w')).
    { intros w2 Hw2 H2. destruct (IH _ _ _ H2) as (new & Hr & Ha).
      exists new. split; [exact Hr|]. rewrite <- Hw2. exact Ha. }
    destruct (get_npc_with_dialogue npc_type) as [npc_data|]; [|exact (Hskip _ H1 H)].
    destruct (nd_shapes npc_data) eqn:Hshapes; [exact (Hskip _ H1 H)|].
    apply gbind_Ok in H as (r & w2 & H2 & H).
    apply npc_attempts_Ok in H2 as (n1 & Hr1 & Ha1).
    destruct (IH _ _ _ H) as (n2 & Hr2 & Ha2).
    exists (n1 ++ n2). split.
    + rewrite Hr2, Hr1, map_app, app_assoc. reflexivity.
    + rewrite <- H1. eapply adds_profiles_app; [exact Ha1|exact Ha2].
Qed.

End Relate.

(** Fresh identifiers are pairwise distinct and differ from every
    identifier already in use. *)
Lemma fresh_profiles_NoDup counter new :
  0 <= counter -> fresh_profiles counter new -> NoDup (map npc_id new).
Proof.
  intros Hc Hf. apply NoDup_alt. intros i j id Hi Hj.
  rewrite list_lookup_fmap in Hi, Hj.
  destruct (new !! i) as [p|] eqn:Ei; [|discriminate].
  destruct (new !! j) as [q|] eqn:Ej; [|discriminate].
  simpl in Hi, Hj. destruct (Hf _ _ Ei) as [Hp _]. destruct (Hf _ _ Ej) as [Hq _].
  assert (counter + 1 + Z.of_nat i = counter + 1 + Z.of_nat j).
  { apply npc_id_of_inj; [lia|lia|]. congruence. }
  lia.
Qed.

Lemma fresh_profiles_not_numbered s new p :
  profiles_numbered s -> fresh_profiles (npc_counter s) new ->
  p ∈ npc_profiles s -> npc_id p ∉ map npc_id new.
Proof.
  intros [Hc Hall] Hf Hp Hin. rewrite Forall_forall in Hall.
  destruct (Hall _ Hp) as (n & Hn & Hid).
  apply list_elem_of_fmap in Hin as (q & Hq & Hqin).
  apply list_elem_of_lookup in Hqin as (i & Hi). destruct (Hf _ _ Hi) as [Hqid _].
  assert (n = npc_counter s + 1 + Z.of_nat i).
  { apply npc_id_of_inj; [lia|lia|]. congruence. }
  lia.
Qed.

Lemma adds_profiles_numbered s new s' :
  profiles_numbered s -> adds_profiles s new s' -> profiles_numbered s'.
Proof.
  intros [Hc Hall] (Hp & Hcount & Hf). split; [lia|].
  rewrite Hp. apply Forall_app. split.
  - eapply Forall_impl; [exact Hall|]. intros p (n & Hn & Hid). exists n. split; [lia|exact Hid].
  - apply Forall_forall. intros p Hin. apply list_elem_of_lookup in Hin as (i & Hi).
    destruct (Hf _ _ Hi) as [Hid _]. apply lookup_lt_Some in Hi.
    exists (npc_counter s + 1 + Z.of_nat i). split; [lia|exact Hid].
Qed.

Lemma related_id npc_ids p p' : related npc_ids p p' -> npc_id p' = npc_id p.
Proof. intros [-> _]. reflexivity. Qed.

Lemma related_ids npc_ids l l' :
  Forall2 (related npc_ids) l l' -> map npc_id l' = map npc_id l.
Proof.
  induction 1 as [|p p' l l' Hr HF IH]; simpl; [reflexivity|].
  rewrite IH, (related_id _ _ _ Hr). reflexivity.
Qed.

Lemma related_outside npc_ids l l' :
  Forall2 (related npc_ids) l l' ->
  (forall p, p ∈ l -> npc_id p ∉ npc_ids) -> l' = l.
Proof.
  induction 1 as [|p p' l l' Hr HF IH]; intros Hout; [reflexivity|].
  destruct Hr as [_ Hr]. rewrite decide_False in Hr by (apply Hout; left).
  rewrite Hr, IH; [reflexivity|]. intros q Hq. apply Hout. right. exact Hq.
Qed.

Lemma profiles_numbered_ids s s' :
  map npc_id (npc_profiles s') = map npc_id (npc_profiles s) ->
  npc_counter s' = npc_counter s ->
  profiles_numbered s -> profiles_numbered s'.
Proof.
  intros Hids Hc [H0 Hall]. split; [lia|].
  apply Forall_forall. intros p Hp.
  assert (Hin : npc_id p ∈ map npc_id (npc_profiles s'))
    by (apply list_elem_of_fmap; eauto).
  rewrite Hids in Hin. apply list_elem_of_fmap in Hin as (q & Hq & Hqin).
  rewrite Forall_forall in Hall. destruct (Hall q Hqin) as (n & Hn & Hid).
  exists n. split; [lia|congruence].
Qed.

Section Pass.

Context {G : Type} {RG : Random.Generator G}.
Variable get_npc_with_dialogue : string -> option NpcData.
Variable py_hash : string -> Z.

(** The relationship pass over the profiles a building has just
    received. *)
Lemma relationship_pass s new (w3 w' : G * MapGenerator) :
  profiles_numbered s ->
  adds_profiles s new (snd w3) ->
  _create_building_relationships (map npc_id new) w3 = Ok (tt, w') ->
  exists occupants,
    building_related (npc_profiles s) occupants (snd w')
    /\ profiles_numbered (snd w').
Proof.
  intros Hnum Hadd Hrun.
  pose proof (adds_profiles_numbered _ _ _ Hnum Hadd) as Hnum3.
  destruct Hadd as (Hp3 & Hc3 & Hfresh).
  pose proof (fresh_profiles_NoDup _ _ (proj1 Hnum) Hfresh) as Hnd.
  unfold _create_building_relationships in Hrun.
  destruct (Nat.ltb_spec (length (map npc_id new)) 2) as [Hlt|Hge].
  - injection Hrun as <-. exists new. split; [|exact Hnum3].
    split; [exact Hp3|]. split; [exact Hnd|]. split.
    + intros A B HA HB Hne. exfalso. apply Hne.
      apply list_elem_of_lookup in HA as (i & Hi).
      apply list_elem_of_lookup in HB as (j & Hj).
      rewrite length_map in Hlt.
      pose proof (lookup_lt_Some _ _ _ Hi). pose proof (lookup_lt_Some _ _ _ Hj).
      assert (i = j) by lia. subst j. congruence.
    + intros A k HA [v Hv]. apply list_elem_of_lookup in HA as (i & Hi).
      destruct (Hfresh _ _ Hi) as [_ Hrel]. rewrite Hrel, lookup_empty in Hv.
      discriminate.
  - pose proof (relate_profiles_spec (map npc_id new) (npc_profiles (snd w3)) (fst w3))
      as HF.
    destruct (relate_profiles (map npc_id new) (npc_profiles (snd w3)) (fst w3))
      as [ps' g'].
    injection Hrun as <-. simpl in HF. simpl.
    rewrite Hp3 in HF. apply Forall2_app_inv_l in HF as (old' & new' & Hold & Hnew & ->).
    assert (old' = npc_profiles s) as ->.
    { apply (related_outside _ _ _ Hold). intros p Hp.
      exact (fresh_profiles_not_numbered _ _ _ Hnum Hfresh Hp). }
    pose proof (related_ids _ _ _ Hnew) as Hids.
    exists new'. split.
    + split; [reflexivity|]. split; [rewrite Hids; exact Hnd|]. split.
      * intros A B HA HB Hne.
        apply list_elem_of_lookup in HA as (i & Hi).
        destruct (Forall2_lookup_r _ _ _ _ _ Hnew Hi) as (p & Hpi & [HAp Hrel]).
        assert (Hpin : npc_id p ∈ map npc_id new).
        { apply list_elem_of_fmap. exists p. split; [reflexivity|].
          eapply list_elem_of_lookup_2; eauto. }
        rewrite decide_True in Hrel by exact Hpin. destruct Hrel as [Hentry _].
        apply Hentry.
        -- rewrite <- Hids. apply list_elem_of_fmap. eauto.
        -- rewrite HAp in Hne. simpl in Hne. congruence.
      * intros A k HA [v Hv].
        apply list_elem_of_lookup in HA as (i & Hi).
        destruct (Forall2_lookup_r _ _ _ _ _ Hnew Hi) as (p & Hpi & [HAp Hrel]).
        assert (Hpin : npc_id p ∈ map npc_id new).
        { apply list_elem_of_fmap. exists p. split; [reflexivity|].
          eapply list_elem_of_lookup_2; eauto. }
        rewrite decide_True in Hrel by exact Hpin. destruct Hrel as [_ Hkeep].
        assert (HidA : npc_id A = npc_id p) by (rewrite HAp; reflexivity).
        destruct (decide (k ∈ map npc_id new /\ k <> npc_id p)) as [[Hk Hkp]|Hn].
        -- split; [congruence|]. rewrite <- Hids in Hk.
           apply list_elem_of_fmap in Hk as (B & -> & HB). eauto.
        -- rewrite (Hkeep k Hn) in Hv. destruct (Hfresh _ _ Hpi) as [_ Hempty].
           rewrite Hempty, lookup_empty in Hv. discriminate.
    + apply (profiles_numbered_ids (snd w3)); [|reflexivity|exact Hnum3].
      simpl. rewrite Hp3, !map_app, Hids. reflexivity.
Qed.

(** Relationships of one building, from [_place_building_npcs] to the
    end of the relationship pass. *)
Lemma place_building_npcs_related building_type min_x min_y max_x max_y
      (w w' : G * MapGenerator) :
  profiles_numbered (snd w) ->
  _place_building_npcs get_npc_with_dialogue py_hash
                       building_type min_x min_y max_x max_y w = Ok (tt, w') ->
  exists occupants,
    building_related (npc_profiles (snd w)) occupants (snd w')
    /\ profiles_numbered (snd w').
Proof.
  intros Hnum Hrun. unfold _place_building_npcs in Hrun.
  destruct (if _ <? 16 then _ else _) as [max_npcs npc_chance].
  apply gbind_Ok in Hrun as (r & w1 & H1 & Hrun). apply draw_total_Ok in H1.
  destruct (negb _).
  - injection Hrun as <-. exists []. rewrite H1. split; [|exact Hnum].
    split; [rewrite app_nil_r; reflexivity|]. split; [constructor|].
    split; intros A ? HA; apply elem_of_nil in HA; contradiction.
  - apply gbind_Ok in Hrun as (num_npcs & w2 & H2 & Hrun). apply draw_Ok in H2.
    apply gbind_Ok in Hrun as (ids & w3 & H3 & Hrun).
    apply place_npcs_Ok in H3 as (new & -> & Hadd). simpl in Hrun.
    rewrite H2, H1 in Hadd.
    exact (relationship_pass _ _ _ _ Hnum Hadd Hrun).
Qed.

End Pass.

End RelationshipFacts.

(** ** Closed runs of the building planner *)

Module BuildingRuns.

Import Grid Generator Tape Scenario.

(** C3 as the specification states it fails on the two-by-two building:
    its bounding box is
    (5,5)-(6,6), and [_process_building] paints its floor and places its
    walls, its door and its roof. *)
Lemma small_building_is_painted :
  tile_bbox (transformer world0) small_building = (5, 5, 6, 6)
  /\ exists w',
       _process_building no_furniture_for_room no_furniture_shapes townsman_data hash0
         {[ "building" := "yes" ]} small_building
         (replicate 13 0 ++ [500], world0) = Ok (tt, w')
       /\ terrain_at (ultima_map (snd w')) 5 5 = Some 189
       /\ terrain_at (ultima_map (snd w')) 6 6 = Some 189
       /\ objects_at (ultima_map (snd w')) 5 5
          = [new_object 151 5 5 0; new_object 164 5 5 4]
       /\ objects_at (ultima_map (snd w')) 5 6
          = [new_object 151 5 6 0; new_object 270 5 6 0; new_object 164 5 6 4]
       /\ buildings_processed (stats (snd w')) = 1.
Proof.
  split; [vm_compute; reflexivity|].
  eexists. split; [vm_compute; reflexivity|].
  repeat split; vm_compute; reflexivity.
Qed.

(** On the same building, when the spawn sample passes, the NPC
    placement draws [random.randint(6, 5)] and raises. *)
Example small_building_npc_placement_raises :
  _process_building no_furniture_for_room no_furniture_shapes townsman_data hash0
    {[ "building" := "yes" ]} small_building
    (replicate 13 0 ++ [100], world0) = Raise ValueError.
Proof. vm_compute. reflexivity. Qed.

(** The skip of C3 on a way with two resolved vertices. *)
Lemma building_skipped_below_three_vertices_witness :
  _process_building no_furniture_for_room no_furniture_shapes townsman_data hash0
    {[ "building" := "yes" ]} [at_tile 5 5; at_tile 9 9] ([7; 7], world0)
  = Ok (tt, ([7; 7], world0)).
Proof.
  apply (BuildingFacts.building_skipped_below_three_vertices
           no_furniture_for_room no_furniture_shapes townsman_data hash0).
  simpl. lia.
Defined.

(** C10 on the two-by-two building of tiles (5,5)-(6,6): the door tile
    is (5, 6). *)
Lemma door_stacked_on_bottom_wall_witness :
  exists w1 tops s_wall s_door s_roof,
    building_shell {[ "building" := "yes" ]} 5 5 6 6 (([] : list Z), world0)
    = Ok (tt, w1)
    /\ objects_at (ultima_map (snd w1)) ((5 + 6) / 2) 6
       = objects_at (ultima_map world0) ((5 + 6) / 2) 6 ++ tops
         ++ [new_object s_wall ((5 + 6) / 2) 6 0;
             new_object s_door ((5 + 6) / 2) 6 0;
             new_object s_roof ((5 + 6) / 2) 6 4]
    /\ s_wall ∈ dict_get (get_object_shapes {[ "building" := "yes" ]}) "walls"
                         (dict_get OBJECT_SHAPES "wall" [151])
    /\ s_door ∈ dict_get (get_object_shapes {[ "building" := "yes" ]}) "door"
                         (dict_get OBJECT_SHAPES "door" [270])
    /\ s_roof ∈ dict_get (get_object_shapes {[ "building" := "yes" ]}) "roof"
                         (dict_get OBJECT_SHAPES "roof_slate" [164])
    /\ (5 < 6 -> tops = [])
    /\ (5 = 6 -> exists s_top,
          s_top ∈ dict_get (get_object_shapes {[ "building" := "yes" ]}) "walls"
                           (dict_get OBJECT_SHAPES "wall" [151])
          /\ tops = [new_object s_top ((5 + 6) / 2) 5 0])
    /\ (forall w',
          _process_building no_furniture_for_room no_furniture_shapes townsman_data hash0
            {[ "building" := "yes" ]} small_building (([] : list Z), world0) = Ok (tt, w') ->
          objects_at (ultima_map (snd w1)) ((5 + 6) / 2) 6
            `prefix_of` objects_at (ultima_map (snd w')) ((5 + 6) / 2) 6).
Proof.
  apply (BuildingFacts.door_stacked_on_bottom_wall
           no_furniture_for_room no_furniture_shapes townsman_data hash0
           {[ "building" := "yes" ]} small_building (([] : list Z), world0) 5 5 6 6).
  - simpl. lia.
  - apply GridFacts.new_map_wf.
  - vm_compute. reflexivity.
Defined.

(** C4, on the interior (1,1)-(8,8) of a 10x10-tile footprint: the
    split of a shop, of a tavern and of a castle returns two or three
    rooms and leaves the state as it was, so no wall object stands on
    a split line; this holds for every shop, retail, commercial,
    tavern, castle and government building of an interior at least six
    wide and six high.  Only the house and residential branch places a
    dividing wall. *)
Theorem split_without_interior_wall :
  _plan_rooms "shop" 1 1 8 8 ([3; 1; 4], world0)
  = Ok ([mkRoom "showroom" 1 1 8 5; mkRoom "storage" 1 6 8 8], ([3; 1; 4], world0))
  /\ _plan_rooms "tavern" 1 1 8 8 ([3; 1; 4], world0)
     = Ok ([mkRoom "main" 1 1 5 8; mkRoom "kitchen" 6 1 8 4; mkRoom "bedroom" 6 5 8 8],
           ([3; 1; 4], world0))
  /\ _plan_rooms "castle" 1 1 8 8 ([3; 1; 4], world0)
     = Ok ([mkRoom "throne" 1 1 4 8; mkRoom "hall" 5 1 8 8], ([3; 1; 4], world0))
  /\ (forall (G : Type) (RG : Random.Generator G) building_type min_x min_y max_x max_y
             (w : G * MapGenerator),
        6 <= max_x - min_x -> 6 <= max_y - min_y ->
        building_type ∈ ["shop"; "retail"; "commercial"; "tavern"; "castle"; "government"] ->
        exists rooms,
          _plan_rooms building_type min_x min_y max_x max_y w = Ok (rooms, w)
          /\ (2 <= length rooms)%nat)
  /\ (exists w',
        _plan_rooms "house" 1 1 8 8 (([] : list Z), world0)
        = Ok ([mkRoom "living" 1 1 8 4; mkRoom "bedroom" 1 5 8 8], w')
        /\ map (fun tx => length (objects_at (ultima_map (snd w')) tx 4)) (range 1 9)
           = [1; 1; 1; 0; 1; 1; 1; 1]%nat).
Proof.
  split; [vm_compute; reflexivity|].
  split; [vm_compute; reflexivity|].
  split; [vm_compute; reflexivity|].
  split.
  - intros G RG. apply BuildingFacts.plan_rooms_without_wall.
  - eexists. split; vm_compute; reflexivity.
Qed.

(** A fresh generator has no profile, so its profiles are numbered. *)
Lemma new_generator_numbered bb size : profiles_numbered (new_generator bb size).
Proof. split; [simpl; lia | constructor]. Qed.

(** C8.  Whenever [_place_building_npcs] returns, the profile list is
    the list it was, followed by the occupants of this building; the
    occupants have distinct identifiers; every occupant has, for every
    other occupant, an entry whose strength lies in [0.3, 0.7]; and every
    entry of an occupant is for another occupant of the same building:
    the profiles of earlier buildings are not touched.  Each direction
    is a draw of its own: on the tape [two_npc_tape] the strength from
    the first occupant to the second is 0.4 and the strength back is
    0.6. *)
Theorem building_relationships_directed :
  (forall (G : Type) (RG : Random.Generator G)
          (get_npc_with_dialogue : string -> option NpcData) (py_hash : string -> Z)
          building_type min_x min_y max_x max_y (w w' : G * MapGenerator),
      profiles_numbered (snd w) ->
      _place_building_npcs get_npc_with_dialogue py_hash
                           building_type min_x min_y max_x max_y w = Ok (tt, w') ->
      exists occupants,
        building_related (npc_profiles (snd w)) occupants (snd w')
        /\ profiles_numbered (snd w'))
  /\ (exists w' A B vAB vBA,
        _place_building_npcs townsman_data hash0 "house" 1 1 8 8 (two_npc_tape, world0)
        = Ok (tt, w')
        /\ npc_profiles (snd w') = [A; B]
        /\ relationships A !! npc_id B = Some vAB
        /\ relationships B !! npc_id A = Some vBA
        /\ (vAB == 4 # 10)%Q /\ (vBA == 6 # 10)%Q).
Proof.
  split.
  - intros G RG gnwd ph. apply RelationshipFacts.place_building_npcs_related.
  - eexists _, _, _, _, _. split; [vm_compute; reflexivity|].
    split; [reflexivity|]. split; [vm_compute; reflexivity|].
    split; [vm_compute; reflexivity|]. split; reflexivity.
Qed.

(** C8 on the house of [two_npc_tape]. *)
Lemma building_relationships_directed_witness :
  exists w' occupants,
    _place_building_npcs townsman_data hash0 "house" 1 1 8 8 (two_npc_tape, world0)
    = Ok (tt, w')
    /\ building_related (npc_profiles world0) occupants (snd w')
    /\ profiles_numbered (snd w').
Proof.
  destruct building_relationships_directed as [Hall _].
  assert (Hrun : exists w',
             _place_building_npcs townsman_data hash0 "house" 1 1 8 8
                                  (two_npc_tape, world0) = Ok (tt, w'))
    by (eexists; vm_compute; reflexivity).
  destruct Hrun as [w' Hrun].
  destruct (Hall _ _ townsman_data hash0 "house" 1 1 8 8 (two_npc_tape, world0) w'
                 (new_generator_numbered _ _) Hrun) as (occupants & Hrel & Hnum).
  exists w', occupants. auto.
Defined.

End BuildingRuns.

(** ** Randomness and reproducibility *)

Module RandomFacts.

Import Grid RasterFacts Generator Tape Scenario.

Section Draws.

Context {G : Type} {RG : Random.Generator G}.









End Draws.




(** Two seeded runs of a waterway over two tiles paint the same
    terrain; the same pass without a seed paints what the state of the
    generator dictates. *)
Example seeded_waterway_runs :
  seeded_run (fun _ => Some 7) (fun _ => 0) (Some "7")
    (_draw_line_terrain (at_tile 5 5) (at_tile 6 5) [4; 31] 3) [1; 0; 1] world0
  = seeded_run (fun _ => Some 7) (fun _ => 0) (Some "7")
      (_draw_line_terrain (at_tile 5 5) (at_tile 6 5) [4; 31] 3) [0; 0] world0
  /\ session_outcome
       (seeded_run (fun _ => Some 7) (fun _ => 0) None
          (_draw_line_terrain (at_tile 5 5) (at_tile 5 5) [4; 31] 3) [1] world0)
     <> session_outcome
          (seeded_run (fun _ => Some 7) (fun _ => 0) None
             (_draw_line_terrain (at_tile 5 5) (at_tile 5 5) [4; 31] 3) [0] world0).
Proof.
  split; [reflexivity|]. vm_compute. discriminate.
Qed.

End RandomFacts.

(** ** Tiles of the grid: what a write changes and what it leaves *)

Module TileFacts.
Import Grid GridFacts.

Lemma tile_terrain_view m tx ty :
  wf m ->
  tile_terrain m tx ty =
  (row ← terrain (default new_chunk (chunk_view m (tx / 16, ty / 16)))
         !! Z.to_nat (ty mod 16);
   row !! Z.to_nat (tx mod 16)).
Proof.
  intros Hwf. unfold tile_terrain.
  pose proof (deref_get_chunk m (tx / 16) (ty / 16) Hwf) as Hd.
  destruct (get_chunk m (tx / 16) (ty / 16)) as [m1 l]. simpl in Hd.
  unfold read_terrain. rewrite Hd. reflexivity.
Qed.

(** The cells of a grid after [t[ly][lx] = v]. *)
Lemma terrain_assign_cells t ly lx v t' i j :
  terrain_assign t ly lx v = Ok t' ->
  (row ← t' !! i; row !! j) =
  if decide (i = Z.to_nat ly /\ j = Z.to_nat lx) then Some v
  else (row ← t !! i; row !! j).
Proof.
  unfold terrain_assign.
  destruct (t !! Z.to_nat ly) as [row|] eqn:Hrow; [|discriminate].
  case_decide as Hlen; [|discriminate]. intros [= <-].
  destruct (decide (i = Z.to_nat ly)) as [->|Hi].
  - rewrite list_lookup_insert_eq by (eapply lookup_lt_Some; eauto). simpl.
    destruct (decide (j = Z.to_nat lx)) as [->|Hj].
    + rewrite decide_True by (split; reflexivity).
      apply list_lookup_insert_eq. exact Hlen.
    + rewrite decide_False by (intros [_ ?]; contradiction).
      rewrite list_lookup_insert_ne by congruence. rewrite Hrow. reflexivity.
  - rewrite decide_False by (intros [? _]; contradiction).
    rewrite list_lookup_insert_ne by congruence. reflexivity.
Qed.

(** [set_terrain] on a well-formed map, with the grid it stores. *)
Lemma set_terrain_view m tx ty v :
  wf m ->
  exists m' t',
    set_terrain m tx ty v = Ok m' /\ wf m'
    /\ (forall k, chunk_view m' k =
          if decide (k = (tx / 16, ty / 16))
          then Some {| terrain := t';
                       objects := objects (default new_chunk (chunk_view m k)) |}
          else chunk_view m k)
    /\ terrain_assign (terrain (default new_chunk (chunk_view m (tx / 16, ty / 16))))
                      (ty mod 16) (tx mod 16) v = Ok t'.
Proof.
  intros Hwf. unfold set_terrain.
  pose proof (get_chunk_wf m (tx / 16) (ty / 16) Hwf) as Hwf1.
  pose proof (get_chunk_lookup m (tx / 16) (ty / 16)) as Hk.
  pose proof (deref_get_chunk m (tx / 16) (ty / 16) Hwf) as Hd.
  pose proof (get_chunk_view m (tx / 16) (ty / 16)) as Hv.
  destruct (get_chunk m (tx / 16) (ty / 16)) as [m1 l]. simpl in *.
  rewrite Hd.
  destruct (default_view_rows_ok m (tx / 16, ty / 16) Hwf) as [Hlen Hrows].
  destruct (terrain_assign_ok _ (ty mod 16) (tx mod 16) v Hlen Hrows)
    as (t' & Ht & Hlen' & Hrows' & Hread).
  { apply Z.mod_pos_bound; lia. }
  { apply Z.mod_pos_bound; lia. }
  rewrite Ht. simpl. eexists _, t'. split; [reflexivity|]. split; [|split].
  - eapply store_wf; eauto. split; assumption.
  - intros k. rewrite (store_view m1 _ l _ k Hwf1 Hk).
    case_decide; [subst k; reflexivity|].
    rewrite (Hv k Hwf). rewrite decide_False by assumption. reflexivity.
  - reflexivity.
Qed.

(** Two tiles with the same chunk and the same place in it coincide. *)
Lemma tile_decompose (a b : Z) :
  a / 16 = b / 16 -> Z.to_nat (a mod 16) = Z.to_nat (b mod 16) -> a = b.
Proof.
  intros Hd Hm.
  pose proof (Z.mod_pos_bound a 16 ltac:(lia)).
  pose proof (Z.mod_pos_bound b 16 ltac:(lia)).
  pose proof (Z.div_mod a 16 ltac:(lia)).
  pose proof (Z.div_mod b 16 ltac:(lia)).
  lia.
Qed.

(** The tiles and the objects after a [set_terrain]. *)
Lemma set_terrain_tiles (m : UltimaMap) (tx ty v : Z) :
  wf m ->
  exists m', set_terrain m tx ty v = Ok m' /\ wf m'
    /\ (forall tx' ty', tile_terrain m' tx' ty' =
          if decide (tx' = tx /\ ty' = ty) then Some v else tile_terrain m tx' ty')
    /\ (forall ox oy, objects_at m' ox oy = objects_at m ox oy).
Proof.
  intros Hwf.
  destruct (set_terrain_view m tx ty v Hwf) as (m' & t' & Hs & Hwf' & Hv & Ht).
  exists m'. split; [exact Hs|]. split; [exact Hwf'|]. split.
  - intros tx' ty'. rewrite !tile_terrain_view by assumption. rewrite Hv.
    destruct (decide ((tx' / 16, ty' / 16) = (tx / 16, ty / 16))) as [Hc|Hc].
    + simpl. injection Hc as Hcx Hcy. rewrite Hcx, Hcy.
      rewrite (terrain_assign_cells _ _ _ _ _ _ _ Ht).
      destruct (decide (tx' = tx /\ ty' = ty)) as [[-> ->]|Hne].
      * rewrite decide_True by (split; reflexivity). reflexivity.
      * rewrite decide_False; [reflexivity|].
        intros [Hy Hx]. apply Hne. split; apply tile_decompose; assumption.
    + rewrite decide_False; [reflexivity|].
      intros [-> ->]. apply Hc. reflexivity.
  - intros ox oy. unfold objects_at. rewrite !chunk_objects_view, Hv.
    case_decide as Hc; [|reflexivity]. rewrite Hc. reflexivity.
Qed.

(** X1.  On a well-formed map [set_terrain(x, y, v)] returns a
    well-formed map on which the tile [(x, y)] reads [v] and every other
    tile reads what it read before, a tile of a chunk that did not exist
    included; no tile gains or loses an object.  Two writes to one tile
    leave the value of the second. *)
Theorem set_terrain_writes_one_tile (m : UltimaMap) (tx ty v : Z) :
  wf m ->
  (exists m', set_terrain m tx ty v = Ok m' /\ wf m'
     /\ (forall tx' ty', tile_terrain m' tx' ty' =
           if decide (tx' = tx /\ ty' = ty) then Some v else tile_terrain m tx' ty')
     /\ (forall ox oy, objects_at m' ox oy = objects_at m ox oy))
  /\ (forall v2, exists m1 m2,
        set_terrain m tx ty v = Ok m1 /\ set_terrain m1 tx ty v2 = Ok m2
        /\ forall tx' ty', tile_terrain m2 tx' ty' =
             if decide (tx' = tx /\ ty' = ty) then Some v2 else tile_terrain m tx' ty').
Proof.
  intros Hwf. split; [apply set_terrain_tiles; exact Hwf|].
  intros v2.
  destruct (set_terrain_tiles m tx ty v Hwf) as (m1 & Hs1 & Hwf1 & Ht1 & _).
  destruct (set_terrain_tiles m1 tx ty v2 Hwf1) as (m2 & Hs2 & _ & Ht2 & _).
  exists m1, m2. split; [exact Hs1|]. split; [exact Hs2|].
  intros tx' ty'. rewrite Ht2, Ht1. case_decide; reflexivity.
Qed.

(** X1 on the tile (17, 33) of an empty map. *)
Lemma set_terrain_writes_one_tile_witness :
  (exists m', set_terrain (new_map 16 16) 17 33 10 = Ok m' /\ wf m'
     /\ (forall tx' ty', tile_terrain m' tx' ty' =
           if decide (tx' = 17 /\ ty' = 33) then Some 10
           else tile_terrain (new_map 16 16) tx' ty')
     /\ (forall ox oy, objects_at m' ox oy = objects_at (new_map 16 16) ox oy))
  /\ (forall v2, exists m1 m2,
        set_terrain (new_map 16 16) 17 33 10 = Ok m1
        /\ set_terrain m1 17 33 v2 = Ok m2
        /\ forall tx' ty', tile_terrain m2 tx' ty' =
             if decide (tx' = 17 /\ ty' = 33) then Some v2
             else tile_terrain (new_map 16 16) tx' ty').
Proof.
  apply (set_terrain_writes_one_tile (new_map 16 16) 17 33 10).
  apply new_map_wf.
Defined.

(** A tile of a chunk that does not exist reads as default grass. *)
Lemma tile_terrain_absent m tx ty :
  wf m -> chunk_view m (tx / 16, ty / 16) = None -> tile_terrain m tx ty = Some 4.
Proof.
  intros Hwf Hv. rewrite tile_terrain_view by assumption. rewrite Hv.
  unfold new_chunk. cbn [default terrain].
  pose proof (Z.mod_pos_bound ty 16 ltac:(lia)).
  pose proof (Z.mod_pos_bound tx 16 ltac:(lia)).
  rewrite lookup_replicate_2 by lia. cbn [mbind option_bind].
  apply lookup_replicate_2. lia.
Qed.

(** X2.  On a well-formed map [add_object(obj)] appends the object to
    the objects of the tile [(obj.x, obj.y)], after those placed there
    before; every other tile keeps its objects and every tile keeps its
    terrain. *)
Theorem add_object_places_on_own_tile (m : UltimaMap) (o : UltimaObject) :
  wf m ->
  wf (add_object m o)
  /\ objects_at (add_object m o) (x o) (y o) = objects_at m (x o) (y o) ++ [o]
  /\ (forall tx ty, ~ (tx = x o /\ ty = y o) ->
        objects_at (add_object m o) tx ty = objects_at m tx ty)
  /\ (forall tx ty, tile_terrain (add_object m o) tx ty = tile_terrain m tx ty).
Proof.
  intros Hwf. destruct (add_object_spec m o Hwf) as [Hwf' Hv].
  split; [exact Hwf'|]. split; [|split].
  - rewrite add_object_objects_at by assumption.
    rewrite decide_True by (split; reflexivity). reflexivity.
  - intros tx ty Hne. rewrite add_object_objects_at by assumption.
    rewrite decide_False by (intros [? ?]; apply Hne; split; congruence).
    apply app_nil_r.
  - intros tx ty. rewrite !tile_terrain_view by assumption. rewrite Hv.
    case_decide as Hc; [|reflexivity]. rewrite Hc. reflexivity.
Qed.

(** X2 for a door placed on the tile (20, 5) of an empty map. *)
Lemma add_object_places_on_own_tile_witness :
  wf (add_object (new_map 16 16) (new_object 270 20 5 0))
  /\ objects_at (add_object (new_map 16 16) (new_object 270 20 5 0)) 20 5
     = objects_at (new_map 16 16) 20 5 ++ [new_object 270 20 5 0]
  /\ (forall tx ty, ~ (tx = 20 /\ ty = 5) ->
        objects_at (add_object (new_map 16 16) (new_object 270 20 5 0)) tx ty
        = objects_at (new_map 16 16) tx ty)
  /\ (forall tx ty,
        tile_terrain (add_object (new_map 16 16) (new_object 270 20 5 0)) tx ty
        = tile_terrain (new_map 16 16) tx ty).
Proof.
  apply (add_object_places_on_own_tile (new_map 16 16) (new_object 270 20 5 0)).
  apply new_map_wf.
Defined.

Lemma get_chunk_chunk_objects m cx cy kx ky :
  wf m -> chunk_objects (fst (get_chunk m cx cy)) kx ky = chunk_objects m kx ky.
Proof.
  intros Hwf. rewrite !chunk_objects_view, get_chunk_view by assumption.
  case_decide; reflexivity.
Qed.

Lemma set_terrain_chunk_objects m tx ty v m' kx ky :
  wf m -> set_terrain m tx ty v = Ok m' ->
  wf m' /\ chunk_objects m' kx ky = chunk_objects m kx ky.
Proof.
  intros Hwf Hs.
  destruct (set_terrain_view m tx ty v Hwf) as (m'' & t' & Hs' & Hwf' & Hv & _).
  rewrite Hs in Hs'. injection Hs' as <-. split; [exact Hwf'|].
  rewrite !chunk_objects_view, Hv. case_decide as Hc; [|reflexivity].
  rewrite Hc. reflexivity.
Qed.

Lemma tile_terrain_is_Some m tx ty : wf m -> is_Some (tile_terrain m tx ty).
Proof.
  intros Hwf. rewrite tile_terrain_view by assumption.
  destruct (default_view_rows_ok m (tx / 16, ty / 16) Hwf) as [Hlen Hrows].
  pose proof (Z.mod_pos_bound ty 16 ltac:(lia)).
  pose proof (Z.mod_pos_bound tx 16 ltac:(lia)).
  destruct (lookup_lt_is_Some_2 _ (Z.to_nat (ty mod 16)) ltac:(rewrite Hlen; lia))
    as [row Hrow].
  rewrite Hrow. simpl. apply lookup_lt_is_Some_2.
  rewrite Forall_forall in Hrows.
  rewrite (Hrows row) by (eapply list_elem_of_lookup_2; eauto). lia.
Qed.

(** X3.  Every map built from [UltimaMap(...)] by calls of [get_chunk],
    [set_terrain] and [add_object] is well formed; each of its objects
    is stored in the chunk [(x div 16, y div 16)] that owns its tile and
    in no other; and every tile, wherever it lies, reads a terrain id. *)
Theorem built_objects_owned (m : UltimaMap) :
  built m ->
  wf m /\ objects_owned m /\ (forall tx ty, is_Some (tile_terrain m tx ty)).
Proof.
  intros Hb.
  assert (H : wf m /\ objects_owned m).
  { induction Hb as [w h|m cx cy Hb [IHw IHo]|m tx ty v m' Hb [IHw IHo] Hs
                     |m o Hb [IHw IHo]].
    - split; [apply new_map_wf|]. intros cx cy o. unfold chunk_objects. simpl.
      rewrite lookup_empty. intros Ho. inversion Ho.
    - split; [apply get_chunk_wf; exact IHw|].
      intros kx ky o. rewrite get_chunk_chunk_objects by assumption. apply IHo.
    - split; [eapply set_terrain_chunk_objects; eauto; exact 0|].
      intros kx ky o.
      destruct (set_terrain_chunk_objects m tx ty v m' kx ky IHw Hs) as [_ ->].
      apply IHo.
    - split; [apply add_object_spec; exact IHw|].
      intros kx ky o'. rewrite add_object_chunk_objects by assumption.
      rewrite elem_of_app. intros [Ho|Ho]; [apply IHo; exact Ho|].
      case_decide as Hc; [|inversion Ho].
      apply list_elem_of_singleton in Ho. subst o'.
      injection Hc as -> ->. split; reflexivity. }
  destruct H as [Hw Ho]. split; [exact Hw|]. split; [exact Ho|].
  intros tx ty. apply tile_terrain_is_Some. exact Hw.
Qed.

(** X3 on a map with one painted tile and one object. *)
Lemma built_objects_owned_witness :
  wf (add_object (new_map 2 2) (new_object 270 20 5 0))
  /\ objects_owned (add_object (new_map 2 2) (new_object 270 20 5 0))
  /\ (forall tx ty,
        is_Some (tile_terrain (add_object (new_map 2 2) (new_object 270 20 5 0)) tx ty)).
Proof.
  apply (built_objects_owned (add_object (new_map 2 2) (new_object 270 20 5 0))).
  apply built_add_object. apply built_new.
Defined.

End TileFacts.

(** ** The arithmetic of the object record *)

Module EncodingFacts.
Import Ireg.

Lemma land_shiftl_low a b n :
  0 <= n -> 0 <= b < 2 ^ n -> Z.land (Z.shiftl a n) b = 0.
Proof.
  intros Hn Hb. apply Z.bits_inj'. intros i Hi.
  rewrite Z.land_spec, Z.bits_0.
  destruct (Z.lt_ge_cases i n) as [Hlt|Hge].
  - rewrite Z.shiftl_spec_low by exact Hlt. reflexivity.
  - destruct (Z.eq_dec b 0) as [->|Hb0].
    + rewrite Z.bits_0. apply andb_false_r.
    + rewrite (Z.bits_above_log2 b i); [apply andb_false_r|lia|].
      assert (Z.log2 b < n) by (apply Z.log2_lt_pow2; lia). lia.
Qed.

(** Two fields packed into one byte by a shift and an or are added. *)
Lemma lor_shiftl_add a b n :
  0 <= n -> 0 <= b < 2 ^ n -> Z.lor (Z.shiftl a n) b = a * 2 ^ n + b.
Proof.
  intros Hn Hb. pose proof (land_shiftl_low a b n Hn Hb) as Hl.
  rewrite <- (Z.lxor_lor _ _ Hl), <- (Z.add_nocarry_lxor _ _ Hl).
  rewrite Z.shiftl_mul_pow2 by exact Hn. reflexivity.
Qed.

Lemma position_byte_mod v :
  Z.lor (Z.shiftl ((v / 16) mod 16) 4) (v mod 16) = v mod 256.
Proof.
  rewrite lor_shiftl_add by (pose proof (Z.mod_pos_bound v 16); lia).
  change 256 with (16 * 16). rewrite Z.rem_mul_r by lia. lia.
Qed.

Lemma shape_frame_byte_sum vshape vframe :
  Z.lor (Z.land (Z.shiftr vshape 8) 3) (Z.shiftl vframe 2)
  = (vshape / 256) mod 4 + 4 * vframe.
Proof.
  rewrite Z.lor_comm. change 3 with (Z.ones 2).
  rewrite Z.land_ones, Z.shiftr_div_pow2 by lia.
  change (2 ^ 8) with 256. change (2 ^ 2) with 4.
  rewrite lor_shiftl_add by (pose proof (Z.mod_pos_bound (vshape / 256) 4); lia).
  lia.
Qed.

(** The record in arithmetic terms: the position bytes wrap modulo 256
    tiles, the shape is cut to ten bits over bytes 3 and 4, the lift to
    four bits and the quality to eight. *)
Lemma record_layout_arith vx vy vshape vframe vlift vquality :
  record_layout vx vy vshape vframe vlift vquality =
  [ 10; vx mod 256; vy mod 256; vshape mod 256;
    (vshape / 256) mod 4 + 4 * vframe; vlift mod 16; vquality mod 256; 0; 0; 0 ].
Proof.
  unfold record_layout.
  rewrite !position_byte_mod, shape_frame_byte_sum.
  change 255 with (Z.ones 8). change 15 with (Z.ones 4).
  rewrite !Z.land_ones by lia. reflexivity.
Qed.

Lemma bytearray_set_raise buf i v :
  ~ (0 <= v < 256) -> bytearray_set buf i v = Raise ValueError.
Proof.
  intros Hv. unfold bytearray_set.
  destruct (Z.leb_spec 0 v); destruct (Z.ltb_spec v 256); try reflexivity. lia.
Qed.

(** X4.  On a receiver that has the six integer attributes it reads,
    the body of [to_ireg_bytes] returns the ten-byte record exactly when
    [0 <= frame < 64], whatever the other values are, and raises
    [ValueError] at the assignment of byte 4 for every other frame. *)
Theorem to_ireg_bytes_body_frame_range
        (attr : string -> result Z) (vx vy vshape vframe vlift vquality : Z) :
  attr "x" = Ok vx -> attr "y" = Ok vy -> attr "shape" = Ok vshape ->
  attr "frame" = Ok vframe -> attr "lift" = Ok vlift ->
  attr "quality" = Ok vquality ->
  to_ireg_bytes_body attr =
  if (0 <=? vframe) && (vframe <? 64)
  then Ok (record_layout vx vy vshape vframe vlift vquality)
  else Raise ValueError.
Proof.
  intros Hx Hy Hs Hf Hl Hq.
  destruct ((0 <=? vframe) && (vframe <? 64)) eqn:Hrange.
  - apply IregFacts.to_ireg_bytes_body_layout; try assumption. lia.
  - unfold to_ireg_bytes_body. rewrite Hx, Hy, Hs, Hf. simpl.
    rewrite (IregFacts.bytearray_set_ok _ 1 _ (IregFacts.position_byte vx)). simpl.
    rewrite (IregFacts.bytearray_set_ok _ 2 _ (IregFacts.position_byte vy)). simpl.
    rewrite (IregFacts.bytearray_set_ok _ 3 _
               (IregFacts.low_bits_byte vshape 8 ltac:(lia))). simpl.
    rewrite bytearray_set_raise; [reflexivity|].
    rewrite shape_frame_byte_sum.
    pose proof (Z.mod_pos_bound (vshape / 256) 4 ltac:(lia)). lia.
Qed.

(** X4 on the attributes of an object with frame 64. *)
Lemma to_ireg_bytes_body_frame_range_witness :
  to_ireg_bytes_body
    (getattr (OfUltimaObject {| shape := 300; frame := 64; x := 17; y := 33;
                                lift := 0; quality := 0; flags := 0 |}))
  = if (0 <=? 64) && (64 <? 64)
    then Ok (record_layout 17 33 300 64 0 0)
    else Raise ValueError.
Proof.
  apply (to_ireg_bytes_body_frame_range
           (getattr (OfUltimaObject {| shape := 300; frame := 64; x := 17; y := 33;
                                       lift := 0; quality := 0; flags := 0 |}))
           17 33 300 64 0 0); reflexivity.
Defined.

(** X5.  For a frame in [0, 64), the record the body of [to_ireg_bytes]
    returns starts with the length byte 10 and ends with three zero
    bytes; its position bytes are [x mod 256] and [y mod 256]; byte 3
    and the two low bits of byte 4 give [shape mod 1024]; the six high
    bits of byte 4 give the frame; bytes 5 and 6 are [lift mod 16] and
    [quality mod 256].  The flags are not written. *)
Theorem ireg_record_decodes
        (attr : string -> result Z) (vx vy vshape vframe vlift vquality : Z) :
  attr "x" = Ok vx -> attr "y" = Ok vy -> attr "shape" = Ok vshape ->
  attr "frame" = Ok vframe -> attr "lift" = Ok vlift ->
  attr "quality" = Ok vquality ->
  0 <= vframe < 64 ->
  exists b1 b2 b3 b4 b5 b6,
    to_ireg_bytes_body attr = Ok [10; b1; b2; b3; b4; b5; b6; 0; 0; 0]
    /\ b1 = vx mod 256 /\ b2 = vy mod 256
    /\ b3 + 256 * (b4 mod 4) = vshape mod 1024
    /\ b4 / 4 = vframe
    /\ b5 = vlift mod 16 /\ b6 = vquality mod 256
    /\ Forall (fun b => 0 <= b < 256) [b1; b2; b3; b4; b5; b6].
Proof.
  intros Hx Hy Hs Hf Hl Hq Hframe.
  rewrite (IregFacts.to_ireg_bytes_body_layout attr _ _ _ _ _ _ Hx Hy Hs Hf Hl Hq Hframe).
  rewrite record_layout_arith.
  pose proof (Z.mod_pos_bound (vshape / 256) 4 ltac:(lia)) as Hhi.
  do 6 eexists. split; [reflexivity|].
  split; [reflexivity|]. split; [reflexivity|]. split; [|split; [|split; [|split]]].
  - replace ((vshape / 256) mod 4 + 4 * vframe) with ((vshape / 256) mod 4 + vframe * 4) by lia.
    rewrite Z.mod_add by lia. rewrite Z.mod_mod by lia.
    change 1024 with (256 * 4). rewrite Z.rem_mul_r by lia. reflexivity.
  - replace ((vshape / 256) mod 4 + 4 * vframe) with ((vshape / 256) mod 4 + vframe * 4) by lia.
    rewrite Z.div_add by lia. rewrite Z.div_small by lia. lia.
  - reflexivity.
  - reflexivity.
  - pose proof (Z.mod_pos_bound vx 256 ltac:(lia)).
    pose proof (Z.mod_pos_bound vy 256 ltac:(lia)).
    pose proof (Z.mod_pos_bound vshape 256 ltac:(lia)).
    pose proof (Z.mod_pos_bound vlift 16 ltac:(lia)).
    pose proof (Z.mod_pos_bound vquality 256 ltac:(lia)).
    repeat constructor; lia.
Qed.

(** X5 on the attributes of a roof object beyond the first 256 tiles. *)
Lemma ireg_record_decodes_witness :
  exists b1 b2 b3 b4 b5 b6,
    to_ireg_bytes_body
      (getattr (OfUltimaObject {| shape := 962; frame := 5; x := 300; y := 33;
                                  lift := 4; quality := 0; flags := 0 |}))
    = Ok [10; b1; b2; b3; b4; b5; b6; 0; 0; 0]
    /\ b1 = 300 mod 256 /\ b2 = 33 mod 256
    /\ b3 + 256 * (b4 mod 4) = 962 mod 1024
    /\ b4 / 4 = 5
    /\ b5 = 4 mod 16 /\ b6 = 0 mod 256
    /\ Forall (fun b => 0 <= b < 256) [b1; b2; b3; b4; b5; b6].
Proof.
  apply (ireg_record_decodes
           (getattr (OfUltimaObject {| shape := 962; frame := 5; x := 300; y := 33;
                                       lift := 4; quality := 0; flags := 0 |}))
           300 33 962 5 4 0); first [reflexivity | lia].
Defined.

End EncodingFacts.

(** ** The candidate lists of the classifiers *)

Module ShapeFacts.

Lemma terrain_table_valid name shapes :
  TERRAIN_SHAPES !! name = Some shapes -> valid_shapes shapes.
Proof.
  intros H. unfold TERRAIN_SHAPES in H. apply elem_of_list_to_map_2 in H.
  change (valid_shapes (snd (name, shapes))).
  revert H. generalize (name, shapes). apply Forall_forall.
  repeat (constructor; [split; [discriminate|repeat constructor; lia]|]).
  constructor.
Qed.

Lemma object_table_valid name shapes :
  OBJECT_SHAPES !! name = Some shapes -> valid_shapes shapes.
Proof.
  intros H. unfold OBJECT_SHAPES in H. apply elem_of_list_to_map_2 in H.
  change (valid_shapes (snd (name, shapes))).
  revert H. generalize (name, shapes). apply Forall_forall.
  repeat (constructor; [split; [discriminate|repeat constructor; lia]|]).
  constructor.
Qed.

Lemma terrain_get_valid terrain_type dflt :
  valid_shapes dflt -> valid_shapes (dict_get TERRAIN_SHAPES terrain_type dflt).
Proof.
  intros Hd. unfold dict_get.
  destruct (TERRAIN_SHAPES !! terrain_type) as [l|] eqn:E; simpl; [|exact Hd].
  exact (terrain_table_valid _ _ E).
Qed.

Lemma terrain_default_valid name :
  is_Some (TERRAIN_SHAPES !! name) -> valid_shapes (TERRAIN_SHAPES !!! name).
Proof.
  intros [l Hl]. rewrite lookup_total_alt, Hl. simpl.
  exact (terrain_table_valid _ _ Hl).
Qed.

Lemma get_terrain_shape_valid osm_tags : valid_shapes (get_terrain_shape osm_tags).
Proof.
  assert (Hg : valid_shapes (TERRAIN_SHAPES !!! "grass"))
    by (apply terrain_default_valid; vm_compute; eauto).
  assert (Hc : valid_shapes (TERRAIN_SHAPES !!! "cobblestone"))
    by (apply terrain_default_valid; vm_compute; eauto).
  assert (Hw : valid_shapes (TERRAIN_SHAPES !!! "water"))
    by (apply terrain_default_valid; vm_compute; eauto).
  unfold get_terrain_shape.
  repeat match goal with
         | |- valid_shapes (match ?t with _ => _ end) => destruct t
         end; first [assumption | apply terrain_get_valid; assumption].
Qed.

Lemma get_object_shapes_valid osm_tags :
  map_Forall (fun _ shapes => valid_shapes shapes) (get_object_shapes osm_tags).
Proof.
  intros component shapes.
  assert (Hmain : forall shape_name,
             main_component shape_name !! component = Some shapes -> valid_shapes shapes).
  { intros shape_name. unfold main_component.
    destruct (OBJECT_SHAPES !! shape_name) as [l|] eqn:E.
    - intros H. apply lookup_singleton_Some in H as [_ <-].
      exact (object_table_valid _ _ E).
    - rewrite lookup_empty. discriminate. }
  unfold get_object_shapes.
  destruct (nonempty_tag osm_tags "building").
  { unfold building_components. rewrite lookup_omap.
    destruct (dict_get OSM_BUILDING_TO_SHAPES _ _ !! component) as [shape_name|];
      simpl; [|discriminate].
    apply object_table_valid. }
  destruct (tag_in osm_tags "amenity" _); [apply Hmain|].
  destruct (tag_in osm_tags "natural" _); [apply Hmain|].
  destruct (tag_in osm_tags "barrier" _); [apply Hmain|].
  destruct (tag_in osm_tags "man_made" _); [apply Hmain|].
  rewrite lookup_empty. discriminate.
Qed.

Lemma get_npc_for_building_valid building_type :
  valid_shapes (get_npc_for_building building_type).
Proof.
  unfold get_npc_for_building, dict_get.
  destruct (building_npc_types !! building_type) as [npc_types|] eqn:E;
    cbn [default].
  - unfold building_npc_types in E. apply elem_of_list_to_map_2 in E.
    change (valid_shapes
              (npc_type ← snd (building_type, npc_types);
               default [] (NPC_SHAPES !! npc_type))).
    revert E. generalize (building_type, npc_types). apply Forall_forall.
    repeat (constructor;
            [vm_compute; split; [discriminate|repeat constructor; discriminate]|]).
    constructor.
  - vm_compute. split; [discriminate|repeat constructor; discriminate].
Qed.

(** X6.  Whatever the tags or the building type, every candidate list
    the three classifiers return is non-empty, so that [random.choice]
    on it cannot raise [IndexError], and holds only shape ids from 0 to
    1023, the ten bits the object record stores. *)
Theorem classifier_candidates_valid
        (osm_tags : gmap string string) (building_type : string) :
  valid_shapes (get_terrain_shape osm_tags)
  /\ map_Forall (fun _ shapes => valid_shapes shapes) (get_object_shapes osm_tags)
  /\ valid_shapes (get_npc_for_building building_type).
Proof.
  split; [apply get_terrain_shape_valid|].
  split; [apply get_object_shapes_valid|apply get_npc_for_building_valid].
Qed.

End ShapeFacts.

(** ** Tiles and chunks of a geographic point *)

Module ChunkCoordFacts.

Lemma osm_to_ultima_in_range tr lon lat :
  1 <= tiles_x tr -> 1 <= tiles_y tr ->
  0 <= fst (osm_to_ultima tr lon lat) <= tiles_x tr - 1
  /\ 0 <= snd (osm_to_ultima tr lon lat) <= tiles_y tr - 1.
Proof. intros Hx Hy. unfold osm_to_ultima; simpl. lia. Qed.

(** [int] truncates: it is the floor of a non-negative float and the
    ceiling of a negative one. *)
Lemma int_of_floor_ceiling q :
  int_of q = if 0 <=? Qnum q then Qfloor q else Qceiling q.
Proof.
  destruct q as [n d]. unfold int_of, Qceiling, Qfloor; simpl.
  destruct (Z.leb_spec 0 n) as [Hn|Hn].
  - apply Z.quot_div_nonneg; lia.
  - rewrite <- (Z.opp_involutive n) at 1.
    rewrite Z.quot_opp_l by lia. rewrite Z.quot_div_nonneg by lia. reflexivity.
Qed.

Lemma Qfloor_le_ceiling q : Qfloor q <= Qceiling q.
Proof.
  pose proof (Qfloor_le q) as H1. pose proof (Qle_ceiling q) as H2.
  pose proof (Qle_trans _ _ _ H1 H2) as H. rewrite <- Zle_Qle in H. exact H.
Qed.

Lemma int_of_mono q1 q2 : (q1 <= q2)%Q -> int_of q1 <= int_of q2.
Proof.
  intros Hle. rewrite !int_of_floor_ceiling.
  pose proof (Qfloor_resp_le _ _ Hle) as Hf.
  pose proof (Qceiling_resp_le _ _ Hle) as Hc.
  destruct (Z.leb_spec 0 (Qnum q1)) as [H1|H1];
    destruct (Z.leb_spec 0 (Qnum q2)) as [H2|H2].
  - exact Hf.
  - exfalso. unfold Qle in Hle. nia.
  - pose proof (Qfloor_le_ceiling q1).
    assert (Qceiling q1 <= 0).
    { change 0 with (Qceiling 0). apply Qceiling_resp_le.
      unfold Qle; simpl. lia. }
    assert (0 <= Qfloor q2).
    { change 0 with (Qfloor 0). apply Qfloor_resp_le.
      unfold Qle; simpl. lia. }
    lia.
  - exact Hc.
Qed.

(** The normalised coordinate grows with the coordinate. *)
Lemma norm_mono (range_ lo a b : Q) :
  (a <= b)%Q ->
  ((if Qpositive range_ then (a - lo) / range_ else 1 # 2)
   <= (if Qpositive range_ then (b - lo) / range_ else 1 # 2))%Q.
Proof.
  intros Hab. destruct (Qpositive range_) eqn:Hr; [|apply Qle_refl].
  unfold Qdiv. apply Qmult_le_compat_r.
  - unfold Qminus. apply Qplus_le_compat; [exact Hab|apply Qle_refl].
  - apply Qinv_le_0_compat. unfold Qpositive in Hr.
    apply negb_true_iff in Hr. apply Qlt_le_weak. apply Qnot_le_lt.
    intros H. apply Qle_bool_iff in H. congruence.
Qed.

(** X7.  In a world of at least one chunk on each axis [osm_to_chunk]
    returns a chunk of the world and a place in it: the chunk
    coordinates lie in [0, W) and [0, H), the local coordinates in
    [0, 16), and [chunk * 16 + local] is the tile [osm_to_ultima]
    returns for the same point. *)
Theorem osm_to_chunk_decomposes
        (bb : Q * Q * Q * Q) (size : Z * Z) (lon lat : Q) :
  1 <= fst size -> 1 <= snd size ->
  let tr := new_transformer bb size in
  let '(cx, cy, lx, ly) := osm_to_chunk tr lon lat in
  0 <= cx < fst size /\ 0 <= cy < snd size
  /\ 0 <= lx < 16 /\ 0 <= ly < 16
  /\ osm_to_ultima tr lon lat = (cx * 16 + lx, cy * 16 + ly).
Proof.
  intros Hw Hh tr. unfold osm_to_chunk.
  assert (Htx : tiles_x tr = fst size * 16)
    by (unfold tr; destruct bb as [[[? ?] ?] ?]; reflexivity).
  assert (Hty : tiles_y tr = snd size * 16)
    by (unfold tr; destruct bb as [[[? ?] ?] ?]; reflexivity).
  destruct (osm_to_ultima_in_range tr lon lat) as [Hx Hy]; [lia|lia|].
  destruct (osm_to_ultima tr lon lat) as [tx ty]. simpl in Hx, Hy.
  pose proof (Z.mod_pos_bound tx 16 ltac:(lia)).
  pose proof (Z.mod_pos_bound ty 16 ltac:(lia)).
  pose proof (Z.div_mod tx 16 ltac:(lia)).
  pose proof (Z.div_mod ty 16 ltac:(lia)).
  rewrite Htx in Hx. rewrite Hty in Hy.
  repeat split; try lia. f_equal; lia.
Qed.

(** X7 for a point of the unit box in a world of 16 by 16 chunks. *)
Lemma osm_to_chunk_decomposes_witness :
  let tr := new_transformer (0, 0, 1, 1)%Q (16, 16) in
  let '(cx, cy, lx, ly) := osm_to_chunk tr (1 # 3) (1 # 4) in
  0 <= cx < fst (16, 16) /\ 0 <= cy < snd (16, 16)
  /\ 0 <= lx < 16 /\ 0 <= ly < 16
  /\ osm_to_ultima tr (1 # 3) (1 # 4) = (cx * 16 + lx, cy * 16 + ly).
Proof.
  apply (osm_to_chunk_decomposes (0, 0, 1, 1)%Q (16, 16) (1 # 3) (1 # 4));
    simpl; lia.
Defined.

(** X8.  With non-negative tile counts [osm_to_ultima] keeps the order
    of longitudes and reverses the order of latitudes: a point further
    east never maps to a smaller column and a point further north never
    maps to a larger row. *)
Theorem osm_to_ultima_monotone
        (tr : CoordinateTransformer) (lon1 lat1 lon2 lat2 : Q) :
  0 <= tiles_x tr -> 0 <= tiles_y tr ->
  ((lon1 <= lon2)%Q ->
     fst (osm_to_ultima tr lon1 lat1) <= fst (osm_to_ultima tr lon2 lat2))
  /\ ((lat1 <= lat2)%Q ->
     snd (osm_to_ultima tr lon2 lat2) <= snd (osm_to_ultima tr lon1 lat1)).
Proof.
  intros Hx Hy. unfold osm_to_ultima; simpl. split; intros Hle.
  - assert (H : int_of ((if Qpositive (lon_range tr)
                         then (lon1 - min_lon tr) / lon_range tr else 1 # 2)
                        * inject_Z (tiles_x tr))
                <= int_of ((if Qpositive (lon_range tr)
                            then (lon2 - min_lon tr) / lon_range tr else 1 # 2)
                           * inject_Z (tiles_x tr))).
    { apply int_of_mono. apply Qmult_le_compat_r; [apply norm_mono; exact Hle|].
      change 0%Q with (inject_Z 0). rewrite <- Zle_Qle. exact Hx. }
    lia.
  - assert (H : int_of ((1 - (if Qpositive (lat_range tr)
                              then (lat2 - min_lat tr) / lat_range tr else 1 # 2))
                        * inject_Z (tiles_y tr))
                <= int_of ((1 - (if Qpositive (lat_range tr)
                                 then (lat1 - min_lat tr) / lat_range tr else 1 # 2))
                           * inject_Z (tiles_y tr))).
    { apply int_of_mono. apply Qmult_le_compat_r.
      - unfold Qminus. apply Qplus_le_compat; [apply Qle_refl|].
        apply Qopp_le_compat. apply norm_mono. exact Hle.
      - change 0%Q with (inject_Z 0). rewrite <- Zle_Qle. exact Hy. }
    lia.
Qed.

(** X8 for two points of the unit box in a world of 16 by 16 chunks. *)
Lemma osm_to_ultima_monotone_witness :
  fst (osm_to_ultima (new_transformer (0, 0, 1, 1)%Q (16, 16)) (1 # 3) (1 # 4))
  <= fst (osm_to_ultima (new_transformer (0, 0, 1, 1)%Q (16, 16)) (1 # 2) (3 # 4))
  /\ snd (osm_to_ultima (new_transformer (0, 0, 1, 1)%Q (16, 16)) (1 # 2) (3 # 4))
     <= snd (osm_to_ultima (new_transformer (0, 0, 1, 1)%Q (16, 16)) (1 # 3) (1 # 4)).
Proof.
  destruct (osm_to_ultima_monotone (new_transformer (0, 0, 1, 1)%Q (16, 16))
              (1 # 3) (1 # 4) (1 # 2) (3 # 4)) as [H1 H2]; [simpl; lia|simpl; lia|].
  split; [apply H1|apply H2]; unfold Qle; simpl; lia.
Defined.

End ChunkCoordFacts.

(** ** The point-in-polygon test *)

Module PolygonFacts.
Import Generator.

Lemma Qlt_div_pos (p a b c : Z) :
  0 < b -> (inject_Z p < inject_Z a / inject_Z b + inject_Z c)%Q <-> (p - c) * b < a.
Proof.
  intros Hb. unfold Qlt, Qdiv, Qmult, Qinv, Qplus, inject_Z. simpl.
  destruct b as [|b|b]; try lia. simpl. nia.
Qed.

Lemma Qlt_div_neg (p a b c : Z) :
  b < 0 -> (inject_Z p < inject_Z a / inject_Z b + inject_Z c)%Q <-> a < (p - c) * b.
Proof.
  intros Hb. unfold Qlt, Qdiv, Qmult, Qinv, Qplus, inject_Z. simpl.
  destruct b as [|b|b]; try lia. simpl. nia.
Qed.

Lemma negb_Qle_bool a b : negb (Qle_bool a b) = true <-> (b < a)%Q.
Proof.
  rewrite negb_true_iff, <- not_true_iff_false, Qle_bool_iff. split.
  - apply Qnot_le_lt.
  - apply Qlt_not_le.
Qed.

(** The edge test in integers: the edge spans the row of the point, the
    lower end included and the upper end excluded, and the point lies
    strictly to the left of the edge on that row. *)
Lemma edge_crossed_spec px py xi yi xj yj :
  edge_crossed px py (xi, yi) (xj, yj) = true <->
  (yi <= py < yj /\ (px - xi) * (yj - yi) < (xj - xi) * (py - yi))
  \/ (yj <= py < yi /\ (xj - xi) * (py - yi) < (px - xi) * (yj - yi)).
Proof.
  unfold edge_crossed.
  destruct (Z.ltb_spec py yi) as [Hi|Hi]; destruct (Z.ltb_spec py yj) as [Hj|Hj];
    cbn [xorb].
  - split; [discriminate|lia].
  - rewrite negb_Qle_bool, Qlt_div_neg by lia. split; [right; lia|lia].
  - rewrite negb_Qle_bool, Qlt_div_pos by lia. split; [left; lia|lia].
  - split; [discriminate|lia].
Qed.

Lemma min_of_elem l a : a ∈ l -> min_of l <= a.
Proof.
  destruct l as [|b l]; [intros H; inversion H|]. simpl.
  revert b. induction l as [|c l IH]; intros b Ha; simpl.
  - apply list_elem_of_singleton in Ha. lia.
  - pose proof (BuildingFacts.fold_left_min_le l (Z.min b c)) as Hle.
    apply elem_of_cons in Ha as [Ha|Ha]; [lia|].
    apply elem_of_cons in Ha as [Ha|Ha]; [lia|].
    apply IH. right. exact Ha.
Qed.

Lemma max_of_elem l a : a ∈ l -> a <= max_of l.
Proof.
  destruct l as [|b l]; [intros H; inversion H|]. simpl.
  revert b. induction l as [|c l IH]; intros b Ha; simpl.
  - apply list_elem_of_singleton in Ha. lia.
  - pose proof (BuildingFacts.fold_left_max_ge l (Z.max b c)) as Hle.
    apply elem_of_cons in Ha as [Ha|Ha]; [lia|].
    apply elem_of_cons in Ha as [Ha|Ha]; [lia|].
    apply IH. right. exact Ha.
Qed.

Lemma last_cons {A} (a d : A) l : List.last (a :: l) d = List.last l a.
Proof.
  revert a d. induction l as [|b l IH]; intros a d; [reflexivity|].
  change (List.last (a :: b :: l) d) with (List.last (b :: l) d).
  rewrite (IH b d), (IH b a). reflexivity.
Qed.

Lemma last_elem {A} (a : A) l : List.last l a ∈ a :: l.
Proof.
  revert a. induction l as [|b l IH]; intros a; [left|].
  rewrite last_cons. right. apply IH.
Qed.

(** A point counted inside has crossed an edge of the polygon. *)
Lemma crossings_some px py pj rest inside :
  crossings px py pj rest inside = true ->
  inside = true
  \/ exists pi pj', pi ∈ rest /\ pj' ∈ pj :: rest /\ edge_crossed px py pi pj' = true.
Proof.
  revert pj inside. induction rest as [|pi rest IH]; intros pj inside; simpl.
  - auto.
  - intros H. apply IH in H as [H|(qi & qj & Hi & Hj & Hc)].
    + destruct (edge_crossed px py pi pj) eqn:E.
      * right. exists pi, pj. split; [left|]. split; [left|exact E].
      * left. exact H.
    + right. exists qi, qj. split; [right; exact Hi|]. split; [right; exact Hj|exact Hc].
Qed.

(** To the left of both ends, an edge is crossed when it spans the row. *)
Lemma edge_crossed_left px py pi pj :
  px < fst pi -> px < fst pj ->
  edge_crossed px py pi pj = xorb (py <? snd pi) (py <? snd pj).
Proof.
  destruct pi as [xi yi], pj as [xj yj]. cbn [fst snd]. intros Hi Hj.
  destruct (xorb (py <? yi) (py <? yj)) eqn:Hx.
  - apply edge_crossed_spec.
    destruct (Z.ltb_spec py yi); destruct (Z.ltb_spec py yj); try discriminate.
    + right. split; [lia|]. nia.
    + left. split; [lia|]. nia.
  - unfold edge_crossed. rewrite Hx. reflexivity.
Qed.

(** To the left of every vertex the crossings of a closed chain cancel. *)
Lemma crossings_left px py pj rest inside :
  (forall p, p ∈ pj :: rest -> px < fst p) ->
  crossings px py pj rest inside =
  xorb inside (xorb (py <? snd pj) (py <? snd (List.last rest pj))).
Proof.
  revert pj inside. induction rest as [|pi rest IH]; intros pj inside Hleft.
  - simpl. destruct inside, (py <? snd pj); reflexivity.
  - cbn [crossings]. rewrite IH by (intros p Hp; apply Hleft; right; exact Hp).
    rewrite edge_crossed_left; [|apply Hleft; right; left|apply Hleft; left].
    rewrite last_cons.
    destruct inside, (py <? snd pi), (py <? snd pj), (py <? snd (List.last rest pi));
      reflexivity.
Qed.

Lemma point_in_polygon_box px py polygon :
  _point_in_polygon px py polygon = true ->
  min_of (map fst polygon) <= px < max_of (map fst polygon)
  /\ min_of (map snd polygon) <= py < max_of (map snd polygon).
Proof.
  destruct polygon as [|p l]; [discriminate|].
  unfold _point_in_polygon. set (polygon := p :: l). intros Hin.
  assert (Hlast : List.last polygon p ∈ polygon).
  { pose proof (last_elem p polygon) as H. apply elem_of_cons in H as [->|H];
      [left|exact H]. }
  assert (Hx : forall q, q ∈ polygon ->
                 min_of (map fst polygon) <= fst q <= max_of (map fst polygon)).
  { intros q Hq. split; [apply min_of_elem|apply max_of_elem];
      apply list_elem_of_fmap; exists q; auto. }
  assert (Hy : forall q, q ∈ polygon ->
                 min_of (map snd polygon) <= snd q <= max_of (map snd polygon)).
  { intros q Hq. split; [apply min_of_elem|apply max_of_elem];
      apply list_elem_of_fmap; exists q; auto. }
  assert (Hmin : min_of (map fst polygon) <= px).
  { destruct (Z.le_gt_cases (min_of (map fst polygon)) px) as [H|H]; [exact H|].
    exfalso. rewrite crossings_left in Hin.
    - unfold polygon in Hin. rewrite !last_cons in Hin.
      destruct (py <? snd (List.last l p)); discriminate.
    - intros q Hq. apply elem_of_cons in Hq as [->|Hq].
      + specialize (Hx _ Hlast). lia.
      + specialize (Hx _ Hq). lia. }
  apply crossings_some in Hin as [Hin|(pi & pj & Hi & Hj & Hc)]; [discriminate|].
  assert (Hj' : pj ∈ polygon).
  { apply elem_of_cons in Hj as [->|Hj]; [exact Hlast|exact Hj]. }
  pose proof (Hx _ Hi). pose proof (Hx _ Hj'). pose proof (Hy _ Hi). pose proof (Hy _ Hj').
  destruct pi as [xi yi], pj as [xj yj]. simpl in *.
  apply edge_crossed_spec in Hc.
  split; [split; [exact Hmin|]|].
  - destruct Hc as [[Hr Hc]|[Hr Hc]]; nia.
  - lia.
Qed.

(** X9.  A tile that [_point_in_polygon] counts inside lies in the
    bounding box of the vertices, and never on its last row or in its
    last column: [min_x <= x < max_x] and [min_y <= y < max_y].  So a
    polygon whose vertices share one row, or one column, contains no
    tile at all. *)
Theorem point_in_polygon_inside_box (px py : Z) (polygon : list (Z * Z)) :
  _point_in_polygon px py polygon = true ->
  min_of (map fst polygon) <= px < max_of (map fst polygon)
  /\ min_of (map snd polygon) <= py < max_of (map snd polygon).
Proof. apply point_in_polygon_box. Qed.

(** X9 on the tile (5, 5) of a triangle. *)
Lemma point_in_polygon_inside_box_witness :
  min_of (map fst [(0, 0); (10, 0); (0, 10)]) <= 5
    < max_of (map fst [(0, 0); (10, 0); (0, 10)])
  /\ min_of (map snd [(0, 0); (10, 0); (0, 10)]) <= 2
    < max_of (map snd [(0, 0); (10, 0); (0, 10)]).
Proof.
  apply (point_in_polygon_inside_box 5 2 [(0, 0); (10, 0); (0, 10)]).
  vm_compute. reflexivity.
Defined.





End PolygonFacts.

(** ** What the painters and the placers do to the map *)

Module AlterFacts.
Import Grid GridFacts TileFacts RasterFacts Generator.


Lemma altered_refl shapes m : wf m -> altered shapes [] [] m m.
Proof.
  intros Hwf. split; [exact Hwf|]. split; [|split].
  - intros tx ty H. inversion H.
  - reflexivity.
  - intros ox oy. rewrite filter_nil, app_nil_r. reflexivity.
Qed.

Lemma altered_trans shapes t1 t2 o1 o2 m m1 m2 :
  altered shapes t1 o1 m m1 -> altered shapes t2 o2 m1 m2 ->
  altered shapes (t1 ++ t2) (o1 ++ o2) m m2.
Proof.
  intros (Hwf1 & Hin1 & Hout1 & Hobj1) (Hwf2 & Hin2 & Hout2 & Hobj2).
  split; [exact Hwf2|]. split; [|split].
  - intros tx ty Ht. destruct (decide ((tx, ty) ∈ t2)) as [H2|H2].
    + apply Hin2. exact H2.
    + rewrite Hout2 by exact H2. apply Hin1.
      apply elem_of_app in Ht as [Ht|Ht]; [exact Ht|contradiction].
  - intros tx ty Ht. rewrite elem_of_app in Ht.
    rewrite Hout2, Hout1; [reflexivity| |]; intros H; apply Ht; auto.
  - intros ox oy. rewrite Hobj2, Hobj1, filter_app, app_assoc. reflexivity.
Qed.

Lemma same_world_refl s : same_world s s.
Proof. split; reflexivity. Qed.

Lemma same_world_trans s s1 s2 : same_world s s1 -> same_world s1 s2 -> same_world s s2.
Proof. intros [H1 H2] [H3 H4]. split; congruence. Qed.

Section Alter.
Context {G : Type} {RG : Random.Generator G}.

Lemma same_world_set_map s s0 m : same_world s s0 -> same_world s (set_ultima_map m s0).
Proof. intros H. exact H. Qed.

Lemma alters_ext (c c' : @Gen G unit) s shapes tiles P :
  (forall w, c w = c' w) -> alters c' s shapes tiles P -> alters c s shapes tiles P.
Proof. intros He H g s0 Hs Hwf. rewrite He. apply H; assumption. Qed.

Lemma alters_weaken (c : @Gen G unit) s shapes tiles (P Q : list UltimaObject -> Prop) :
  (forall objs, P objs -> Q objs) -> alters c s shapes tiles P -> alters c s shapes tiles Q.
Proof.
  intros HPQ H g s0 Hs Hwf. destruct (H g s0 Hs Hwf) as (g' & m' & objs & Hr & Ha & HP).
  exists g', m', objs. auto.
Qed.

Lemma alters_ret s shapes : alters (G := G) (ret tt) s shapes [] (fun objs => objs = []).
Proof.
  intros g s0 Hs Hwf. exists g, (ultima_map s0), []. unfold ret.
  rewrite BuildingFacts.set_ultima_map_id.
  split; [reflexivity|]. split; [apply altered_refl; exact Hwf|reflexivity].
Qed.

Lemma alters_seq (c1 c2 : @Gen G unit) s shapes t1 t2 P1 P2 :
  alters c1 s shapes t1 P1 -> alters c2 s shapes t2 P2 ->
  alters (gbind c1 (fun _ => c2)) s shapes (t1 ++ t2)
         (fun objs => exists o1 o2, objs = o1 ++ o2 /\ P1 o1 /\ P2 o2).
Proof.
  intros H1 H2 g s0 Hs Hwf.
  destruct (H1 g s0 Hs Hwf) as (g1 & m1 & o1 & Hr1 & Ha1 & HP1).
  destruct (H2 g1 (set_ultima_map m1 s0) Hs (proj1 Ha1))
    as (g2 & m2 & o2 & Hr2 & Ha2 & HP2).
  exists g2, m2, (o1 ++ o2). unfold gbind. rewrite Hr1, Hr2.
  split; [reflexivity|].
  split; [eapply altered_trans; eauto|eauto].
Qed.



Lemma alters_paint shapes tx ty s :
  shapes <> [] ->
  alters (G := G) (paint shapes tx ty) s shapes [(tx, ty)] (fun objs => objs = []).
Proof.
  intros Hne g s0 Hs Hwf.
  destruct (BuildingFacts.choice_ok shapes g Hne) as (sh & g' & Hc & Hin).
  destruct (set_terrain_tiles (ultima_map s0) tx ty sh Hwf)
    as (m' & Hset & Hwf' & Ht & Ho).
  exists g', m', [].
  unfold paint, gbind, draw, set_terrain. simpl. rewrite Hc. simpl. rewrite Hset.
  split; [reflexivity|]. split; [|reflexivity].
  split; [exact Hwf'|]. split; [|split].
  - intros tx' ty' Hin'. apply list_elem_of_singleton in Hin'. injection Hin' as -> ->.
    exists sh. split; [exact Hin|]. rewrite Ht, decide_True by (split; reflexivity).
    reflexivity.
  - intros tx' ty' Hout. rewrite Ht, decide_False; [reflexivity|].
    intros [-> ->]. apply Hout. left.
  - intros ox oy. rewrite Ho, filter_nil, app_nil_r. reflexivity.
Qed.


(** Painting a list of tiles. *)
Lemma alters_for_paint shapes (tiles : list (Z * Z)) s :
  shapes <> [] ->
  alters (G := G) (for_ tiles (fun t => paint shapes (fst t) (snd t)))
         s shapes tiles (fun objs => objs = []).
Proof.
  intros Hne. induction tiles as [|[tx ty] tiles IH].
  - apply alters_ret.
  - cbn [for_].
    apply (alters_weaken _ _ _ _
             (fun objs => exists o1 o2, objs = o1 ++ o2 /\ o1 = [] /\ o2 = [])).
    + intros objs (o1 & o2 & -> & -> & ->). reflexivity.
    + apply (alters_seq _ _ s shapes [(tx, ty)] tiles);
        [apply alters_paint; exact Hne|exact IH].
Qed.

Lemma for_fmap {A B} (f : A -> B) (l : list A) (body : B -> @Gen G unit) w :
  for_ (map f l) body w = for_ l (fun a => body (f a)) w.
Proof.
  revert w. induction l as [|a l IH]; intros w; [reflexivity|].
  cbn [map for_]. unfold gbind. destruct (body (f a) w) as [[u w']|e]; [apply IH|reflexivity].
Qed.



End Alter.

End AlterFacts.

(** ** The line painter and the polygon filler *)

Module PainterFacts.
Import Grid GridFacts TileFacts RasterFacts Generator AlterFacts Tape.

(** Step 0 of a line is its start tile and step [dist] its end tile. *)
Lemma line_center_start st et dist : line_center st et dist 0 = st.
Proof.
  destruct st as [x0 y0]. unfold line_center. cbn [fst snd].
  f_equal; apply TransformFacts.int_of_inject; unfold Qdiv;
    change (inject_Z 0) with 0%Q; ring.
Qed.






Section Painters.
Context {G : Type} {RG : Random.Generator G}.



End Painters.


(** [_fill_polygon_terrain] is one [random.choice] and one
    [set_terrain] per tile of [polygon_tiles], in that order. *)
Lemma fill_polygon_tiles {G : Type} {RG : Random.Generator G}
      coords shapes (w : G * MapGenerator) :
  _fill_polygon_terrain coords shapes w =
  for_ (polygon_tiles
          (map (fun c => osm_to_ultima (transformer (snd w)) (fst c) (snd c)) coords))
       (fun t => paint shapes (fst t) (snd t)) w.
Proof.
  unfold _fill_polygon_terrain, polygon_tiles, gbind at 1, get_self. cbn [snd].
  destruct (map _ coords) as [|tc tcs] eqn:E; [reflexivity|].
  rewrite <- for_nested. apply for_ext. intros ty w1.
  rewrite <- for_nested. apply for_ext. intros tx w2.
  rewrite <- (for_guard _ (tx, ty) (fun t => paint shapes (fst t) (snd t))).
  reflexivity.
Qed.

(** The painted tiles are those that pass the test. *)
Lemma elem_of_polygon_tiles tile_coords tx ty :
  (tx, ty) ∈ polygon_tiles tile_coords <-> _point_in_polygon tx ty tile_coords = true.
Proof.
  unfold polygon_tiles. destruct tile_coords as [|tc tcs].
  { split; [intros H; inversion H|discriminate]. }
  set (polygon := tc :: tcs). split.
  - intros H. apply list_elem_of_bind in H as (y' & H & _).
    apply list_elem_of_bind in H as (x' & H & _).
    destruct (_point_in_polygon x' y' polygon) eqn:E; [|inversion H].
    apply list_elem_of_singleton in H. injection H as -> ->. exact E.
  - intros H. destruct (PolygonFacts.point_in_polygon_box _ _ _ H) as [Hx Hy].
    apply list_elem_of_bind. exists ty. split; [|apply elem_of_range; lia].
    apply list_elem_of_bind. exists tx. split; [|apply elem_of_range; lia].
    rewrite H. left.
Qed.

Section Filler.
Context {G : Type} {RG : Random.Generator G}.

(** X12.  With a non-empty candidate list [_fill_polygon_terrain]
    returns on a well-formed map with only the map changed.  The tiles
    it paints are exactly the tiles that pass [_point_in_polygon] for
    the transformed vertices; they lie in the bounding box of the
    vertices without its last row and last column.  Each painted tile
    then reads a candidate, every other tile reads what it read before,
    and no object is added or removed. *)
Theorem fill_polygon_paints_inside
        (coords : list (Q * Q)) (shapes : list Z) (g : G) (s : MapGenerator) :
  shapes <> [] -> wf (ultima_map s) ->
  let tile_coords :=
    map (fun c => osm_to_ultima (transformer s) (fst c) (snd c)) coords in
  exists g' m',
    _fill_polygon_terrain coords shapes (g, s) = Ok (tt, (g', set_ultima_map m' s))
    /\ altered shapes (polygon_tiles tile_coords) [] (ultima_map s) m'
    /\ (forall tx ty, (tx, ty) ∈ polygon_tiles tile_coords
                      <-> _point_in_polygon tx ty tile_coords = true)
    /\ (forall tx ty, (tx, ty) ∈ polygon_tiles tile_coords ->
          min_of (map fst tile_coords) <= tx < max_of (map fst tile_coords)
          /\ min_of (map snd tile_coords) <= ty < max_of (map snd tile_coords)).
Proof.
  intros Hne Hwf tile_coords.
  destruct (alters_for_paint shapes (polygon_tiles tile_coords) s Hne g s
              (same_world_refl s) Hwf) as (g' & m' & objs & Hrun & Halt & ->).
  exists g', m'. rewrite fill_polygon_tiles. cbn [snd].
  split; [exact Hrun|]. split; [exact Halt|].
  split; [intros tx ty; apply elem_of_polygon_tiles|].
  intros tx ty Hin. apply PolygonFacts.point_in_polygon_box.
  apply elem_of_polygon_tiles. exact Hin.
Qed.

End Filler.

(** X12 on a square park of the unit box. *)
Lemma fill_polygon_paints_inside_witness :
  let s := Scenario.world0 in
  let coords := [(0, 1); (8 # 256, 1); (8 # 256, 248 # 256); (0, 248 # 256); (0, 1)]%Q in
  let tile_coords :=
    map (fun c => osm_to_ultima (transformer s) (fst c) (snd c)) coords in
  exists g' m',
    _fill_polygon_terrain (G := list Z) coords [4; 31] ([], s)
    = Ok (tt, (g', set_ultima_map m' s))
    /\ altered [4; 31] (polygon_tiles tile_coords) [] (ultima_map s) m'
    /\ (forall tx ty, (tx, ty) ∈ polygon_tiles tile_coords
                      <-> _point_in_polygon tx ty tile_coords = true)
    /\ (forall tx ty, (tx, ty) ∈ polygon_tiles tile_coords ->
          min_of (map fst tile_coords) <= tx < max_of (map fst tile_coords)
          /\ min_of (map snd tile_coords) <= ty < max_of (map snd tile_coords)).
Proof.
  apply (fill_polygon_paints_inside (G := list Z)
           [(0, 1); (8 # 256, 1); (8 # 256, 248 # 256); (0, 248 # 256); (0, 1)]%Q
           [4; 31] [] Scenario.world0).
  - discriminate.
  - apply new_map_wf.
Defined.

End PainterFacts.

(** ** Bridges, point features and barriers *)

Module PlacerFacts.
Import Grid GridFacts TileFacts RasterFacts Generator AlterFacts PainterFacts Tape.



Section Placers.
Context {G : Type} {RG : Random.Generator G}.









End Placers.



End PlacerFacts.

(** ** The registry of road tiles *)

Module RoadFacts.
Import RasterFacts Generator AlterFacts Tape.

Lemma occurrences_cons k a l :
  occurrences k (a :: l) = ((if decide (a = k) then 1 else 0) + occurrences k l)%nat.
Proof.
  unfold occurrences. rewrite filter_cons. case_decide; reflexivity.
Qed.

Lemma occurrences_app k l1 l2 :
  occurrences k (l1 ++ l2) = (occurrences k l1 + occurrences k l2)%nat.
Proof. unfold occurrences. rewrite filter_app, length_app. reflexivity. Qed.

Lemma occurrences_pos k l : k ∈ l <-> (1 <= occurrences k l)%nat.
Proof.
  induction l as [|a l IH].
  - split; [intros H; inversion H|cbn; lia].
  - rewrite occurrences_cons, elem_of_cons, IH.
    case_decide as Ha; split.
    + lia.
    + intros _. left. congruence.
    + intros [Hk|Hk]; [congruence|lia].
    + intros Hk. right. lia.
Qed.

(** The registry after a run of registrations: a tile that was not
    registered keeps its entry; a registered tile is an intersection
    when it had an entry or was registered more than once, and carries
    the highway type otherwise. *)
Lemma register_fold highway_type (l : list (Z * Z)) rt k :
  fold_left (register highway_type) l rt !! k =
  if decide (k ∈ l)
  then (if decide (is_Some (rt !! k) \/ (2 <= occurrences k l)%nat)
        then Some "intersection" else Some highway_type)
  else rt !! k.
Proof.
  revert rt. induction l as [|a l IH]; intros rt.
  - cbn [fold_left]. rewrite decide_False by (intros H; inversion H). reflexivity.
  - cbn [fold_left]. rewrite IH, occurrences_cons.
    assert (Hreg : register highway_type rt a !! k =
                   if decide (a = k)
                   then (if decide (is_Some (rt !! k))
                         then Some "intersection" else Some highway_type)
                   else rt !! k).
    { unfold register. destruct (decide (a = k)) as [->|Hne].
      - destruct (decide (is_Some (rt !! k))); apply lookup_insert_eq.
      - destruct (decide (is_Some (rt !! a))); apply lookup_insert_ne; exact Hne. }
    pose proof (occurrences_pos k l) as Hpos.
    rewrite Hreg.
    destruct (decide (a = k)) as [->|Hne].
    + rewrite (decide_True (P := k ∈ k :: l)) by left.
      destruct (decide (k ∈ l)) as [Hin|Hin].
      * rewrite decide_True by (left; destruct (decide (is_Some (rt !! k))); eauto).
        rewrite decide_True by (right; apply Hpos in Hin; lia). reflexivity.
      * assert (occurrences k l = 0%nat) as ->.
        { destruct (occurrences k l) eqn:E; [reflexivity|].
          exfalso. apply Hin, Hpos. lia. }
        destruct (decide (is_Some (rt !! k))) as [Hs|Hs].
        -- rewrite decide_True by (left; exact Hs). reflexivity.
        -- rewrite decide_False; [reflexivity|]. intros [?|?]; [contradiction|lia].
    + destruct (decide (k ∈ l)) as [Hin|Hin].
      * rewrite (decide_True (P := k ∈ a :: l)) by (right; exact Hin).
        cbn [Nat.add]. reflexivity.
      * rewrite (decide_False (P := k ∈ a :: l)); [reflexivity|].
        intros H. apply elem_of_cons in H as [->|H]; contradiction.
Qed.

Section Track.
Context {G : Type} {RG : Random.Generator G}.

Lemma for_track_tile highway_type (l : list (Z * Z)) (g : G) s :
  for_ l (track_tile highway_type) (g, s)
  = Ok (tt, (g, set_road_tiles (fold_left (register highway_type) l (road_tiles s)) s)).
Proof.
  revert s. induction l as [|k l IH]; intros s.
  - cbn [for_ fold_left]. destruct s; reflexivity.
  - cbn [for_ fold_left]. unfold gbind, track_tile at 1, modify. cbn [fst snd].
    rewrite IH. reflexivity.
Qed.

Lemma track_road_segment_run start end_ highway_type width (g : G) s :
  let st := osm_to_ultima (transformer s) (fst start) (snd start) in
  let et := osm_to_ultima (transformer s) (fst end_) (snd end_) in
  _track_road_segment start end_ highway_type width (g, s)
  = Ok (tt, (g, set_road_tiles
                  (if Z.max (Z.abs (fst et - fst st)) (Z.abs (snd et - snd st)) =? 0
                   then <[st := highway_type]> (road_tiles s)
                   else fold_left (register highway_type)
                          (road_squares st et width) (road_tiles s)) s)).
Proof.
  intros st et. unfold _track_road_segment, gbind, get_self. cbn [snd].
  fold st et. destruct (_ =? 0).
  - unfold modify. cbn [fst snd]. destruct st. reflexivity.
  - rewrite <- for_track_tile. unfold road_squares.
    rewrite <- for_nested. apply for_ext. intros i w.
    rewrite <- for_nested. apply for_ext. intros wx w'.
    rewrite for_fmap. reflexivity.
Qed.


End Track.

Lemma elem_of_road_squares st et width k :
  k ∈ road_squares st et width <->
  exists i wx wy,
    0 <= i <= Z.max (Z.abs (fst et - fst st)) (Z.abs (snd et - snd st))
    /\ wx ∈ width_range width /\ wy ∈ width_range width
    /\ k = (fst (line_center st et
                   (Z.max (Z.abs (fst et - fst st)) (Z.abs (snd et - snd st))) i) + wx,
            snd (line_center st et
                   (Z.max (Z.abs (fst et - fst st)) (Z.abs (snd et - snd st))) i) + wy).
Proof.
  unfold road_squares. rewrite list_elem_of_bind. split.
  - intros (i & Hk & Hi). apply list_elem_of_bind in Hk as (wx & Hk & Hwx).
    apply list_elem_of_fmap in Hk as (wy & -> & Hwy).
    apply elem_of_range in Hi. exists i, wx, wy. repeat split; try assumption; lia.
  - intros (i & wx & wy & Hi & Hwx & Hwy & ->). exists i.
    split; [|apply elem_of_range; lia].
    apply list_elem_of_bind. exists wx. split; [|exact Hwx].
    apply list_elem_of_fmap. exists wy. split; [reflexivity|exact Hwy].
Qed.

(** One step along a line moves the center by at most one tile on each
    axis. *)
Lemma first_step_near (x0 dx dist : Z) :
  0 < dist -> - dist <= dx <= dist ->
  x0 - 1 <= int_of (inject_Z x0 + inject_Z 1 / inject_Z dist * inject_Z dx) <= x0 + 1.
Proof.
  intros Hd Hdx.
  assert (Hlo : (inject_Z (x0 - 1)
                 <= inject_Z x0 + inject_Z 1 / inject_Z dist * inject_Z dx)%Q).
  { unfold Qle, Qdiv, Qmult, Qinv, Qplus, inject_Z. simpl.
    destruct dist as [|d|d]; try lia. simpl. nia. }
  assert (Hhi : (inject_Z x0 + inject_Z 1 / inject_Z dist * inject_Z dx
                 <= inject_Z (x0 + 1))%Q).
  { unfold Qle, Qdiv, Qmult, Qinv, Qplus, inject_Z. simpl.
    destruct dist as [|d|d]; try lia. simpl. nia. }
  assert (Hinj : forall n, int_of (inject_Z n) = n)
    by (intros n; apply TransformFacts.int_of_inject; reflexivity).
  apply ChunkCoordFacts.int_of_mono in Hlo, Hhi.
  rewrite Hinj in Hlo, Hhi. lia.
Qed.

Lemma near_in_width_range width d : 2 <= width -> -1 <= d <= 1 -> d ∈ width_range width.
Proof.
  intros Hw Hd. apply elem_of_width_range.
  assert (1 <= (width + 1) / 2) by (apply Z.div_le_lower_bound; lia).
  assert (1 <= width / 2) by (apply Z.div_le_lower_bound; lia). lia.
Qed.

(** The start tile lies in the squares of the first two steps. *)
Lemma start_tile_registered_twice st et width :
  2 <= width -> st <> et -> (2 <= occurrences st (road_squares st et width))%nat.
Proof.
  intros Hw Hne. unfold road_squares.
  set (dist := Z.max (Z.abs (fst et - fst st)) (Z.abs (snd et - snd st))).
  assert (Hd : 0 < dist).
  { unfold dist. destruct st as [x0 y0], et as [x1 y1]. cbn [fst snd].
    destruct (Z.eq_dec x0 x1) as [->|]; [|lia].
    destruct (Z.eq_dec y0 y1) as [->|]; [|lia]. contradiction. }
  rewrite (BuildingFacts.range_split 0 (dist + 1) 0) by lia.
  rewrite (BuildingFacts.range_split (0 + 1) (dist + 1) 1) by lia.
  change (range 0 0) with (@nil Z). change (range (0 + 1) 1) with (@nil Z).
  cbn [app mbind list_bind]. rewrite !occurrences_app.
  set (sq := fun i : Z =>
               wx ← width_range width;
               map (fun wy => (fst (line_center st et dist i) + wx,
                               snd (line_center st et dist i) + wy))
                   (width_range width)).
  assert (H0 : st ∈ sq 0).
  { unfold sq. rewrite PainterFacts.line_center_start.
    apply list_elem_of_bind. exists 0.
    split; [|apply near_in_width_range; lia].
    apply list_elem_of_fmap. exists 0.
    split; [destruct st; cbn [fst snd]; f_equal; lia|apply near_in_width_range; lia]. }
  assert (H1 : st ∈ sq 1).
  { assert (Hnear : fst st - 1 <= fst (line_center st et dist 1) <= fst st + 1
                    /\ snd st - 1 <= snd (line_center st et dist 1) <= snd st + 1).
    { unfold line_center. cbn [fst snd].
      split; apply first_step_near; unfold dist; lia. }
    destruct Hnear as [Hx Hy]. unfold sq.
    apply list_elem_of_bind. exists (fst st - fst (line_center st et dist 1)).
    split; [|apply near_in_width_range; lia].
    apply list_elem_of_fmap. exists (snd st - snd (line_center st et dist 1)).
    split; [rewrite (surjective_pairing st) at 1; f_equal; lia
           |apply near_in_width_range; lia]. }
  apply occurrences_pos in H0, H1. fold (sq 0). fold (sq 1). lia.
Qed.

(** X16.  On an empty registry, tracking one segment of a road at least
    two tiles wide between two distinct tiles marks the start tile as an
    ["intersection"], although no other road has been tracked: the
    squares of the first two steps both contain it. *)
Theorem wide_road_marks_its_start_as_intersection
        (G : Type) (RG : Random.Generator G)
        (start end_ : Q * Q) (highway_type : string) (width : Z)
        (g : G) (s : MapGenerator) :
  2 <= width -> road_tiles s = ∅ ->
  osm_to_ultima (transformer s) (fst start) (snd start)
  <> osm_to_ultima (transformer s) (fst end_) (snd end_) ->
  exists rt',
    _track_road_segment start end_ highway_type width (g, s)
    = Ok (tt, (g, set_road_tiles rt' s))
    /\ rt' !! osm_to_ultima (transformer s) (fst start) (snd start)
       = Some "intersection".
Proof.
  intros Hw Hempty Hne. eexists. split; [apply track_road_segment_run|].
  set (st := osm_to_ultima (transformer s) (fst start) (snd start)) in *.
  set (et := osm_to_ultima (transformer s) (fst end_) (snd end_)) in *.
  destruct (Z.eqb_spec (Z.max (Z.abs (fst et - fst st)) (Z.abs (snd et - snd st))) 0)
    as [Hd|Hd].
  { exfalso. apply Hne. destruct st, et; cbn [fst snd] in *. f_equal; lia. }
  rewrite register_fold.
  pose proof (start_tile_registered_twice st et width Hw Hne) as Htwice.
  rewrite decide_True by (apply occurrences_pos; lia).
  rewrite decide_True by (right; exact Htwice). reflexivity.
Qed.

(** X16 on a residential road from tile (5, 5) to tile (9, 5). *)
Lemma wide_road_marks_its_start_as_intersection_witness :
  exists rt',
    _track_road_segment (G := list Z) (5 # 256, 251 # 256) (9 # 256, 251 # 256)
                        "residential" 2 ([], Scenario.world0)
    = Ok (tt, ([], set_road_tiles rt' Scenario.world0))
    /\ rt' !! osm_to_ultima (transformer Scenario.world0) (5 # 256) (251 # 256)
       = Some "intersection".
Proof.
  apply (wide_road_marks_its_start_as_intersection (list Z) Tape.tape_generator
           (5 # 256, 251 # 256) (9 # 256, 251 # 256) "residential" 2 []
           Scenario.world0).
  - lia.
  - reflexivity.
  - vm_compute. discriminate.
Defined.

End RoadFacts.

(** ** Point features *)

Module PointFacts.
Import Generator Tape.

(** No building definition has a [main] component. *)
Lemma building_defs_no_main name building_def :
  OSM_BUILDING_TO_SHAPES !! name = Some building_def -> building_def !! "main" = None.
Proof.
  intros H. unfold OSM_BUILDING_TO_SHAPES in H. apply elem_of_list_to_map_2 in H.
  change (snd (name, building_def) !! "main" = None).
  revert H. generalize (name, building_def). apply Forall_forall.
  repeat (constructor; [vm_compute; reflexivity|]). constructor.
Qed.

Lemma building_tag_no_main osm_tags :
  is_Some (nonempty_tag osm_tags "building") -> get_object_shapes osm_tags !! "main" = None.
Proof.
  intros [building Hb]. unfold get_object_shapes. rewrite Hb.
  unfold building_components. rewrite lookup_omap.
  assert (Hdef : forall btype,
             dict_get OSM_BUILDING_TO_SHAPES btype (OSM_BUILDING_TO_SHAPES !!! "house")
               !! "main" = None).
  { intros btype. unfold dict_get.
    destruct (OSM_BUILDING_TO_SHAPES !! btype) as [d|] eqn:E; cbn [default].
    - exact (building_defs_no_main _ _ E).
    - vm_compute. reflexivity. }
  rewrite Hdef. reflexivity.
Qed.

(** X17.  [_process_node] always returns.  When the tags give a [main]
    shape list it places exactly one object, on the tile of the node, at
    lift 0 and with a shape of the list, and changes nothing else;
    without one it leaves the session as it is.  A node that carries a
    non-empty [building] tag is of the second kind, whatever its other
    tags: the building branch of the classifier wins and has no [main]
    component. *)
Theorem process_node_places_main_object
        (G : Type) (RG : Random.Generator G)
        (lon lat : Q) (tags : gmap string string) (g : G) (s : MapGenerator) :
  (let tile := osm_to_ultima (transformer s) lon lat in
   match get_object_shapes tags !! "main" with
   | Some main_shapes =>
       exists g' sh,
         sh ∈ main_shapes
         /\ _process_node lon lat tags (g, s)
            = Ok (tt, (g', set_ultima_map
                             (Grid.add_object (ultima_map s)
                                (new_object sh (fst tile) (snd tile) 0)) s))
   | None => _process_node lon lat tags (g, s) = Ok (tt, (g, s))
   end)
  /\ (is_Some (nonempty_tag tags "building") ->
      _process_node lon lat tags (g, s) = Ok (tt, (g, s))).
Proof.
  assert (Hnone : get_object_shapes tags !! "main" = None ->
                  _process_node lon lat tags (g, s) = Ok (tt, (g, s))).
  { intros E. unfold _process_node, gbind, get_self, dict_get. rewrite E. reflexivity. }
  split.
  - cbv zeta. destruct (get_object_shapes tags !! "main") as [shapes|] eqn:E;
      [|apply Hnone; reflexivity].
    pose proof (BuildingFacts.get_object_shapes_nonempty _ _ _ E) as Hne.
    destruct (BuildingFacts.choice_ok shapes g Hne) as (sh & g' & Hc & Hin).
    exists g', sh. split; [exact Hin|].
    unfold _process_node, gbind at 1, get_self, dict_get. rewrite E.
    change (default [] (Some shapes)) with shapes. cbn [snd].
    destruct shapes as [|sh0 shapes]; [contradiction|].
    unfold gbind, draw, add_object, modify. cbn [fst snd]. rewrite Hc. reflexivity.
  - intros Hb. apply Hnone. apply building_tag_no_main. exact Hb.
Qed.

(** X17 on a tree and on a node tagged as a building. *)
Lemma process_node_places_main_object_witness :
  _process_node (G := list Z) (5 # 256) (251 # 256)
                {[ "building" := "yes"; "natural" := "tree" ]} ([], Scenario.world0)
  = Ok (tt, ([], Scenario.world0)).
Proof.
  apply (process_node_places_main_object (list Z) Tape.tape_generator
           (5 # 256) (251 # 256) {[ "building" := "yes"; "natural" := "tree" ]}
           [] Scenario.world0).
  vm_compute. eauto.
Defined.

End PointFacts.

(** ** The occupants of a building *)

Module OccupantFacts.
Import Generator RelationshipFacts Tape.

Section Occupants.
Context {G : Type} {RG : Random.Generator G}.

Lemma randint_range a b (g : G) v g' :
  Random.randint a b g = Ok (v, g') -> a <= v <= b.
Proof.
  unfold Random.randint. destruct (Z.ltb_spec 0 (b + 1 - a)) as [Hw|Hw]; [|discriminate].
  pose proof (Random.randbelow_range g (b + 1 - a) Hw) as Hr.
  destruct (Random.randbelow g (b + 1 - a)) as [i g1]. cbn [fst] in Hr.
  intros [= <- <-]. lia.
Qed.

Lemma draw_randint a b (w : G * MapGenerator) v w' :
  draw (Random.randint a b) w = Ok (v, w') -> snd w' = snd w /\ a <= v <= b.
Proof.
  intros H. split; [exact (draw_Ok _ _ _ _ H)|].
  unfold draw in H. destruct (Random.randint a b (fst w)) as [[v' g']|e] eqn:E;
    [|discriminate].
  injection H as <- <-. exact (randint_range _ _ _ _ _ E).
Qed.

Lemma vary_inv base (w : G * MapGenerator) a w' :
  vary base w = Ok (a, w') -> snd w' = snd w /\ in_unit a.
Proof.
  intros H. split; [exact (vary_Ok _ _ _ _ H)|].
  unfold vary in H. apply gbind_Ok in H as (u & w1 & _ & [= <- <-]).
  split; [apply Q.le_max_l|].
  apply Q.max_lub; [unfold Qle; simpl; lia|apply Q.le_min_l].
Qed.

(** The profile [_create_npc_profile] returns. *)
Lemma create_npc_profile_fields npc_type building_type px py sh npc_data
      (w : G * MapGenerator) p w' :
  _create_npc_profile npc_type building_type px py sh npc_data w = Ok (p, w') ->
  location p = (px, py) /\ npc_shape p = sh /\ profession p = npc_type
  /\ traits_in_unit p.
Proof.
  unfold _create_npc_profile. intros H.
  apply gbind_Ok in H as ([] & w1 & [= <-] & H).
  apply gbind_Ok in H as (self & w2 & [= <- <-] & H).
  apply gbind_Ok in H as (name & w3 & H3 & H).
  apply gbind_Ok in H as (o & w4 & H4 & H). apply vary_inv in H4 as [_ Ho].
  apply gbind_Ok in H as (c & w5 & H5 & H). apply vary_inv in H5 as [_ Hc].
  apply gbind_Ok in H as (e & w6 & H6 & H). apply vary_inv in H6 as [_ He].
  apply gbind_Ok in H as (a & w7 & H7 & H). apply vary_inv in H7 as [_ Ha].
  apply gbind_Ok in H as (n & w8 & H8 & H). apply vary_inv in H8 as [_ Hn].
  injection H as <- <-.
  split; [reflexivity|]. split; [reflexivity|]. split; [reflexivity|].
  exact (conj Ho (conj Hc (conj He (conj Ha Hn)))).
Qed.

Variable get_npc_with_dialogue : string -> option NpcData.
Variable py_hash : string -> Z.

Lemma occupants_placed_nil min_x min_y max_x max_y placed s s' :
  npc_profiles s' = npc_profiles s -> npc_counter s' = npc_counter s ->
  stats s' = stats s -> ultima_map s' = ultima_map s ->
  occupants_placed py_hash min_x min_y max_x max_y placed s [] s'.
Proof.
  intros Hp Hc Hs Hm. unfold occupants_placed. cbn [length map Grid.add_objects fold_left].
  rewrite Hp, Hc, Hs, Hm, app_nil_r.
  repeat split; try lia; constructor.
Qed.

Lemma occupants_placed_app min_x min_y max_x max_y placed s n1 s1 n2 s2 :
  occupants_placed py_hash min_x min_y max_x max_y placed s n1 s1 ->
  occupants_placed py_hash min_x min_y max_x max_y
                   (list_to_set (map location n1) ∪ placed) s1 n2 s2 ->
  occupants_placed py_hash min_x min_y max_x max_y placed s (n1 ++ n2) s2.
Proof.
  intros (Hp1 & Hc1 & Hs1 & Hm1 & Hd1 & Hf1) (Hp2 & Hc2 & Hs2 & Hm2 & Hd2 & Hf2).
  unfold occupants_placed. rewrite length_app, !map_app.
  split; [rewrite Hp2, Hp1, app_assoc; reflexivity|].
  split; [lia|]. split; [lia|].
  split; [rewrite Hm2, Hm1, GridFacts.add_objects_app; reflexivity|].
  split.
  - apply NoDup_app. split; [exact Hd1|]. split; [|exact Hd2].
    intros loc H1 H2. apply list_elem_of_fmap in H2 as (q & -> & Hq).
    rewrite Forall_forall in Hf2. destruct (Hf2 q Hq) as (Hnot & _).
    apply Hnot. apply elem_of_union_l. apply elem_of_list_to_set. exact H1.
  - apply Forall_app. split; [exact Hf1|].
    eapply Forall_impl; [exact Hf2|]. intros q (Hnot & Hrest).
    split; [|exact Hrest]. intros Hin. apply Hnot. apply elem_of_union_r. exact Hin.
Qed.

(** One NPC: at most one occupant is placed. *)
Lemma npc_attempts_placed n npc_type building_type npc_data min_x min_y max_x max_y
      placed building_npcs (w : G * MapGenerator) r w' :
  npc_attempts py_hash n npc_type building_type npc_data min_x min_y max_x max_y
               placed building_npcs w = Ok (r, w') ->
  exists new, (length new <= 1)%nat
    /\ fst r = list_to_set (map location new) ∪ placed
    /\ occupants_placed py_hash min_x min_y max_x max_y placed (snd w) new (snd w').
Proof.
  revert w. induction n as [|n IH]; intros w H; cbn [npc_attempts] in H.
  - injection H as <- <-. exists []. split; [cbn; lia|].
    split; [cbn; rewrite (left_id_L ∅ (∪)); reflexivity|].
    apply occupants_placed_nil; reflexivity.
  - apply gbind_Ok in H as (px & w1 & H1 & H). apply draw_randint in H1 as [H1 Hpx].
    apply gbind_Ok in H as (py & w2 & H2 & H). apply draw_randint in H2 as [H2 Hpy].
    destruct (decide ((px, py) ∈ placed)) as [Hin|Hnin].
    + destruct (IH _ H) as (new & Hlen & Hr & Ha). exists new.
      split; [exact Hlen|]. split; [exact Hr|]. rewrite <- H1, <- H2. exact Ha.
    + apply gbind_Ok in H as (sh & w3 & H3 & H). apply draw_Ok in H3.
      apply gbind_Ok in H as ([] & w4 & [= <-] & H).
      apply gbind_Ok in H as ([] & w5 & [= <-] & H).
      apply gbind_Ok in H as (profile & w6 & H6 & H).
      pose proof (create_npc_profile_fields _ _ _ _ _ _ _ _ _ H6)
        as (Hloc & Hshape & Hprof & Htraits).
      apply create_npc_profile_Ok in H6 as (Hs6 & _ & _).
      apply gbind_Ok in H as ([] & w7 & [= <-] & H).
      injection H as <- <-. exists [profile]. split; [cbn; lia|].
      split; [cbn [map fst list_to_set]; rewrite Hloc, (right_id_L ∅ (∪)); reflexivity|].
      cbn [fst snd] in *. rewrite Hs6, H3, H2, H1.
      unfold occupants_placed. cbn.
      split; [reflexivity|]. split; [lia|]. split; [lia|].
      split.
      { unfold npc_object. rewrite Hloc, Hshape, Hprof. reflexivity. }
      split; [apply NoDup_singleton|].
      constructor; [|constructor]. rewrite Hloc. cbn [fst snd].
      split; [exact Hnin|]. split; [lia|]. split; [lia|exact Htraits].
Qed.

(** The NPC loop: at most one occupant per iteration. *)
Lemma place_npcs_placed k npc_types building_type min_x min_y max_x max_y
      placed building_npcs (w : G * MapGenerator) ids w' :
  place_npcs get_npc_with_dialogue py_hash k npc_types building_type
             min_x min_y max_x max_y placed building_npcs w = Ok (ids, w') ->
  exists new, (length new <= k)%nat
    /\ occupants_placed py_hash min_x min_y max_x max_y placed (snd w) new (snd w').
Proof.
  revert placed building_npcs w.
  induction k as [|k IH]; intros placed building_npcs w H; cbn [place_npcs] in H.
  - injection H as <- <-. exists []. split; [cbn; lia|].
    apply occupants_placed_nil; reflexivity.
  - apply gbind_Ok in H as (npc_type & w1 & H1 & H). apply draw_Ok in H1.
    assert (Hskip : forall w2, snd w2 = snd w ->
              place_npcs get_npc_with_dialogue py_hash k npc_types building_type
                         min_x min_y max_x max_y placed building_npcs w2 = Ok (ids, w') ->
              exists new, (length new <= S k)%nat
                /\ occupants_placed py_hash min_x min_y max_x max_y placed
                                    (snd w) new (snd w')).
    { intros w2 Hw2 H2. destruct (IH _ _ _ H2) as (new & Hlen & Ha).
      exists new. split; [lia|]. rewrite <- Hw2. exact Ha. }
    destruct (get_npc_with_dialogue npc_type) as [npc_data|]; [|exact (Hskip _ H1 H)].
    destruct (nd_shapes npc_data) eqn:Hshapes; [exact (Hskip _ H1 H)|].
    apply gbind_Ok in H as (r & w2 & H2 & H).
    apply npc_attempts_placed in H2 as (n1 & Hl1 & Hr1 & Ha1).
    rewrite Hr1 in H.
    destruct (IH _ _ _ H) as (n2 & Hl2 & Ha2).
    exists (n1 ++ n2). split; [rewrite length_app; lia|].
    rewrite <- H1. eapply occupants_placed_app; [exact Ha1|exact Ha2].
Qed.

(** The relationship pass keeps what the placement has established. *)
Lemma related_fields npc_ids p p' :
  related npc_ids p p' ->
  location p' = location p /\ npc_object py_hash p' = npc_object py_hash p
  /\ (traits_in_unit p -> traits_in_unit p').
Proof.
  intros [Heq _]. rewrite Heq. split; [reflexivity|]. split; [reflexivity|].
  intros H. exact H.
Qed.

Lemma related_all_fields npc_ids l l' :
  Forall2 (related npc_ids) l l' ->
  length l' = length l /\ map location l' = map location l
  /\ map (npc_object py_hash) l' = map (npc_object py_hash) l
  /\ forall (P : Z * Z -> Prop),
       Forall (fun p => P (location p) /\ traits_in_unit p) l ->
       Forall (fun p => P (location p) /\ traits_in_unit p) l'.
Proof.
  induction 1 as [|p p' l l' Hr HF (IH1 & IH2 & IH3 & IH4)].
  - repeat split; auto.
  - destruct (related_fields _ _ _ Hr) as (Hl & Ho & Ht). cbn [length map].
    rewrite IH1, IH2, IH3, Hl, Ho. repeat split; try reflexivity.
    intros P HP. apply Forall_cons in HP as [[HP1 HP2] HP].
    constructor; [|apply IH4; exact HP]. rewrite Hl. split; [exact HP1|apply Ht; exact HP2].
Qed.

(** X18.  Whenever [_place_building_npcs] returns in a session whose
    profiles are numbered, the building has received at most three
    occupants, at most one when the area of the box is below 16 and at
    most two when it is below 36.  Their profiles are appended to the
    profile list; the counter and the statistic [npcs_placed] advance by
    their number; the map receives one object per occupant, in order, on
    the tile of the profile; the occupants stand on pairwise distinct
    tiles of the box; and their five personality values lie in [0, 1]. *)
Theorem place_building_npcs_occupants
        building_type min_x min_y max_x max_y (w w' : G * MapGenerator) :
  profiles_numbered (snd w) ->
  _place_building_npcs get_npc_with_dialogue py_hash
                       building_type min_x min_y max_x max_y w = Ok (tt, w') ->
  exists occupants,
    occupants_placed py_hash min_x min_y max_x max_y ∅ (snd w) occupants (snd w')
    /\ (length occupants <= 3)%nat
    /\ ((max_x - min_x) * (max_y - min_y) < 36 -> (length occupants <= 2)%nat)
    /\ ((max_x - min_x) * (max_y - min_y) < 16 -> (length occupants <= 1)%nat).
Proof.
  intros Hnum Hrun. unfold _place_building_npcs in Hrun.
  set (area := (max_x - min_x) * (max_y - min_y)) in *.
  assert (Hnone : snd w' = snd w ->
            exists occupants,
              occupants_placed py_hash min_x min_y max_x max_y ∅ (snd w) occupants (snd w')
              /\ (length occupants <= 3)%nat
              /\ (area < 36 -> (length occupants <= 2)%nat)
              /\ (area < 16 -> (length occupants <= 1)%nat)).
  { intros Hs. exists []. rewrite Hs.
    split; [apply occupants_placed_nil; reflexivity|]. cbn. lia. }
  assert (Hmax : exists max_npcs npc_chance,
             (if area <? 16 then (1, 4 # 10)
              else if area <? 36 then (2, 5 # 10) else (3, 6 # 10))
             = (max_npcs, npc_chance)
             /\ max_npcs <= 3 /\ (area < 36 -> max_npcs <= 2)
             /\ (area < 16 -> max_npcs <= 1)).
  { destruct (Z.ltb_spec area 16); [eexists _, _; split; [reflexivity|lia]|].
    destruct (Z.ltb_spec area 36); eexists _, _; (split; [reflexivity|lia]). }
  destruct Hmax as (max_npcs & npc_chance & Hmax & Hb3 & Hb2 & Hb1).
  rewrite Hmax in Hrun.
  apply gbind_Ok in Hrun as (r & w1 & H1 & Hrun). apply draw_total_Ok in H1.
  destruct (negb _).
  { injection Hrun as <-. apply Hnone. exact H1. }
  apply gbind_Ok in Hrun as (num_npcs & w2 & H2 & Hrun).
  apply draw_randint in H2 as [H2 Hnum_npcs].
  apply gbind_Ok in Hrun as (ids & w3 & H3 & Hrun).
  pose proof (place_npcs_placed _ _ _ _ _ _ _ _ _ _ _ _ H3) as (new & Hlen & Hplaced).
  apply place_npcs_Ok in H3 as (new' & Hids & Hadd). cbn [app] in Hids.
  rewrite H2, H1 in Hplaced, Hadd.
  assert (new' = new) as ->.
  { destruct Hplaced as (Hp & _). destruct Hadd as (Hp' & _).
    rewrite Hp in Hp'. apply app_inv_head in Hp'. congruence. }
  subst ids.
  assert (Hbound : (length new <= 3)%nat /\ (area < 36 -> (length new <= 2)%nat)
                   /\ (area < 16 -> (length new <= 1)%nat)) by lia.
  unfold _create_building_relationships in Hrun.
  destruct (length (map npc_id new) <? 2)%nat.
  { injection Hrun as <-. exists new. split; [exact Hplaced|exact Hbound]. }
  pose proof (relate_profiles_spec (map npc_id new) (npc_profiles (snd w3)) (fst w3))
    as Hrel.
  destruct (relate_profiles (map npc_id new) (npc_profiles (snd w3)) (fst w3))
    as [profiles g'].
  injection Hrun as <-. cbn [fst snd] in *.
  destruct Hplaced as (Hp & Hc & Hs & Hm & Hd & Hf).
  rewrite Hp in Hrel.
  apply Forall2_app_inv_l in Hrel as (old' & occupants & Hold & Hocc & ->).
  assert (old' = npc_profiles (snd w)) as ->.
  { apply (related_outside _ _ _ Hold). intros q Hq.
    exact (fresh_profiles_not_numbered _ _ _ Hnum (proj2 (proj2 Hadd)) Hq). }
  destruct (related_all_fields _ _ _ Hocc) as (Hl & Hlocs & Hobjs & Hall).
  exists occupants. rewrite Hl. split; [|exact Hbound].
  unfold occupants_placed. cbn. rewrite Hl, Hlocs, Hobjs.
  split; [reflexivity|]. split; [exact Hc|]. split; [exact Hs|].
  split; [exact Hm|]. split; [exact Hd|].
  specialize (Hall (fun loc => (loc ∉ (∅ : gset (Z * Z)))
                               /\ min_x <= fst loc <= max_x
                               /\ min_y <= snd loc <= max_y)).
  eapply Forall_impl; [apply Hall|].
  - eapply Forall_impl; [exact Hf|]. intros q (? & ? & ? & ?). auto.
  - intros q ((? & ? & ?) & ?). auto.
Qed.

End Occupants.

(** X18 on the house of [two_npc_tape]. *)
Lemma place_building_npcs_occupants_witness :
  exists w' occupants,
    _place_building_npcs Scenario.townsman_data Scenario.hash0 "house" 1 1 8 8
                         (Scenario.two_npc_tape, Scenario.world0) = Ok (tt, w')
    /\ occupants_placed Scenario.hash0 1 1 8 8 ∅ Scenario.world0 occupants (snd w')
    /\ (length occupants <= 3)%nat
    /\ ((8 - 1) * (8 - 1) < 36 -> (length occupants <= 2)%nat)
    /\ ((8 - 1) * (8 - 1) < 16 -> (length occupants <= 1)%nat).
Proof.
  assert (Hrun : exists w',
             _place_building_npcs Scenario.townsman_data Scenario.hash0 "house" 1 1 8 8
                                  (Scenario.two_npc_tape, Scenario.world0) = Ok (tt, w'))
    by (eexists; vm_compute; reflexivity).
  destruct Hrun as [w' Hrun].
  destruct (place_building_npcs_occupants (G := list Z)
              Scenario.townsman_data Scenario.hash0 "house" 1 1 8 8
              (Scenario.two_npc_tape, Scenario.world0) w'
              (BuildingRuns.new_generator_numbered _ _) Hrun) as (occupants & H).
  exists w', occupants. split; [exact Hrun|exact H].
Defined.

End OccupantFacts.

(** ** The rooms of a building *)

Module RoomFacts.
Import Generator RelationshipFacts Tape.

Ltac room_cases :=
  repeat match goal with
         | H : _ ∈ _ :: _ |- _ => apply elem_of_cons in H as [->|H]
         | H : _ ∈ [] |- _ => inversion H
         end.

Lemma one_room_tiles name x0 y0 x1 y1 :
  x0 <= x1 -> y0 <= y1 -> rooms_tile_box [mkRoom name x0 y0 x1 y1] x0 y0 x1 y1.
Proof.
  intros Hx Hy. split; [repeat constructor; cbn; lia|]. split.
  - intros tx ty. split.
    + intros H. eexists. split; [left|]. exact H.
    + intros (r & Hr & Hin). room_cases. exact Hin.
  - intros [|i] [|j] r1 r2 tx ty H1 H2 _ _; try reflexivity;
      cbn in H1, H2; destruct i || destruct j; discriminate.
Qed.

(** Two rooms, one above the other. *)
Lemma two_rows_tile n1 n2 x0 y0 x1 y1 m :
  x0 <= x1 -> y0 <= m -> m < y1 ->
  rooms_tile_box [mkRoom n1 x0 y0 x1 m; mkRoom n2 x0 (m + 1) x1 y1] x0 y0 x1 y1.
Proof.
  intros Hx Hy Hm. split; [repeat constructor; cbn; lia|]. split.
  - intros tx ty. split.
    + intros H. destruct (Z_le_gt_dec ty m).
      * eexists. split; [left|]. unfold in_room; cbn. lia.
      * eexists. split; [right; left|]. unfold in_room; cbn. lia.
    + intros (r & Hr & Hin). room_cases; unfold in_room in Hin; cbn in Hin; lia.
  - intros [|[|i]] [|[|j]] r1 r2 tx ty H1 H2 I1 I2; try reflexivity;
      cbn in H1, H2; try discriminate;
      injection H1 as <-; injection H2 as <-; unfold in_room in *; cbn in *; lia.
Qed.

(** Two rooms side by side. *)
Lemma two_columns_tile n1 n2 x0 y0 x1 y1 m :
  y0 <= y1 -> x0 <= m -> m < x1 ->
  rooms_tile_box [mkRoom n1 x0 y0 m y1; mkRoom n2 (m + 1) y0 x1 y1] x0 y0 x1 y1.
Proof.
  intros Hy Hx Hm. split; [repeat constructor; cbn; lia|]. split.
  - intros tx ty. split.
    + intros H. destruct (Z_le_gt_dec tx m).
      * eexists. split; [left|]. unfold in_room; cbn. lia.
      * eexists. split; [right; left|]. unfold in_room; cbn. lia.
    + intros (r & Hr & Hin). room_cases; unfold in_room in Hin; cbn in Hin; lia.
  - intros [|[|i]] [|[|j]] r1 r2 tx ty H1 H2 I1 I2; try reflexivity;
      cbn in H1, H2; try discriminate;
      injection H1 as <-; injection H2 as <-; unfold in_room in *; cbn in *; lia.
Qed.

(** A wide room and two rooms beside it, one above the other. *)
Lemma three_rooms_tile n1 n2 n3 x0 y0 x1 y1 mx my :
  x0 <= mx -> mx < x1 -> y0 <= my -> my < y1 ->
  rooms_tile_box [mkRoom n1 x0 y0 mx y1; mkRoom n2 (mx + 1) y0 x1 my;
                  mkRoom n3 (mx + 1) (my + 1) x1 y1] x0 y0 x1 y1.
Proof.
  intros Hx Hmx Hy Hmy. split; [repeat constructor; cbn; lia|]. split.
  - intros tx ty. split.
    + intros H. destruct (Z_le_gt_dec tx mx); [|destruct (Z_le_gt_dec ty my)].
      * eexists. split; [left|]. unfold in_room; cbn. lia.
      * eexists. split; [right; left|]. unfold in_room; cbn. lia.
      * eexists. split; [right; right; left|]. unfold in_room; cbn. lia.
    + intros (r & Hr & Hin). room_cases; unfold in_room in Hin; cbn in Hin; lia.
  - intros [|[|[|i]]] [|[|[|j]]] r1 r2 tx ty H1 H2 I1 I2; try reflexivity;
      cbn in H1, H2; try discriminate;
      injection H1 as <-; injection H2 as <-; unfold in_room in *; cbn in *; lia.
Qed.

(** X19.  Whenever [_plan_rooms] returns for a box that is not
    reversed, it returns between one and three rooms that tile the box:
    every room has a tile, every tile of the box lies in exactly one
    room, and no room reaches outside the box.  The row of the dividing
    wall of a house belongs to the first room. *)
Theorem plan_rooms_tile_interior
        (G : Type) (RG : Random.Generator G)
        (building_type : string) (min_x min_y max_x max_y : Z)
        (w : G * MapGenerator) (rooms : list Room) (w' : G * MapGenerator) :
  _plan_rooms building_type min_x min_y max_x max_y w = Ok (rooms, w') ->
  min_x <= max_x -> min_y <= max_y ->
  rooms_tile_box rooms min_x min_y max_x max_y
  /\ (1 <= length rooms <= 3)%nat.
Proof.
  intros Hrun Hx Hy. unfold _plan_rooms in Hrun.
  pose proof (Z.div_mod (max_y - min_y) 2 ltac:(lia)) as Hd1.
  pose proof (Z.mod_pos_bound (max_y - min_y) 2 ltac:(lia)) as Hm1.
  pose proof (Z.div_mod (max_x - min_x) 2 ltac:(lia)) as Hd2.
  pose proof (Z.mod_pos_bound (max_x - min_x) 2 ltac:(lia)) as Hm2.
  pose proof (Z.div_mod ((max_y - min_y) * 2) 3 ltac:(lia)) as Hd3.
  pose proof (Z.mod_pos_bound ((max_y - min_y) * 2) 3 ltac:(lia)) as Hm3.
  pose proof (Z.div_mod ((max_x - min_x) * 2) 3 ltac:(lia)) as Hd4.
  pose proof (Z.mod_pos_bound ((max_x - min_x) * 2) 3 ltac:(lia)) as Hm4.
  destruct (Z.ltb_spec (max_x - min_x) 6) as [Hw|Hw];
    [injection Hrun as <- _; split; [apply one_room_tiles; assumption|cbn; lia]|].
  destruct (Z.ltb_spec (max_y - min_y) 6) as [Hh|Hh];
    [injection Hrun as <- _; split; [apply one_room_tiles; assumption|cbn; lia]|].
  cbn [orb] in Hrun.
  destruct (str_in building_type ["house"; "residential"]).
  { apply gbind_Ok in Hrun as (u & w1 & _ & Hret). injection Hret as <- _.
    split; [apply two_rows_tile; lia|cbn; lia]. }
  destruct (str_in building_type ["shop"; "retail"; "commercial"]).
  { injection Hrun as <- _. split; [apply two_rows_tile; lia|cbn; lia]. }
  destruct (str_in building_type ["tavern"]).
  { injection Hrun as <- _. split; [apply three_rooms_tile; lia|cbn; lia]. }
  destruct (str_in building_type ["castle"; "government"]).
  { injection Hrun as <- _. split; [apply two_columns_tile; lia|cbn; lia]. }
  injection Hrun as <- _. split; [apply one_room_tiles; assumption|cbn; lia].
Qed.

(** X19 on a tavern of twelve by twelve tiles. *)
Lemma plan_rooms_tile_interior_witness :
  exists rooms w',
    _plan_rooms (G := list Z) "tavern" 1 1 12 12 ([], Scenario.world0) = Ok (rooms, w')
    /\ rooms_tile_box rooms 1 1 12 12 /\ (1 <= length rooms <= 3)%nat
    /\ length rooms = 3%nat.
Proof.
  assert (Hrun : exists rooms w',
             _plan_rooms (G := list Z) "tavern" 1 1 12 12 ([], Scenario.world0)
             = Ok (rooms, w') /\ length rooms = 3%nat)
    by (eexists _, _; split; vm_compute; reflexivity).
  destruct Hrun as (rooms & w' & Hrun & Hlen).
  destruct (plan_rooms_tile_interior (list Z) tape_generator "tavern" 1 1 12 12
              ([], Scenario.world0) rooms w' Hrun ltac:(lia) ltac:(lia)) as [H1 H2].
  exists rooms, w'. auto.
Defined.

End RoomFacts.

(** ** The default fill *)

Module FillFacts.
Import Grid GridFacts TileFacts RasterFacts Generator AlterFacts Tape.

(** [get_chunk] changes no tile and no object, and loses no chunk. *)
Lemma get_chunk_tiles m cx cy :
  wf m ->
  wf (fst (get_chunk m cx cy))
  /\ (forall tx ty, tile_terrain (fst (get_chunk m cx cy)) tx ty = tile_terrain m tx ty)
  /\ (forall ox oy, objects_at (fst (get_chunk m cx cy)) ox oy = objects_at m ox oy)
  /\ chunks (fst (get_chunk m cx cy)) !! (cx, cy) = Some (snd (get_chunk m cx cy))
  /\ (forall k, is_Some (chunks m !! k) -> is_Some (chunks (fst (get_chunk m cx cy)) !! k)).
Proof.
  intros Hwf. pose proof (get_chunk_wf m cx cy Hwf) as Hwf1.
  split; [exact Hwf1|]. split; [|split; [|split]].
  - intros tx ty. rewrite !tile_terrain_view by assumption.
    rewrite get_chunk_view by assumption. case_decide as Hc; [|reflexivity].
    reflexivity.
  - intros ox oy. unfold objects_at. rewrite get_chunk_chunk_objects by assumption.
    reflexivity.
  - apply get_chunk_lookup.
  - intros k Hk. unfold get_chunk. destruct (chunks m !! (cx, cy)) eqn:E; [exact Hk|].
    cbn [fst chunks]. destruct (decide (k = (cx, cy))) as [->|Hne].
    + rewrite lookup_insert_eq. eauto.
    + rewrite lookup_insert_ne by congruence. exact Hk.
Qed.

Lemma local_tile cx lx :
  0 <= lx < 16 -> (cx * 16 + lx) / 16 = cx /\ (cx * 16 + lx) mod 16 = lx.
Proof.
  intros Hl. split.
  - rewrite Z.add_comm, Z.div_add by lia. rewrite Z.div_small by lia. lia.
  - rewrite Z.add_comm, Z.mod_add by lia. apply Z.mod_small. lia.
Qed.

(** A cell of an existing chunk, read and written through the chunk
    reference, is the tile read and written through the map. *)
Lemma read_terrain_tile m cx cy l ly lx :
  chunks m !! (cx, cy) = Some l -> 0 <= lx < 16 -> 0 <= ly < 16 ->
  read_terrain m l ly lx = tile_terrain m (cx * 16 + lx) (cy * 16 + ly).
Proof.
  intros Hl Hx Hy. unfold tile_terrain.
  destruct (local_tile cx lx Hx) as [-> ->]. destruct (local_tile cy ly Hy) as [-> ->].
  rewrite (get_chunk_existing _ _ _ _ Hl). reflexivity.
Qed.

Lemma set_terrain_existing m cx cy l ly lx v :
  chunks m !! (cx, cy) = Some l -> 0 <= lx < 16 -> 0 <= ly < 16 ->
  Grid.set_terrain m (cx * 16 + lx) (cy * 16 + ly) v
  = match terrain_assign (terrain (deref m l)) ly lx v with
    | Ok t => Ok (store m l {| terrain := t; objects := objects (deref m l) |})
    | Raise e => Raise e
    end.
Proof.
  intros Hl Hx Hy. unfold Grid.set_terrain.
  destruct (local_tile cx lx Hx) as [-> ->]. destruct (local_tile cy ly Hy) as [-> ->].
  rewrite (get_chunk_existing _ _ _ _ Hl). reflexivity.
Qed.

Lemma set_terrain_keeps_chunks m cx cy l ly lx v m' :
  chunks m !! (cx, cy) = Some l -> 0 <= lx < 16 -> 0 <= ly < 16 ->
  Grid.set_terrain m (cx * 16 + lx) (cy * 16 + ly) v = Ok m' -> chunks m' = chunks m.
Proof.
  intros Hl Hx Hy. rewrite (set_terrain_existing _ _ _ _ _ _ _ Hl Hx Hy).
  destruct (terrain_assign _ _ _ _); [|discriminate]. intros [= <-]. reflexivity.
Qed.

Lemma default_filled_refl size grass m :
  wf m -> 4 ∈ grass -> default_filled size grass m m.
Proof.
  intros Hwf H4. split; [exact Hwf|]. split; [|split; [|split]]; auto.
  intros tx ty Ht _. exists 4. auto.
Qed.

Lemma default_filled_trans size grass m0 m1 m2 :
  default_filled size grass m0 m1 -> default_filled size grass m1 m2 ->
  default_filled size grass m0 m2.
Proof.
  intros (Hwf1 & Hin1 & Hout1 & Hobj1 & Hch1) (Hwf2 & Hin2 & Hout2 & Hobj2 & Hch2).
  split; [exact Hwf2|]. split; [|split; [|split]].
  - intros tx ty Ht Hw. destruct (Hin1 tx ty Ht Hw) as (sh & Hsh & H1).
    destruct (decide (sh = 4)) as [->|Hne].
    + apply Hin2; assumption.
    + exists sh. split; [exact Hsh|]. rewrite Hout2; [exact H1|].
      left. rewrite H1. congruence.
  - intros tx ty Ht. rewrite Hout2, Hout1; [reflexivity|exact Ht|].
    destruct Ht as [Ht|Ht]; [left|right; exact Ht]. rewrite Hout1 by (left; exact Ht).
    exact Ht.
  - intros ox oy. rewrite Hobj2. apply Hobj1.
  - intros k Hk. apply Hch2, Hch1, Hk.
Qed.

Section Fill.
Context {G : Type} {RG : Random.Generator G}.

(** A loop whose steps are default fills is a default fill. *)
Lemma for_filled {A} size grass (P : UltimaMap -> Prop) (Q : A -> UltimaMap -> Prop)
      (l : list A) (body : A -> @Gen G unit) s :
  4 ∈ grass ->
  (forall a m m', default_filled size grass m m' -> Q a m -> Q a m') ->
  (forall a, a ∈ l -> forall g m, wf m -> P m ->
     exists g' m',
       body a (g, set_ultima_map m s) = Ok (tt, (g', set_ultima_map m' s))
       /\ default_filled size grass m m' /\ P m' /\ Q a m') ->
  forall g m, wf m -> P m ->
    exists g' m',
      for_ l body (g, set_ultima_map m s) = Ok (tt, (g', set_ultima_map m' s))
      /\ default_filled size grass m m' /\ P m' /\ forall a, a ∈ l -> Q a m'.
Proof.
  intros H4 HQ. induction l as [|a l IH]; intros Hbody g m Hwf HP.
  - exists g, m. split; [reflexivity|]. split; [apply default_filled_refl; assumption|].
    split; [exact HP|]. intros a Ha. inversion Ha.
  - destruct (Hbody a ltac:(left) g m Hwf HP) as (g1 & m1 & Hr1 & Hf1 & HP1 & HQ1).
    destruct (IH (fun b Hb => Hbody b ltac:(right; exact Hb)) g1 m1 (proj1 Hf1) HP1)
      as (g2 & m2 & Hr2 & Hf2 & HP2 & HQ2).
    exists g2, m2. cbn [for_]. unfold gbind. rewrite Hr1, Hr2.
    split; [reflexivity|]. split; [eapply default_filled_trans; eauto|].
    split; [exact HP2|]. intros b Hb. apply elem_of_cons in Hb as [->|Hb].
    + eapply HQ; eauto.
    + apply HQ2. exact Hb.
Qed.

(** One cell of [_fill_default_terrain]. *)
Lemma fill_cell size grass cx cy l ly lx (g : G) m s :
  grass <> [] -> 4 ∈ grass -> wf m ->
  chunks m !! (cx, cy) = Some l -> 0 <= lx < 16 -> 0 <= ly < 16 ->
  in_world size (cx * 16 + lx) (cy * 16 + ly) = true ->
  exists g' m',
    gbind (chunk_terrain_get l ly lx)
      (fun v => if v =? 4
                then gbind (draw (Random.choice grass))
                       (fun sh => chunk_terrain_set l ly lx sh)
                else ret tt) (g, set_ultima_map m s)
    = Ok (tt, (g', set_ultima_map m' s))
    /\ default_filled size grass m m' /\ chunks m' !! (cx, cy) = Some l.
Proof.
  intros Hne H4 Hwf Hl Hx Hy Hw.
  pose proof (read_terrain_tile m cx cy l ly lx Hl Hx Hy) as Hread.
  destruct (tile_terrain_is_Some m (cx * 16 + lx) (cy * 16 + ly) Hwf) as [v Hv].
  rewrite Hv in Hread.
  unfold gbind at 1, chunk_terrain_get. cbn [snd ultima_map set_ultima_map].
  rewrite Hread.
  destruct (Z.eqb_spec v 4) as [->|Hv4].
  - destruct (BuildingFacts.choice_ok grass g Hne) as (sh & g' & Hc & Hin).
    destruct (set_terrain_tiles m (cx * 16 + lx) (cy * 16 + ly) sh Hwf)
      as (m' & Hset & Hwf' & Ht & Ho).
    pose proof (set_terrain_keeps_chunks _ _ _ _ _ _ _ _ Hl Hx Hy Hset) as Hch.
    rewrite (set_terrain_existing _ _ _ _ _ _ _ Hl Hx Hy) in Hset.
    exists g', m'. unfold gbind, draw, chunk_terrain_set.
    cbn [fst snd ultima_map set_ultima_map]. rewrite Hc. cbn [fst snd ultima_map set_ultima_map].
    destruct (terrain_assign _ _ _ _) as [t|e]; [|discriminate].
    injection Hset as Hset. rewrite Hset.
    split; [reflexivity|]. split; [|rewrite Hch; exact Hl].
    split; [exact Hwf'|]. split; [|split; [|split]].
    + intros tx ty H0 _. rewrite Ht. case_decide as Hd.
      * exists sh. auto.
      * exists 4. auto.
    + intros tx ty H0. rewrite Ht. rewrite decide_False; [reflexivity|].
      intros [-> ->]. destruct H0 as [H0|H0]; congruence.
    + exact Ho.
    + intros k Hk. rewrite Hch. exact Hk.
  - exists g, m. split; [reflexivity|].
    split; [apply default_filled_refl; assumption|exact Hl].
Qed.

Lemma fill_chunk_filled size grass cx cy l (g : G) m s :
  grass <> [] -> 4 ∈ grass -> wf m -> chunks m !! (cx, cy) = Some l ->
  0 <= cx < fst size -> 0 <= cy < snd size ->
  exists g' m',
    fill_chunk grass l (g, set_ultima_map m s) = Ok (tt, (g', set_ultima_map m' s))
    /\ default_filled size grass m m' /\ chunks m' !! (cx, cy) = Some l.
Proof.
  intros Hne H4 Hwf Hl Hcx Hcy. unfold fill_chunk.
  destruct (for_filled size grass (fun m => chunks m !! (cx, cy) = Some l)
              (fun _ _ => True) (range 0 16)
              (fun ly => for_ (range 0 16) (fun lx =>
                 gbind (chunk_terrain_get l ly lx)
                   (fun v => if v =? 4
                             then gbind (draw (Random.choice grass))
                                    (fun sh => chunk_terrain_set l ly lx sh)
                             else ret tt))) s H4 (fun _ _ _ _ _ => I))
    with (g := g) (m := m) as (g' & m' & Hr & Hf & HP & _); try assumption.
  - intros ly Hly g0 m0 Hwf0 HP0. apply elem_of_range in Hly.
    destruct (for_filled size grass (fun m => chunks m !! (cx, cy) = Some l)
                (fun _ _ => True) (range 0 16)
                (fun lx =>
                   gbind (chunk_terrain_get l ly lx)
                     (fun v => if v =? 4
                               then gbind (draw (Random.choice grass))
                                      (fun sh => chunk_terrain_set l ly lx sh)
                               else ret tt)) s H4 (fun _ _ _ _ _ => I))
      with (g := g0) (m := m0) as (g1 & m1 & Hr1 & Hf1 & HP1 & _); try assumption.
    + intros lx Hlx g2 m2 Hwf2 HP2. apply elem_of_range in Hlx.
      destruct (fill_cell size grass cx cy l ly lx g2 m2 s Hne H4 Hwf2 HP2)
        as (g3 & m3 & Hr3 & Hf3 & HP3); try lia.
      { unfold in_world. rewrite !andb_true_iff, !Z.leb_le, !Z.ltb_lt. lia. }
      exists g3, m3. auto.
    + exists g1, m1. auto.
  - exists g', m'. auto.
Qed.

(** X20.  On a well-formed map [_fill_default_terrain] returns with only
    the map changed: it never raises.  Afterwards every chunk of the
    world exists; a tile of the world that read the default terrain 4
    reads one of the grass candidates; every painted tile, and every
    tile outside the world, reads what it read before; and no tile
    gains or loses an object. *)
Theorem fill_default_terrain_keeps_painted (g : G) (s : MapGenerator) :
  wf (ultima_map s) ->
  exists g' m',
    _fill_default_terrain (g, s) = Ok (tt, (g', set_ultima_map m' s))
    /\ default_filled (map_size s) (TERRAIN_SHAPES !!! "grass") (ultima_map s) m'
    /\ (forall cx cy, 0 <= cx < fst (map_size s) -> 0 <= cy < snd (map_size s) ->
          is_Some (chunks m' !! (cx, cy))).
Proof.
  intros Hwf. set (grass := TERRAIN_SHAPES !!! "grass").
  assert (Hne : grass <> []) by (vm_compute; discriminate).
  assert (H4 : 4 ∈ grass) by (vm_compute; left).
  assert (HQ : forall (k : Z * Z) m m',
             default_filled (map_size s) grass m m' ->
             is_Some (chunks m !! k) -> is_Some (chunks m' !! k)).
  { intros k m m' (_ & _ & _ & _ & Hch). apply Hch. }
  destruct (for_filled (map_size s) grass (fun _ => True)
              (fun cy m => forall cx, 0 <= cx < fst (map_size s) ->
                                      is_Some (chunks m !! (cx, cy)))
              (range 0 (snd (map_size s)))
              (fun cy => for_ (range 0 (fst (map_size s))) (fun cx =>
                 gbind (map_get_chunk cx cy) (fun chunk => fill_chunk grass chunk)))
              s H4)
    with (g := g) (m := ultima_map s) as (g' & m' & Hr & Hf & _ & Hall);
    try exact I; try assumption.
  - intros cy m m' Hf HQc cx Hcx. eapply HQ; eauto.
  - intros cy Hcy g0 m0 Hwf0 _. apply elem_of_range in Hcy.
    destruct (for_filled (map_size s) grass (fun _ => True)
                (fun cx m => is_Some (chunks m !! (cx, cy)))
                (range 0 (fst (map_size s)))
                (fun cx => gbind (map_get_chunk cx cy)
                             (fun chunk => fill_chunk grass chunk)) s H4)
      with (g := g0) (m := m0) as (g1 & m1 & Hr1 & Hf1 & _ & Hall1);
      try exact I; try assumption.
    + intros cx m m'. apply HQ.
    + intros cx Hcx g2 m2 Hwf2 _. apply elem_of_range in Hcx.
      destruct (get_chunk_tiles m2 cx cy Hwf2) as (Hwf3 & Ht3 & Ho3 & Hl3 & Hch3).
      unfold gbind, map_get_chunk. cbn [snd fst ultima_map set_ultima_map].
      destruct (Grid.get_chunk m2 cx cy) as [m3 l]. cbn [fst snd] in *.
      destruct (fill_chunk_filled (map_size s) grass cx cy l g2 m3 s Hne H4 Hwf3 Hl3)
        as (g4 & m4 & Hr4 & Hf4 & Hl4); try lia.
      exists g4, m4. split; [exact Hr4|].
      split; [|split; [exact I|rewrite Hl4; eauto]].
      eapply default_filled_trans; [|exact Hf4].
      split; [exact Hwf3|]. split; [|split; [|split]]; auto.
      * intros tx ty Ht _. exists 4. rewrite Ht3. auto.
    + exists g1, m1. split; [exact Hr1|]. split; [exact Hf1|]. split; [exact I|].
      intros cx Hcx. apply Hall1. apply elem_of_range. lia.
  - rewrite BuildingFacts.set_ultima_map_id in Hr. exists g', m'.
    split; [exact Hr|]. split; [exact Hf|].
    intros cx cy Hcx Hcy. apply (Hall cy); [apply elem_of_range; lia|exact Hcx].
Qed.

End Fill.

(** X20 on the empty map of a world of one chunk. *)
Lemma fill_default_terrain_keeps_painted_witness :
  exists g' m',
    _fill_default_terrain (G := list Z) ([], new_generator (0, 0, 1, 1)%Q (1, 1))
    = Ok (tt, (g', set_ultima_map m' (new_generator (0, 0, 1, 1)%Q (1, 1))))
    /\ default_filled (1, 1) (TERRAIN_SHAPES !!! "grass") (new_map 1 1) m'
    /\ (forall cx cy, 0 <= cx < 1 -> 0 <= cy < 1 -> is_Some (chunks m' !! (cx, cy))).
Proof.
  apply (fill_default_terrain_keeps_painted (G := list Z) []
           (new_generator (0, 0, 1, 1)%Q (1, 1))).
  apply new_map_wf.
Defined.

End FillFacts.
